(** * Obsidian Big Calendar: note parsing and event extraction

    Shallow embedding of [src/obComponents/parser.ts] and of the event
    extraction module ([getEventsFromFile], [eventMatchesFilter]).

    JavaScript strings are sequences of UTF-16 code units; they are modelled
    as lists of code units ([N]).  Regular expressions are written as an
    abstract syntax that mirrors the literals of the source and are run by a
    backtracking matcher with the priorities of the ECMAScript matcher
    (greedy quantifiers, left alternative first, leftmost match).  What
    moment.js takes from the platform, the time zone first of all, is a
    parameter of the model ([Moment.Env]); the properties hold in every
    time zone, the scenarios are run in one without gaps. *)

From Stdlib Require Import String Ascii DecimalString.
From Stdlib Require DecimalNat.
From Stdlib Require Import List NArith Arith Bool Lia Sorted.
Import ListNotations.

(* ================================================================== *)
(** ** JavaScript strings *)
(* ================================================================== *)

Module JS.

(** A UTF-16 code unit. *)
Definition char := N.
Definition jsstring := list char.

Definition ch (a : ascii) : char := N_of_ascii a.

(** An ASCII literal as a JavaScript string. *)
Definition str (s : string) : jsstring := map ch (list_ascii_of_string s).

Definition char_eqb (a b : char) : bool := N.eqb a b.

Fixpoint jseqb (a b : jsstring) : bool :=
  match a, b with
  | [], [] => true
  | x :: a', y :: b' => char_eqb x y && jseqb a' b'
  | _, _ => false
  end.

(** ECMAScript LineTerminator: LF, CR, LS, PS. *)
Definition isLineTerminator (c : char) : bool :=
  N.eqb c 10 || N.eqb c 13 || N.eqb c 8232 || N.eqb c 8233.

(** ECMAScript WhiteSpace + LineTerminator: the class [\s] of a regular
    expression and the characters removed by [String.prototype.trim]. *)
Definition isSpace (c : char) : bool :=
  N.eqb c 9 || N.eqb c 10 || N.eqb c 11 || N.eqb c 12 || N.eqb c 13 ||
  N.eqb c 32 || N.eqb c 160 || N.eqb c 5760 ||
  (N.leb 8192 c && N.leb c 8202) ||
  N.eqb c 8232 || N.eqb c 8233 || N.eqb c 8239 || N.eqb c 8287 ||
  N.eqb c 12288 || N.eqb c 65279.

(** The class [\d]. *)
Definition isDigit (c : char) : bool := N.leb 48 c && N.leb c 57.

(** The atom [.] (no [s] flag): any code unit but a line terminator. *)
Definition isDot (c : char) : bool := negb (isLineTerminator c).

Fixpoint dropWhile (p : char -> bool) (s : jsstring) : jsstring :=
  match s with
  | c :: t => if p c then dropWhile p t else s
  | [] => []
  end.

Definition trimStart (s : jsstring) : jsstring := dropWhile isSpace s.
Definition trimEnd (s : jsstring) : jsstring := rev (dropWhile isSpace (rev s)).

(** [String.prototype.trim]. *)
Definition trim (s : jsstring) : jsstring := trimEnd (trimStart s).

(** [String.prototype.startsWith]. *)
Fixpoint startsWith (s prefix : jsstring) : bool :=
  match prefix, s with
  | [], _ => true
  | p :: prefix', c :: s' => char_eqb c p && startsWith s' prefix'
  | _ :: _, [] => false
  end.

(** [Array.prototype.join]. *)
Fixpoint join (sep : jsstring) (l : list jsstring) : jsstring :=
  match l with
  | [] => []
  | [x] => x
  | x :: l' => x ++ sep ++ join sep l'
  end.

(** [s.split(sep)] for a separator of one code unit. *)
Fixpoint splitOn (sep : char) (s : jsstring) : list jsstring :=
  match s with
  | [] => [[]]
  | c :: t =>
      if char_eqb c sep then [] :: splitOn sep t
      else match splitOn sep t with
           | seg :: segs => (c :: seg) :: segs
           | [] => [[c]]
           end
  end.

(** [s.replace(pattern, replacement)] with a string pattern: the first
    occurrence only; the replacement holds no [$] pattern. *)
Fixpoint replaceString (pattern replacement s : jsstring) : jsstring :=
  if startsWith s pattern then replacement ++ skipn (length pattern) s
  else match s with
       | [] => []
       | c :: t => c :: replaceString pattern replacement t
       end.

(** The line feed, ["\n"]. *)
Definition newline : jsstring := [10%N].

(** Truthiness of a string: the empty string is falsy. *)
Definition truthy (s : jsstring) : bool :=
  match s with [] => false | _ :: _ => true end.

(** Truthiness of an optional string property ([undefined] is falsy). *)
Definition truthyOpt (o : option jsstring) : bool :=
  match o with Some s => truthy s | None => false end.

(** Decimal rendering of a non-negative integer ([Number] to string). *)
Definition ofNat (n : nat) : jsstring :=
  str (NilEmpty.string_of_uint (Nat.to_uint n)).

End JS.

Import JS.

(* ================================================================== *)
(** ** Regular expressions *)
(* ================================================================== *)

Module Regex.

(** The fragment of the ECMAScript pattern syntax used by the source.
    Every quantified atom of the source is a character class, so [Star]
    and [Plus] take a class. Capture groups are numbered in the order in
    which they close, which is the order of their opening parenthesis for
    groups that are not nested. *)
Inductive regex : Type :=
| Eps
| Chr (c : char)
| Cls (p : char -> bool)
| Seq (r1 r2 : regex)
| Alt (r1 r2 : regex)
| Star (p : char -> bool)
| Opt (r : regex)
| Group (r : regex)
| Bol
| Eol.

Definition Plus (p : char -> bool) : regex := Seq (Cls p) (Star p).

Fixpoint Lit (s : jsstring) : regex :=
  match s with
  | [] => Eps
  | c :: t => Seq (Chr c) (Lit t)
  end.

Fixpoint Repeat (n : nat) (p : char -> bool) : regex :=
  match n with
  | O => Eps
  | S n' => Seq (Cls p) (Repeat n' p)
  end.

(** Matcher state: absolute index, remaining input, captures so far. *)
Record mstate : Type := MState {
  mpos : nat;
  mrest : jsstring;
  mcaps : list jsstring
}.

Definition cont := mstate -> option mstate.

(** Greedy [p*]: take as many as possible, give back one at a time. *)
Fixpoint starK (p : char -> bool) (k : cont) (pos : nat)
         (caps : list jsstring) (s : jsstring) : option mstate :=
  match s with
  | c :: t =>
      if p c then
        match starK p k (S pos) caps t with
        | Some r => Some r
        | None => k (MState pos s caps)
        end
      else k (MState pos s caps)
  | [] => k (MState pos [] caps)
  end.

(** Backtracking matcher in continuation-passing style. *)
Fixpoint matchK (r : regex) (st : mstate) (k : cont) : option mstate :=
  match r with
  | Eps => k st
  | Chr c =>
      match mrest st with
      | x :: t => if char_eqb x c then k (MState (S (mpos st)) t (mcaps st))
                  else None
      | [] => None
      end
  | Cls p =>
      match mrest st with
      | x :: t => if p x then k (MState (S (mpos st)) t (mcaps st)) else None
      | [] => None
      end
  | Seq r1 r2 => matchK r1 st (fun st' => matchK r2 st' k)
  | Alt r1 r2 =>
      match matchK r1 st k with
      | Some res => Some res
      | None => matchK r2 st k
      end
  | Star p => starK p k (mpos st) (mcaps st) (mrest st)
  | Opt r1 =>
      match matchK r1 st k with
      | Some res => Some res
      | None => k st
      end
  | Group r1 =>
      matchK r1 st (fun st' =>
        k (MState (mpos st') (mrest st')
                  (mcaps st' ++ [firstn (mpos st' - mpos st) (mrest st)])))
  | Bol => if Nat.eqb (mpos st) 0 then k st else None
  | Eol => match mrest st with [] => k st | _ :: _ => None end
  end.

(** A match: index, matched text ([m[0]]), captures ([m[1]], ...), index
    after the match and the input after the match. *)
Record rmatch : Type := RMatch {
  index : nat;
  matched : jsstring;
  groups : list jsstring;
  endIndex : nat;
  after : jsstring
}.

(** [RegExpBuiltinExec] without the sticky flag: the leftmost position at
    or after [pos] where the pattern matches; [s] is the input from [pos]. *)
Fixpoint execFrom (r : regex) (pos : nat) (s : jsstring) : option rmatch :=
  match matchK r (MState pos s []) Some with
  | Some st =>
      Some (RMatch pos (firstn (mpos st - pos) s) (mcaps st)
                   (mpos st) (mrest st))
  | None =>
      match s with
      | [] => None
      | _ :: t => execFrom r (S pos) t
      end
  end.

Definition exec (r : regex) (s : jsstring) : option rmatch := execFrom r 0 s.

(** [s.match(r)] for a pattern without the [g] flag, as a condition. *)
Definition test (r : regex) (s : jsstring) : bool :=
  match exec r s with Some _ => true | None => false end.

(** [s.replace(r, replacement)] for a pattern without the [g] flag. *)
Definition replace (r : regex) (replacement s : jsstring) : jsstring :=
  match exec r s with
  | Some m => firstn (index m) s ++ replacement ++ after m
  | None => s
  end.

(** The iteration of [s.matchAll(r)] from a position: after an empty match
    the index advances by one code unit. Each round consumes input, so the
    length of the input plus one is enough fuel. *)
Fixpoint matchAllFrom (fuel : nat) (r : regex) (pos : nat) (s : jsstring)
  : list rmatch :=
  match fuel with
  | O => []
  | S fuel' =>
      match execFrom r pos s with
      | None => []
      | Some m =>
          m :: (if Nat.eqb (endIndex m) (index m) then
                  match after m with
                  | [] => []
                  | _ :: t => matchAllFrom fuel' r (S (endIndex m)) t
                  end
                else matchAllFrom fuel' r (endIndex m) (after m))
      end
  end.

(** [[...s.matchAll(r)]] for a pattern object with the [g] flag whose
    [lastIndex] is [lastIndex]: [matchAll] works on a copy of the pattern
    that starts at the [lastIndex] of the original. *)
Definition matchAll (r : regex) (lastIndex : nat) (s : jsstring)
  : list rmatch :=
  if Nat.leb lastIndex (length s)
  then matchAllFrom (S (length s)) r lastIndex (skipn lastIndex s)
  else [].

(** The capture [m[i]] for [i >= 1]. *)
Definition group (m : rmatch) (i : nat) : jsstring :=
  nth (i - 1) (groups m) [].

End Regex.

Import Regex.

(* ================================================================== *)
(** ** Dates: the part of moment.js that the parser uses *)
(* ================================================================== *)

Module Moment.

(** Broken-down local time. Months count from 1. *)
Record fields : Type := Fields {
  year : nat;
  month : nat;
  day : nat;
  hour : nat;
  minute : nat
}.

(** A moment object is a valid local date-time or an invalid moment. *)
Inductive t : Type :=
| Valid (f : fields)
| Invalid.

(** A JavaScript [Date]: a time value or the invalid date. *)
Inductive jsdate : Type :=
| DateOf (f : fields)
| InvalidDate.

Definition isLeapYear (y : nat) : bool :=
  (Nat.eqb (y mod 4) 0 && negb (Nat.eqb (y mod 100) 0)) || Nat.eqb (y mod 400) 0.

Definition daysInMonth (y m : nat) : nat :=
  match m with
  | 2 => if isLeapYear y then 29 else 28
  | 4 | 6 | 9 | 11 => 30
  | _ => 31
  end.

Definition digitValue (c : char) : nat := N.to_nat (c - 48).

Fixpoint number (acc : nat) (s : jsstring) : nat :=
  match s with
  | [] => acc
  | c :: t => number (10 * acc + digitValue c) t
  end.

(** A day of the calendar, in a year of at most four digits. *)
Definition validDay (y m d : nat) : bool :=
  (y <? 100 * 100) && (1 <=? m) && (m <=? 12)
  && (1 <=? d) && (d <=? daysInMonth y m).

(** A broken-down time of such a day. *)
Definition wellFormed (f : fields) : bool :=
  (hour f <? 24) && (minute f <? 60)
  && validDay (year f) (month f) (day f).

(** What moment takes from outside the parser.

    [localMidnight y m d] is the local time that the platform's [Date]
    gives for 00:00 of the day [y]-[m]-[d]: the [Date] that moment makes
    with [new Date(y, m - 1, d)], read back in local time. It is that day
    at 00:00 wherever the time zone has this local time. Where a
    daylight-saving switch removes midnight, it is the end of the gap
    (01:00 of that day with a switch of one hour); where the zone skips
    the whole day, it is a time on the day after.

    [lenientParse s] is what the forgiving parser of
    [moment(s, 'YYYY-MM-DD')] answers for a text [s] that is not of the
    shape [dddd-dd-dd]. [extractDates] passes no such text, and nothing is
    assumed about the answer. *)
Class Env : Type := {
  localMidnight : nat -> nat -> nat -> fields;
  localMidnight_wellFormed :
    forall y m d,
      validDay y m d = true -> wellFormed (localMidnight y m d) = true;
  lenientParse : jsstring -> t
}.

(** [moment(s, 'YYYY-MM-DD')]. On a text of the shape [dddd-dd-dd], the
    only shape that [extractDates] passes: the local midnight of that
    day as the platform has it, invalid when the month or the day of the
    month is out of range. On any other text: the answer of the forgiving
    parser. *)
Definition parseYMD {env : Env} (s : jsstring) : t :=
  match s with
  | [y1; y2; y3; y4; s1; m1; m2; s2; d1; d2] =>
      if forallb isDigit [y1; y2; y3; y4; m1; m2; d1; d2]
         && char_eqb s1 (ch "-") && char_eqb s2 (ch "-")
      then
        let y := number 0 [y1; y2; y3; y4] in
        let m := number 0 [m1; m2] in
        let d := number 0 [d1; d2] in
        if (1 <=? m) && (m <=? 12) && (1 <=? d) && (d <=? daysInMonth y m)
        then Valid (localMidnight y m d)
        else Invalid
      else lenientParse s
  | _ => lenientParse s
  end.

(** [m.clone()]: a moment with the same value. *)
Definition clone (m : t) : t := m.

(** [m.toDate()]. *)
Definition toDate (m : t) : jsdate :=
  match m with
  | Valid f => DateOf f
  | Invalid => InvalidDate
  end.

(** Decimal rendering, zero-padded on the left to [width] digits. *)
Definition pad (width n : nat) : jsstring :=
  let digits := ofNat n in
  repeat (ch "0") (width - length digits) ++ digits.

(** [m.format('YYYYMMDDHHmm')]. *)
Definition formatYYYYMMDDHHmm (m : t) : jsstring :=
  match m with
  | Valid f =>
      pad 4 (year f) ++ pad 2 (month f) ++ pad 2 (day f)
        ++ pad 2 (hour f) ++ pad 2 (minute f)
  | Invalid => str "Invalid date"
  end.

End Moment.

(* ================================================================== *)
(** ** parser.ts: data model *)
(* ================================================================== *)

Inductive TaskStatus : Type :=
| Todo | Done | Cancelled | Forwarded | Deferred | InProgress | Question
| Important | Info | Bookmark | Pro | Con | Brainstorming | Example
| Quote | Note | Win | Lose | Add | Reviewed
| Unknown
| NotATask.

(** [STATUS_MAPPING]: a table from status characters to task statuses. *)
Definition STATUS_MAPPING : list (jsstring * TaskStatus) :=
  [ (str " ", Todo);
    (str "x", Done);
    (str "X", Done);
    (str "-", Cancelled);
    (str ">", Forwarded);
    (str "D", Deferred);
    (str "/", InProgress);
    (str "?", Question);
    (str "!", Important);
    (str "i", Info);
    (str "B", Bookmark);
    (str "P", Pro);
    (str "C", Con);
    (str "b", Brainstorming);
    (str "E", Example);
    (str "Q", Quote);
    (str "N", Note);
    (str "W", Win);
    (str "L", Lose);
    (str "+", Add);
    (str "R", Reviewed) ].

(** Property lookup [table[key]]. *)
Fixpoint lookup {A : Type} (table : list (jsstring * A)) (key : jsstring)
  : option A :=
  match table with
  | [] => None
  | (k, v) :: rest => if jseqb k key then Some v else lookup rest key
  end.

Record TimeInfo : Type := {
  hour : nat;
  minute : nat;
  second : option nat;
  isEndTime : option bool
}.

(** The literal type ['date'] of [DateInfo.type]. *)
Inductive DateType : Type := TypeDate.

Definition DateType_eqb (a b : DateType) : bool := true.

Record DateInfo : Type := {
  date : jsstring;
  moment : Moment.t;
  type : DateType;
  rawMatch : option jsstring
}.

Record ParsedLine : Type := {
  originalLine : jsstring;
  content : jsstring;
  indentation : jsstring;
  isTask : bool;
  taskStatus : option TaskStatus;
  statusCharacter : option jsstring;
  startTime : option TimeInfo;
  endTime : option TimeInfo;
  dates : list DateInfo;
  hasRecurrence : bool;
  recurrenceRule : option jsstring;
  blockLink : option jsstring;
  isListItem : bool;
  listMarker : jsstring
}.

Record ListEntry : Type := {
  header : jsstring;
  body : jsstring
}.

Module Model.

(** [Model.Event]. The optional properties are options. *)
Record Event : Type := {
  id : jsstring;
  title : jsstring;
  start : Moment.jsdate;
  end_ : Moment.jsdate;
  allDay : bool;
  eventType : jsstring;
  path : option jsstring;
  blockLink : option jsstring
}.

End Model.

(** Outcome of a call that may throw. *)
Inductive completion (A : Type) : Type :=
| Normal (value : A)
| Throw (error : jsstring).

Arguments Normal {A} value.
Arguments Throw {A} error.

(* ================================================================== *)
(** ** parser.ts: patterns *)
(* ================================================================== *)

(** A sequence of pattern terms. *)
Definition Cat (rs : list regex) : regex := fold_right Seq Eps rs.

Module PATTERNS.

(** The list marker "(-|\*|\+|\d+\.)". *)
Definition marker : regex :=
  Alt (Chr (ch "-"))
      (Alt (Chr (ch "*"))
           (Alt (Chr (ch "+")) (Seq (Plus isDigit) (Chr (ch "."))))).

(** The literal, its terms set apart:
    "^  ( \s* )  ( - | \* | \+ | \d+\. )  \s+  ( .* )  $" *)
Definition LIST_ITEM : regex :=
  Cat [Bol; Group (Star isSpace); Group marker; Plus isSpace;
       Group (Star isDot); Eol].

(** The literal, its terms set apart:
    "^  ( \s* )  ( - | \* | \+ | \d+\. )  \s+  \[  ( . )  \]  \s+  ( .* )  $" *)
Definition TASK : regex :=
  Cat [Bol; Group (Star isSpace); Group marker; Plus isSpace;
       Chr (ch "["); Group (Cls isDot); Chr (ch "]"); Plus isSpace;
       Group (Star isDot); Eol].

(** "/\s?@{(\d{4}-\d{2}-\d{2})}/g" *)
Definition DUE_DATE : regex :=
  Cat [Opt (Cls isSpace); Chr (ch "@"); Chr (ch "{");
       Group (Cat [Repeat 4 isDigit; Chr (ch "-"); Repeat 2 isDigit;
                   Chr (ch "-"); Repeat 2 isDigit]);
       Chr (ch "}")].

End PATTERNS.

(** The patterns written in place in [getEventsFromFile]. *)

(** "/^\s*-\s+\[.\]/" *)
Definition CHECKLIST : regex :=
  Cat [Bol; Star isSpace; Chr (ch "-"); Plus isSpace;
       Chr (ch "["); Cls isDot; Chr (ch "]")].

(** "/^\s*-\s+\[.\]\s*/" *)
Definition CHECKLIST_PREFIX : regex :=
  Cat [Bol; Star isSpace; Chr (ch "-"); Plus isSpace;
       Chr (ch "["); Cls isDot; Chr (ch "]"); Star isSpace].

(** "/^\s+/" *)
Definition INDENTED : regex := Cat [Bol; Plus isSpace].

(* ================================================================== *)
(** ** parser.ts: functions *)
(* ================================================================== *)

Section Parser.

(** [PATTERNS.DUE_DATE] is one shared pattern object with the [g] flag, so
    it carries a [lastIndex]; [test] calls on it (as in [lineContainsTime])
    move that index. [dueDateLastIndex] is its value when the extraction
    runs. The extraction itself only reads it: [matchAll] works on a copy
    of the pattern. It is [0] unless an earlier [test] left it elsewhere. *)
Variable dueDateLastIndex : nat.

(** The time zone of the platform and the rest of what moment takes from
    outside. *)
Context {env : Moment.Env}.

Definition extractDates (line : jsstring) : list DateInfo :=
  let dueDateMatches := matchAll PATTERNS.DUE_DATE dueDateLastIndex line in
  map (fun m =>
         {| date := group m 1;
            moment := Moment.parseYMD (group m 1);
            type := TypeDate;
            rawMatch := Some (matched m) |})
      dueDateMatches.

(** The loop of [cleanContent] over the dates. *)
Fixpoint removeDates (result : jsstring) (ds : list DateInfo) : jsstring :=
  match ds with
  | [] => result
  | d :: ds' =>
      removeDates
        (match rawMatch d with
         | Some raw => if truthy raw then replaceString raw [] result
                       else result
         | None => result
         end)
        ds'
  end.

Definition cleanContent (content : jsstring) (dates : list DateInfo)
  : jsstring :=
  trim (removeDates content dates).

Definition parseLine (line : ListEntry) : ParsedLine :=
  let result :=
    {| originalLine := header line ++ body line;
       content := if Nat.eqb (length (header line)) 0
                  then body line else header line;
       indentation := [];
       isTask := false;
       taskStatus := None;
       statusCharacter := None;
       startTime := None;
       endTime := None;
       dates := [];
       hasRecurrence := false;
       recurrenceRule := None;
       blockLink := None;
       isListItem := false;
       listMarker := [] |} in
  let dates' := extractDates (body line) in
  {| originalLine := originalLine result;
     content := cleanContent (content result) dates';
     indentation := indentation result;
     isTask := isTask result;
     taskStatus := taskStatus result;
     statusCharacter := statusCharacter result;
     startTime := startTime result;
     endTime := endTime result;
     dates := dates';
     hasRecurrence := hasRecurrence result;
     recurrenceRule := recurrenceRule result;
     blockLink := blockLink result;
     isListItem := isListItem result;
     listMarker := listMarker result |}.

(** [convertToEvent]. Reading [dates[0].moment] of an empty array would
    throw a [TypeError]; that is the [Throw] branch. The local [dueDate],
    a third clone that is never read, is left out. *)
Definition convertToEvent (parsedLine : ParsedLine) (lineIndex : nat)
           (path : jsstring) : completion (option Model.Event) :=
  let hasDate :=
    existsb (fun d => DateType_eqb (type d) TypeDate) (dates parsedLine) in
  if negb hasDate then Normal None
  else
    match nth_error (dates parsedLine) 0 with
    | None => Throw (str "TypeError")
    | Some d0 =>
        let startDate := Moment.clone (moment d0) in
        let endDate := Moment.clone (moment d0) in
        let allDay := true in
        let id :=
          Moment.formatYYYYMMDDHHmm startDate ++ str "00" ++ ofNat lineIndex in
        let eventType := str "default" in
        Normal (Some
          {| Model.id := id;
             Model.title := content parsedLine;
             Model.start := Moment.toDate startDate;
             Model.end_ := Moment.toDate endDate;
             Model.allDay := allDay;
             Model.eventType := eventType;
             Model.path := Some path;
             Model.blockLink :=
               if truthyOpt (blockLink parsedLine)
               then blockLink parsedLine else None |})
    end.

(** [getMarkBasedOnEvent]; [None] is [null]. *)
Definition getMarkBasedOnEvent (eventType : jsstring) : option jsstring :=
  if negb (truthy eventType) || negb (startsWith eventType (str "TASK-"))
  then None
  else
    let taskType := nth 1 (splitOn (ch "-") eventType) [] in
    if jseqb taskType (str "TODO") then Some (str " ")
    else if jseqb taskType (str "DONE") then Some (str "x")
    else if jseqb taskType (str "CANCELLED") then Some (str "-")
    else if jseqb taskType (str "IN_PROGRESS") then Some (str "/")
    else if jseqb taskType (str "IMPORTANT") then Some (str "!")
    else if jseqb taskType (str "QUESTION") then Some (str "?")
    else if jseqb taskType (str "REVIEW") then Some (str ">")
    else if jseqb taskType (str "IDEA") then Some (str "i")
    else if jseqb taskType (str "PRO") then Some (str "+")
    else if jseqb taskType (str "CON") then Some (str "-")
    else if jseqb taskType (str "BRAINSTORMING") then Some (str "b")
    else if jseqb taskType (str "EXAMPLE") then Some (str "e")
    else if jseqb taskType (str "QUOTE") then Some (str "q")
    else if jseqb taskType (str "NOTE") then Some (str "n")
    else if jseqb taskType (str "WIN") then Some (str "w")
    else if jseqb taskType (str "LOSE") then Some (str "l")
    else Some (str " ").

(* ================================================================== *)
(** ** The extraction loop of [getEventsFromFile] *)
(* ================================================================== *)

(** What the loop writes: the local [result], the caller's [events] array
    (when one is passed) and the notices shown for caught errors. *)
Record Output : Type := {
  result : list Model.Event;
  events : option (list Model.Event);
  notices : list jsstring
}.

(** The [try] block around [convertToEvent], shared by both branches; they
    differ in the text of the notice. *)
Definition pushEvent (noticePrefix : jsstring)
           (c : completion (option Model.Event)) (out : Output) : Output :=
  match c with
  | Normal (Some event) =>
      {| result := result out ++ [event];
         events := option_map (fun es => es ++ [event]) (events out);
         notices := notices out |}
  | Normal None => out
  | Throw error =>
      {| result := result out;
         events := events out;
         notices := notices out ++ [noticePrefix ++ error] |}
  end.

Definition isChecklistLine (line : jsstring) : bool := test CHECKLIST line.

(** The line is a body line: it starts with white space and is not a
    checklist line. *)
Definition isBodyLine (line : jsstring) : bool :=
  test INDENTED line && negb (test CHECKLIST line).

(** The inner loop: [rest] is [fileLines] from [nextIndex] on. Returns
    [bodyLines] and the final [nextIndex]. *)
Fixpoint collectBody (rest : list jsstring) (nextIndex : nat)
         (bodyLines : list jsstring) : list jsstring * nat :=
  match rest with
  | l :: rest' =>
      if isBodyLine l
      then collectBody rest' (S nextIndex) (bodyLines ++ [trim l])
      else (bodyLines, nextIndex)
  | [] => (bodyLines, nextIndex)
  end.

(** The list entry read at a checklist line, and the index after it. *)
Definition readListEntry (fileLines : list jsstring) (currentIndex : nat)
           (line : jsstring) : ListEntry * nat :=
  let header := trim (replace CHECKLIST_PREFIX [] line) in
  let '(bodyLines, nextIndex) :=
    collectBody (skipn (currentIndex + 1) fileLines) (currentIndex + 1) [] in
  ({| header := header; body := join newline bodyLines |},
   nextIndex).

(** The outer [while] loop. Every round moves [currentIndex] forward, so
    [length fileLines] rounds are enough. *)
Fixpoint eventsLoop (fuel : nat) (path : jsstring) (fileLines : list jsstring)
         (currentIndex : nat) (out : Output) : Output :=
  match fuel with
  | O => out
  | S fuel' =>
      match nth_error fileLines currentIndex with
      | None => out
      | Some line =>
          if isChecklistLine line then
            let '(listEntry, nextIndex) :=
              readListEntry fileLines currentIndex line in
            let parsedLine := parseLine listEntry in
            let out' :=
              pushEvent (str "Got error when converting list to event: ")
                        (convertToEvent parsedLine currentIndex path) out in
            eventsLoop fuel' path fileLines nextIndex out'
          else
            let parsedLine := parseLine {| header := []; body := line |} in
            let out' :=
              pushEvent (str "Got error when converting line to event: ")
                        (convertToEvent parsedLine currentIndex path) out in
            eventsLoop fuel' path fileLines (S currentIndex) out'
      end
  end.

(** [getEventsFromFile] on a note with path [path] whose lines
    ([getAllLinesFromFile] of the contents read from the vault) are
    [fileLines]; [events] is the array of the caller, [None] when the
    caller passes none. The call without a note, which returns the empty
    array, reads nothing and is not modelled. *)
Definition getEventsFromFile (path : jsstring) (fileLines : list jsstring)
           (events : option (list Model.Event)) : Output :=
  eventsLoop (length fileLines) path fileLines 0
             {| result := []; events := events; notices := [] |}.

(** The entries that the loop reads, each with the index of its first
    line: the same loop, recording the entry instead of the event. *)
Fixpoint entriesLoop (fuel : nat) (fileLines : list jsstring)
         (currentIndex : nat) : list (nat * ListEntry) :=
  match fuel with
  | O => []
  | S fuel' =>
      match nth_error fileLines currentIndex with
      | None => []
      | Some line =>
          if isChecklistLine line then
            let '(listEntry, nextIndex) :=
              readListEntry fileLines currentIndex line in
            (currentIndex, listEntry) :: entriesLoop fuel' fileLines nextIndex
          else
            (currentIndex, {| header := []; body := line |})
              :: entriesLoop fuel' fileLines (S currentIndex)
      end
  end.

Definition lineGrouper (fileLines : list jsstring) : list (nat * ListEntry) :=
  entriesLoop (length fileLines) fileLines 0.

End Parser.

(* ================================================================== *)
(** ** The filter predicate [eventMatchesFilter] *)
(* ================================================================== *)

(** The [RegExp] constructor of the platform on a pattern text chosen by
    the user: [compile] is [new RegExp(source)], [None] when it throws a
    [SyntaxError]; [regexTest] is [regex.test(text)] on a fresh object. *)
Class RegExpEngine : Type := {
  RegExp : Type;
  compile : jsstring -> option RegExp;
  regexTest : RegExp -> jsstring -> bool
}.

Module Filter.

(** The query of the location service; all its properties are optional. *)
Record Query : Type := {
  eventType : option jsstring;
  contentRegex : option jsstring;
  folderPaths : option (list jsstring)
}.

Section Predicate.

Context {engine : RegExpEngine}.

(** [filter.eventType && event.eventType !== filter.eventType] *)
Definition rejectedByType (event : Model.Event) (filter : Query) : bool :=
  match eventType filter with
  | Some wanted => truthy wanted && negb (jseqb (Model.eventType event) wanted)
  | None => false
  end.

(** The [contentRegex] block: the [catch] logs and goes on. *)
Definition rejectedByContent (event : Model.Event) (filter : Query) : bool :=
  match contentRegex filter with
  | Some source =>
      if truthy source then
        match compile source with
        | Some regex => negb (regexTest regex (Model.title event))
        | None => false
        end
      else false
  | None => false
  end.

(** The [folderPaths] block. *)
Definition rejectedByFolder (event : Model.Event) (filter : Query) : bool :=
  match folderPaths filter, Model.path event with
  | Some folders, Some path =>
      if Nat.ltb 0 (length folders) && truthy path then
        let matchesAnyFolder :=
          existsb (fun folderPath => startsWith path folderPath) folders in
        negb matchesAnyFolder
      else false
  | _, _ => false
  end.

Definition eventMatchesFilter (event : Model.Event) (filter : Query) : bool :=
  if rejectedByType event filter then false
  else if rejectedByContent event filter then false
  else if rejectedByFolder event filter then false
  else true.

(** The query without its [contentRegex] constraint. *)
Definition withoutContentRegex (filter : Query) : Query :=
  {| eventType := eventType filter;
     contentRegex := None;
     folderPaths := folderPaths filter |}.

End Predicate.

End Filter.

(** An engine for pattern texts made of letters, digits and spaces, which
    stand for themselves; it refuses every other text, among them the
    unterminated group ["("]. It serves the examples. *)
Definition isPlainChar (c : char) : bool :=
  isDigit c || (N.leb 65 c && N.leb c 90) || (N.leb 97 c && N.leb c 122)
  || N.eqb c 32.

#[local] Instance plainEngine : RegExpEngine := {|
  RegExp := regex;
  compile := fun source =>
    if forallb isPlainChar source then Some (Lit source) else None;
  regexTest := Regex.test
|}.

(* ================================================================== *)
(** * Vocabulary of the properties and sample notes *)
(* ================================================================== *)


(** A date at local midnight, or the invalid date. *)
Definition atMidnight (d : Moment.jsdate) : Prop :=
  match d with
  | Moment.DateOf f => Moment.hour f = 0 /\ Moment.minute f = 0
  | Moment.InvalidDate => True
  end.

(** A date at day granularity: what the platform makes of 00:00 of a day
    of the calendar, or the invalid date that a day out of the calendar
    gives. It carries a day and no time of day of its own. *)
Definition atDayGranularity {env : Moment.Env} (d : Moment.jsdate) : Prop :=
  match d with
  | Moment.DateOf f =>
      exists y m d',
        Moment.validDay y m d' = true /\ f = Moment.localMidnight y m d'
  | Moment.InvalidDate => True
  end.

(** A time zone in which every day starts at midnight, UTC for one. No
    sample note holds a date text of another shape than [dddd-dd-dd]. *)
Definition plainZone : Moment.Env :=
  {| Moment.localMidnight := fun y m d => Moment.Fields y m d 0 0;
     Moment.localMidnight_wellFormed := fun _ _ _ H => H;
     Moment.lenientParse := fun _ => Moment.Invalid |}.

(** A time zone whose clocks go from 24:00 on 2024-09-07 to 01:00 on
    2024-09-08, as in America/Santiago: that day has no midnight. *)
Definition gapZone : Moment.Env :=
  {| Moment.localMidnight := fun y m d =>
       if Nat.eqb y 2024 && Nat.eqb m 9 && Nat.eqb d 8
       then Moment.Fields 2024 9 8 1 0
       else Moment.Fields y m d 0 0;
     Moment.localMidnight_wellFormed := fun y m d =>
       match Nat.eqb y 2024 && Nat.eqb m 9 && Nat.eqb d 8 as b
         return (Moment.validDay y m d = true ->
                 Moment.wellFormed
                   (if b then Moment.Fields 2024 9 8 1 0
                    else Moment.Fields y m d 0 0) = true)
       with
       | true => fun _ => eq_refl
       | false => fun H => H
       end;
     Moment.lenientParse := fun _ => Moment.Invalid |}.

(** The text holds no ["@"], so no due-date annotation. *)
Definition noAt (s : jsstring) : bool :=
  forallb (fun c => negb (char_eqb c (ch "@"))) s.

(** The kinds that [getMarkBasedOnEvent] lists. *)
Definition recognizedKinds : list jsstring :=
  map str [ "TODO"; "DONE"; "CANCELLED"; "IN_PROGRESS"; "IMPORTANT";
            "QUESTION"; "REVIEW"; "IDEA"; "PRO"; "CON"; "BRAINSTORMING";
            "EXAMPLE"; "QUOTE"; "NOTE"; "WIN"; "LOSE" ]%string.

(** The kind of a label: the text between its first and second ["-"]. *)
Definition kindOf (eventType : jsstring) : jsstring :=
  nth 1 (splitOn (ch "-") eventType) [].

(** The entry read at index [i], whose line is [line], and the index at
    which the loop goes on. *)
Definition entryAt (fileLines : list jsstring) (i : nat) (line : jsstring)
  : ListEntry :=
  if isChecklistLine line then fst (readListEntry fileLines i line)
  else {| header := []; body := line |}.

Definition nextAt (fileLines : list jsstring) (i : nat) (line : jsstring)
  : nat :=
  if isChecklistLine line then snd (readListEntry fileLines i line)
  else S i.

(** The entries from index [i] on. *)
Definition entriesFrom (fileLines : list jsstring) (i : nat)
  : list (nat * ListEntry) :=
  entriesLoop (length fileLines - i) fileLines i.

(** The events are the events of the entries, in the order of the loop. *)
Definition eventsOf {env : Moment.Env} (lastIndex : nat) (path : jsstring)
           (entry : nat * ListEntry) : list Model.Event :=
  match convertToEvent (parseLine lastIndex (snd entry)) (fst entry) path with
  | Normal (Some event) => [event]
  | _ => []
  end.

(** [st'] is a state further in the same input than [st]: captures are
    only ever added, and the index moves forward by what was consumed. *)
Definition advances (st st' : mstate) : Prop :=
  (exists ext, mcaps st' = mcaps st ++ ext)
  /\ mpos st <= mpos st'
  /\ mpos st' + length (mrest st') = mpos st + length (mrest st).

(** The checklist pattern, read from left to right without giving back. *)
Definition checklistShape (line : jsstring) : bool :=
  match dropWhile isSpace line with
  | x :: x0 :: t0 =>
      char_eqb x (ch "-") && isSpace x0
      && match dropWhile isSpace t0 with
         | x1 :: x2 :: x3 :: _ =>
             char_eqb x1 (ch "[") && isDot x2 && char_eqb x3 (ch "]")
         | _ => false
         end
  | _ => false
  end.

(** Local midnight of a day, as a [Date]. *)
Definition midnight (y m d : nat) : Moment.jsdate :=
  Moment.DateOf (Moment.Fields y m d 0 0).

Definition todoPath : jsstring := str "notes/todo.md".

(** The checklist line with the annotation in the line itself. *)
Definition buyMilkLine : jsstring := str "- [ ] Buy milk @{2024-03-01}".

(** A note with that line at index 2 and nothing else. *)
Definition buyMilkNote : list jsstring := [[]; []; buyMilkLine].

(** The same task with the annotation on an indented line below it. *)
Definition buyMilkNoteBody : list jsstring :=
  [[]; []; str "- [ ] Buy milk"; str "  @{2024-03-01}"].

Definition buyMilkEvent : Model.Event :=
  {| Model.id := str "202403010000002";
     Model.title := str "Buy milk";
     Model.start := midnight 2024 3 1;
     Model.end_ := midnight 2024 3 1;
     Model.allDay := true;
     Model.eventType := str "default";
     Model.path := Some todoPath;
     Model.blockLink := None |}.

(** A parsed entry with two dates, and its event at line 7. *)
Definition twoDatesEntry : ListEntry :=
  {| header := str "Call";
     body := str "@{2024-03-01} or @{2024-03-05}" |}.

Definition callEvent : Model.Event :=
  {| Model.id := str "202403010000007";
     Model.title := str "Call";
     Model.start := midnight 2024 3 1;
     Model.end_ := midnight 2024 3 1;
     Model.allDay := true;
     Model.eventType := str "default";
     Model.path := Some todoPath;
     Model.blockLink := None |}.



(** A note with an annotation for the day without midnight of [gapZone],
    and its event there. *)
Definition gapDayNote : list jsstring := [[]; str "x @{2024-09-08}"].

Definition gapDayEvent : Model.Event :=
  {| Model.id := str "202409080100001";
     Model.title := str "x";
     Model.start := Moment.DateOf (Moment.Fields 2024 9 8 1 0);
     Model.end_ := Moment.DateOf (Moment.Fields 2024 9 8 1 0);
     Model.allDay := true;
     Model.eventType := str "default";
     Model.path := Some todoPath;
     Model.blockLink := None |}.

(** A checklist line with a body line and, below it, an indented line
    with the marker ["*"]. *)
Definition childNote : list jsstring :=
  [str "- [ ] Parent"; str "  soon"; str "  * [ ] Child @{2024-03-01}"].

(** A checklist line, one indented line, one line that is not indented. *)
Definition boundaryNote : list jsstring :=
  [str "- [ ] Task"; str "  due @{2024-04-10}"; str "Next line"].

(** A query whose [contentRegex] is the unterminated group ["("]. *)
Definition badRegexQuery : Filter.Query :=
  {| Filter.eventType := None;
     Filter.contentRegex := Some (str "(");
     Filter.folderPaths := Some [str "notes/"] |}.

Definition starNote : list jsstring :=
  [str "Shopping"; str "* [ ] Buy @{2024-03-01}"].

Definition starMatch : rmatch :=
  {| index := 0;
     matched := str "* [ ] Buy @{2024-03-01}";
     groups := [[]; str "*"; str " "; str "Buy @{2024-03-01}"];
     endIndex := 23;
     after := [] |}.

(* ================================================================== *)
(** * Further code and the vocabulary of its properties *)
(* ================================================================== *)

(** The text neither starts nor ends with white space. *)
Definition isTrimmed (s : jsstring) : bool :=
  match s with
  | [] => true
  | c :: _ => negb (isSpace c) && negb (isSpace (last s c))
  end.

(** [s.includes(t)]: [t] occurs in [s]. *)
Fixpoint includes (s t : jsstring) : bool :=
  startsWith s t || match s with
                    | [] => false
                    | _ :: s' => includes s' t
                    end.

(** The ten digits. *)
Definition digitChars : list char := map N.of_nat (seq 48 10).

(** A date text without its dashes. *)
Definition withoutDashes (s : jsstring) : jsstring :=
  filter (fun c => negb (char_eqb c (ch "-"))) s.

(** [m.isValid()]. *)
Definition momentIsValid (m : Moment.t) : bool :=
  match m with
  | Moment.Valid _ => true
  | Moment.Invalid => false
  end.

(** The pattern holds no ["^"]. *)
Fixpoint noBol (r : regex) : bool :=
  match r with
  | Bol => false
  | Seq r1 r2 | Alt r1 r2 => noBol r1 && noBol r2
  | Opt r1 | Group r1 => noBol r1
  | _ => true
  end.

(** A matcher state and a match, moved [d] places to the right. *)
Definition shiftState (d : nat) (st : mstate) : mstate :=
  MState (mpos st + d) (mrest st) (mcaps st).

Definition shiftMatch (d : nat) (m : rmatch) : rmatch :=
  RMatch (index m + d) (matched m) (groups m) (endIndex m + d) (after m).

(** The text of a date: four digits, two digits, two digits, with a dash
    between them. *)
Definition isDateText (s : jsstring) : bool :=
  match s with
  | [y1; y2; y3; y4; s1; m1; m2; s2; d1; d2] =>
      forallb isDigit [y1; y2; y3; y4; m1; m2; d1; d2]
      && char_eqb s1 (ch "-") && char_eqb s2 (ch "-")
  | _ => false
  end.

(** The date pattern after its optional white space: ["@{"], the date
    text in a group, ["}"]. *)
Definition DUE_DATE_annotation : regex :=
  Cat [Chr (ch "@"); Chr (ch "{");
       Group (Cat [Repeat 4 isDigit; Chr (ch "-"); Repeat 2 isDigit;
                   Chr (ch "-"); Repeat 2 isDigit]);
       Chr (ch "}")].

(** The query with one constraint only. *)
Definition onlyType (filter : Filter.Query) : Filter.Query :=
  {| Filter.eventType := Filter.eventType filter;
     Filter.contentRegex := None;
     Filter.folderPaths := None |}.

Definition onlyContent (filter : Filter.Query) : Filter.Query :=
  {| Filter.eventType := None;
     Filter.contentRegex := Filter.contentRegex filter;
     Filter.folderPaths := None |}.

Definition onlyFolders (filter : Filter.Query) : Filter.Query :=
  {| Filter.eventType := None;
     Filter.contentRegex := None;
     Filter.folderPaths := Filter.folderPaths filter |}.

(** Every constraint of the query is absent or falsy: no value, the empty
    text, the empty list of folders. *)
Definition isBlankQuery (filter : Filter.Query) : bool :=
  negb (truthyOpt (Filter.eventType filter))
  && negb (truthyOpt (Filter.contentRegex filter))
  && match Filter.folderPaths filter with
     | Some (_ :: _) => false
     | _ => true
     end.

(** The label holds no ["-"]. *)
Definition noDash (s : jsstring) : bool :=
  forallb (fun c => negb (char_eqb c (ch "-"))) s.

(** ** [lineContainsTime] and the cursors of the shared patterns *)

(** The patterns of [PATTERNS] that [lineContainsTime] tests besides
    [DUE_DATE] and [TASK]. Only [test] is called on them, so the numbers
    of their groups play no part. The characters outside ASCII are the
    code units that the source file holds. *)
Module TIME_PATTERNS.

(** The hour, minute and optional second: "(\d{1,2}):(\d{2})(?::(\d{2}))?" *)
Definition clock : regex :=
  Cat [Group (Seq (Cls isDigit) (Opt (Cls isDigit)));
       Chr (ch ":");
       Group (Repeat 2 isDigit);
       Opt (Seq (Chr (ch ":")) (Group (Repeat 2 isDigit)))].

(** "/(\d{1,2}):(\d{2})(?::(\d{2}))?/g" *)
Definition TIME_STANDARD : regex := clock.

(** "/<time>(\d{1,2}):(\d{2})(?::(\d{2}))?<\/time>/g" *)
Definition TIME_WITH_TAG : regex :=
  Cat [Lit (str "<time>"); clock; Lit (str "</time>")].

(** The mark of an end time, two code units in the source file. *)
Definition endTimeMark : jsstring := [226%N; 178%N].

(** The mark, then "\s?(\d{1,2}):(\d{2})(?::(\d{2}))?", with the flag g. *)
Definition END_TIME : regex :=
  Cat [Lit endTimeMark; Opt (Cls isSpace); clock].

(** The two calendar marks of [_DUE_DATE], four code units each in the
    source file. *)
Definition calendarMark1 : jsstring := [240%N; 376%N; 8220%N; 8230%N].
Definition calendarMark2 : jsstring := [240%N; 376%N; 8220%N; 8224%N].

(** "\s", one of the two marks or "(@{)" or "(\[due::)", "\s?", the date
    "(\d{4}-\d{2}-\d{2})", "(\])?", with the flag g. *)
Definition _DUE_DATE : regex :=
  Cat [Cls isSpace;
       Group (Alt (Lit calendarMark1)
                  (Alt (Lit calendarMark2)
                       (Alt (Group (Lit (str "@{")))
                            (Group (Lit (str "[due::"))))));
       Opt (Cls isSpace);
       Group (Cat [Repeat 4 isDigit; Chr (ch "-"); Repeat 2 isDigit;
                   Chr (ch "-"); Repeat 2 isDigit]);
       Opt (Group (Chr (ch "]")))].

End TIME_PATTERNS.

(** The [lastIndex] of each pattern object with the flag [g] that
    [lineContainsTime] tests. *)
Record Cursors : Type := {
  atTIME_STANDARD : nat;
  atTIME_WITH_TAG : nat;
  atDUE_DATE : nat;
  at_DUE_DATE : nat;
  atEND_TIME : nat
}.

(** All the cursors at 0, as when the module is loaded. *)
Definition freshCursors : Cursors :=
  {| atTIME_STANDARD := 0; atTIME_WITH_TAG := 0; atDUE_DATE := 0;
     at_DUE_DATE := 0; atEND_TIME := 0 |}.

(** [r.test(s)] on a pattern object with the flag [g] whose [lastIndex]
    is [lastIndex]: the search starts there; a match leaves [lastIndex]
    at its end, a failure leaves it at 0. Returns the answer and the new
    [lastIndex]. *)
Definition testGlobal (r : regex) (lastIndex : nat) (s : jsstring)
  : bool * nat :=
  if Nat.leb lastIndex (length s) then
    match execFrom r lastIndex (skipn lastIndex s) with
    | Some m => (true, endIndex m)
    | None => (false, 0)
    end
  else (false, 0).

(** [lineContainsTime]: the tests from left to right, each one run only
    when those before it failed. Returns the answer and the cursors that
    the call leaves. *)
Definition lineContainsTime (cursors : Cursors) (line : jsstring)
  : bool * Cursors :=
  let '(b1, i1) :=
    testGlobal TIME_PATTERNS.TIME_STANDARD (atTIME_STANDARD cursors) line in
  let c1 :=
    {| atTIME_STANDARD := i1;
       atTIME_WITH_TAG := atTIME_WITH_TAG cursors;
       atDUE_DATE := atDUE_DATE cursors;
       at_DUE_DATE := at_DUE_DATE cursors;
       atEND_TIME := atEND_TIME cursors |} in
  if b1 then (true, c1) else
  let '(b2, i2) :=
    testGlobal TIME_PATTERNS.TIME_WITH_TAG (atTIME_WITH_TAG c1) line in
  let c2 :=
    {| atTIME_STANDARD := atTIME_STANDARD c1;
       atTIME_WITH_TAG := i2;
       atDUE_DATE := atDUE_DATE c1;
       at_DUE_DATE := at_DUE_DATE c1;
       atEND_TIME := atEND_TIME c1 |} in
  if b2 then (true, c2) else
  let '(b3, i3) := testGlobal PATTERNS.DUE_DATE (atDUE_DATE c2) line in
  let c3 :=
    {| atTIME_STANDARD := atTIME_STANDARD c2;
       atTIME_WITH_TAG := atTIME_WITH_TAG c2;
       atDUE_DATE := i3;
       at_DUE_DATE := at_DUE_DATE c2;
       atEND_TIME := atEND_TIME c2 |} in
  if b3 then (true, c3) else
  let '(b4, i4) := testGlobal TIME_PATTERNS._DUE_DATE (at_DUE_DATE c3) line in
  let c4 :=
    {| atTIME_STANDARD := atTIME_STANDARD c3;
       atTIME_WITH_TAG := atTIME_WITH_TAG c3;
       atDUE_DATE := atDUE_DATE c3;
       at_DUE_DATE := i4;
       atEND_TIME := atEND_TIME c3 |} in
  if b4 then (true, c4) else
  let '(b5, i5) := testGlobal TIME_PATTERNS.END_TIME (atEND_TIME c4) line in
  let c5 :=
    {| atTIME_STANDARD := atTIME_STANDARD c4;
       atTIME_WITH_TAG := atTIME_WITH_TAG c4;
       atDUE_DATE := atDUE_DATE c4;
       at_DUE_DATE := at_DUE_DATE c4;
       atEND_TIME := i5 |} in
  if b5 then (true, c5) else
  (test PATTERNS.TASK line, c5).

(** The text holds no [":"]. *)
Definition noColon (s : jsstring) : bool :=
  forallb (fun c => negb (char_eqb c (ch ":"))) s.

(** ** [getEvents] and [fileHasMatchingMetadata] *)

(** A markdown file of the vault: its path and the lines of its text. *)
Record TFile : Type := {
  notePath : jsstring;
  noteLines : list jsstring
}.

(** [getEvents] over the markdown files of the vault, in their order:
    each file is read with a new, empty [events] array and its events are
    pushed to [allEvents]. The date pattern keeps its cursor from file to
    file, since the extraction does not move it. *)
Definition getEvents {env : Moment.Env} (lastIndex : nat)
           (allFiles : list TFile)
  : list Model.Event :=
  flat_map
    (fun file =>
       result (getEventsFromFile lastIndex (notePath file) (noteLines file)
                                 (Some [])))
    allFiles.

(** The event with another path. *)
Definition withPath (path : jsstring) (event : Model.Event) : Model.Event :=
  {| Model.id := Model.id event;
     Model.title := Model.title event;
     Model.start := Model.start event;
     Model.end_ := Model.end_ event;
     Model.allDay := Model.allDay event;
     Model.eventType := Model.eventType event;
     Model.path := Some path;
     Model.blockLink := Model.blockLink event |}.

(** A value of the frontmatter: a text, or a value of another type. *)
Inductive FrontmatterValue : Type :=
| FMText (s : jsstring)
| FMOther.

(** The frontmatter of a file, a plain object: its own properties. *)
Definition Frontmatter := list (jsstring * FrontmatterValue).

(** [Object.prototype.hasOwnProperty.call(frontmatter, key)] *)
Definition hasOwnProperty (frontmatter : Frontmatter) (key : jsstring)
  : bool :=
  match lookup frontmatter key with Some _ => true | None => false end.

(** [frontmatter[key] !== value] for a text [value]: the property is
    strictly equal to [value] only when it is an own property holding that
    text (what the prototype gives for other keys is no text). *)
Definition differsFrom (frontmatter : Frontmatter) (key value : jsstring)
  : bool :=
  match lookup frontmatter key with
  | Some (FMText s) => negb (jseqb s value)
  | _ => true
  end.

(** The loop over [Object.entries(metadataValues)]: [false] at the first
    pair that differs. *)
Fixpoint allValuesMatch (frontmatter : Frontmatter)
         (entries : list (jsstring * jsstring)) : bool :=
  match entries with
  | [] => true
  | (key, value) :: rest =>
      if differsFrom frontmatter key value then false
      else allValuesMatch frontmatter rest
  end.

(** [fileHasMatchingMetadata]. [frontmatter] is the frontmatter of the
    file in the metadata cache, [None] when the file has no cache entry or
    no frontmatter; [metadataValues] is given by its entries. *)
Definition fileHasMatchingMetadata (frontmatter : option Frontmatter)
           (metadataKeys : list jsstring)
           (metadataValues : list (jsstring * jsstring)) : bool :=
  match frontmatter with
  | None => false
  | Some fm =>
      if Nat.ltb 0 (length metadataKeys)
         && existsb (fun key => negb (hasOwnProperty fm key)) metadataKeys
      then false
      else if Nat.ltb 0 (length metadataValues)
              && negb (allValuesMatch fm metadataValues)
      then false
      else true
  end.

(** ** [lineContainsParseBelowToken] *)

(** The class of the characters that the function escapes:
    ". ? * + ^ $ [ ] \ ( ) { } | -". *)
Definition isEscaped (c : char) : bool :=
  existsb (char_eqb c)
          (map ch [ "."; "?"; "*"; "+"; "^"; "$"; "["; "]"; "\"; "(";
                    ")"; "{"; "}"; "|"; "-" ]%char).

(** The replacement of every character of that class by a backslash and
    the character: the [replace] with the flag [g] and ['\\$1']; the
    matches of the class are single characters. *)
Definition escapeToken (token : jsstring) : jsstring :=
  flat_map (fun c => if isEscaped c then [ch "\"; c] else [c]) token.

(** [lineContainsParseBelowToken(line, settings)], where [token] is
    [settings.ProcessEntriesBelow]. The [catch] answers [false]. *)
Definition lineContainsParseBelowToken {engine : RegExpEngine}
           (line token : jsstring) : bool :=
  if jseqb token [] then true
  else
    match compile (escapeToken token) with
    | Some pattern => regexTest pattern line
    | None => false
    end.

(** The text that a pattern text stands for when it is made of characters
    outside the class above and of characters of the class behind a
    backslash; [None] for every other pattern text. *)
Fixpoint literalOf (source : jsstring) : option jsstring :=
  match source with
  | [] => Some []
  | c :: rest =>
      if char_eqb c (ch "\") then
        match rest with
        | x :: rest' =>
            if isEscaped x then option_map (cons x) (literalOf rest')
            else None
        | [] => None
        end
      else if isEscaped c then None
      else option_map (cons c) (literalOf rest)
  end.

(** What the pattern syntax of the platform says of such pattern texts:
    a character outside the syntax characters stands for itself, and so
    does a syntax character (or ["-"]) behind a backslash; the pattern
    then matches wherever that text occurs. *)
Definition readsLiterals (engine : RegExpEngine) : Prop :=
  forall source text,
    literalOf source = Some text ->
    exists pattern,
      compile source = Some pattern
      /\ forall line, regexTest pattern line = includes line text.

(** An engine that reads those pattern texts and refuses the others. *)
#[local] Instance literalEngine : RegExpEngine := {|
  RegExp := regex;
  compile := fun source => option_map Lit (literalOf source);
  regexTest := Regex.test
|}.

(** The white space that the date pattern takes in front of an
    annotation: the last character of the text before it, when that is
    white space. *)
Fixpoint trailingSpace (s : jsstring) : jsstring :=
  match s with
  | [] => []
  | [c] => if isSpace c then [c] else []
  | _ :: t => trailingSpace t
  end.

(** The text without that character. *)
Fixpoint withoutTrailingSpace (s : jsstring) : jsstring :=
  match s with
  | [] => []
  | [c] => if isSpace c then [] else [c]
  | c :: t => c :: withoutTrailingSpace t
  end.

(* ================================================================== *)
(** * Properties *)
(* ================================================================== *)

Section Properties.

Context {env : Moment.Env}.

(** ** Strings *)

Lemma jseqb_eq (a b : jsstring) : jseqb a b = true <-> a = b.
Proof.
  revert b. induction a as [|x a IH]; intros [|y b]; cbn [jseqb];
    try (split; [discriminate | congruence]); [split; reflexivity|].
  unfold char_eqb. rewrite andb_true_iff, N.eqb_eq, IH.
  split; [intros [-> ->]; reflexivity | intros H; injection H; auto].
Qed.

(** ** The event synthesizer *)

Lemma hasDate_nonempty (ds : list DateInfo) :
  existsb (fun d => DateType_eqb (type d) TypeDate) ds =
  match ds with [] => false | _ :: _ => true end.
Proof. destruct ds; reflexivity. Qed.

(** [convertToEvent] by cases on the dates of the parsed line. *)
Lemma convertToEvent_cases (p : ParsedLine) (lineIndex : nat) (path : jsstring) :
  convertToEvent p lineIndex path =
  match dates p with
  | [] => Normal None
  | d0 :: _ =>
      Normal (Some
        {| Model.id := Moment.formatYYYYMMDDHHmm (moment d0)
                         ++ str "00" ++ ofNat lineIndex;
           Model.title := content p;
           Model.start := Moment.toDate (moment d0);
           Model.end_ := Moment.toDate (moment d0);
           Model.allDay := true;
           Model.eventType := str "default";
           Model.path := Some path;
           Model.blockLink :=
             if truthyOpt (blockLink p) then blockLink p else None |})
  end.
Proof.
  unfold convertToEvent. rewrite hasDate_nonempty.
  destruct (dates p); reflexivity.
Qed.

(** C1. [convertToEvent] returns an event exactly when the dates of the
    parsed line are not empty; on a parsed line without dates it returns
    [null], and it throws on no parsed line at all. *)
Theorem convertToEvent_event_iff_dates
  (p : ParsedLine) (lineIndex : nat) (path : jsstring) :
  ((exists event, convertToEvent p lineIndex path = Normal (Some event))
     <-> dates p <> [])
  /\ (convertToEvent p lineIndex path = Normal None <-> dates p = [])
  /\ (forall error, convertToEvent p lineIndex path <> Throw error).
Proof.
  rewrite convertToEvent_cases.
  destruct (dates p) as [|d0 rest]; repeat split;
    try congruence; try discriminate; intros.
  - destruct H as [event H]. discriminate.
  - eexists. reflexivity.
Qed.

Lemma extractDates_moment (lastIndex : nat) (line : jsstring) (d : DateInfo) :
  In d (extractDates lastIndex line) ->
  moment d = Moment.parseYMD (date d).
Proof.
  unfold extractDates. intros H. apply in_map_iff in H.
  destruct H as [m [<- _]]. reflexivity.
Qed.

(** C6. The id of an event is the start moment formatted as
    [YYYYMMDDHHmm], then ["00"], then the line index in decimal. *)
Theorem convertToEvent_id
  (p : ParsedLine) (lineIndex : nat) (path : jsstring) (event : Model.Event)
  (Hevent : convertToEvent p lineIndex path = Normal (Some event)) :
  exists d0 rest,
    dates p = d0 :: rest
    /\ Model.start event = Moment.toDate (Moment.clone (moment d0))
    /\ Model.id event =
         Moment.formatYYYYMMDDHHmm (Moment.clone (moment d0))
           ++ str "00" ++ ofNat lineIndex.
Proof.
  rewrite convertToEvent_cases in Hevent.
  destruct (dates p) as [|d0 rest] eqn:Hdates; [discriminate|].
  injection Hevent as <-. exists d0, rest. auto.
Qed.

(** ** Date extraction reads the body only *)

Lemma DUE_DATE_needs_at (pos : nat) (caps : list jsstring) (s : jsstring) :
  noAt s = true ->
  matchK PATTERNS.DUE_DATE (MState pos s caps) Some = None.
Proof.
  intros H. unfold PATTERNS.DUE_DATE, Cat.
  cbn [fold_right matchK mrest mpos mcaps].
  destruct s as [|c [|c' t]]; unfold noAt in H; cbn [forallb] in H.
  - reflexivity.
  - destruct (char_eqb c (ch "@")); [discriminate|].
    destruct (isSpace c); reflexivity.
  - destruct (char_eqb c (ch "@")); [discriminate|].
    destruct (char_eqb c' (ch "@")); [discriminate|].
    destruct (isSpace c); reflexivity.
Qed.

Lemma execFrom_DUE_DATE_noAt (s : jsstring) :
  noAt s = true -> forall pos, execFrom PATTERNS.DUE_DATE pos s = None.
Proof.
  induction s as [|c t IH]; intros H pos.
  - cbn [execFrom]. rewrite (DUE_DATE_needs_at pos [] [] H). reflexivity.
  - cbn [execFrom]. rewrite (DUE_DATE_needs_at pos [] (c :: t) H).
    apply IH. simpl in H. apply andb_true_iff in H. apply H.
Qed.

Lemma noAt_skipn (n : nat) (s : jsstring) :
  noAt s = true -> noAt (skipn n s) = true.
Proof.
  revert s. induction n as [|n IH]; intros [|c t] H; simpl; auto.
  apply IH. simpl in H. apply andb_true_iff in H. apply H.
Qed.

(** A text without ["@"] holds no date. *)
Lemma extractDates_noAt (lastIndex : nat) (line : jsstring) :
  noAt line = true -> extractDates lastIndex line = [].
Proof.
  intros H. unfold extractDates, matchAll.
  destruct (Nat.leb lastIndex (length line)); [|reflexivity].
  cbn [matchAllFrom].
  rewrite execFrom_DUE_DATE_noAt by (apply noAt_skipn; assumption).
  reflexivity.
Qed.

(** C3. The dates of a parsed entry are the dates extracted from its
    body: the header has no part in them, so the entry with the same body
    and an empty header has the same dates. *)
Theorem parseLine_dates_from_body
  (lastIndex : nat) (header0 body0 : jsstring) :
  dates (parseLine lastIndex {| header := header0; body := body0 |})
    = extractDates lastIndex body0
  /\ dates (parseLine lastIndex {| header := header0; body := body0 |})
    = dates (parseLine lastIndex {| header := []; body := body0 |}).
Proof. split; reflexivity. Qed.

(** An annotation in the header alone gives no date: whatever the header
    is, a body without ["@"] leaves the dates empty. *)
Lemma parseLine_header_annotation_unread
  (lastIndex : nat) (header0 body0 : jsstring) :
  noAt body0 = true ->
  dates (parseLine lastIndex {| header := header0; body := body0 |}) = [].
Proof. intros H. simpl. apply extractDates_noAt. exact H. Qed.

(** ** The reverse status mapping *)

Lemma startsWith_truthy (s : jsstring) :
  startsWith s (str "TASK-") = true -> truthy s = true.
Proof. destruct s; [discriminate | reflexivity]. Qed.

(** C8, as the code has it. [getMarkBasedOnEvent] returns [null] exactly
    for the labels that do not start with ["TASK-"]; for a label
    ["TASK-<KIND>"] whose kind is not one of the listed kinds it returns
    the character of TODO, a space. *)
Theorem getMarkBasedOnEvent_null_iff (eventType : jsstring) :
  (getMarkBasedOnEvent eventType = None
     <-> startsWith eventType (str "TASK-") = false)
  /\ (startsWith eventType (str "TASK-") = true ->
      existsb (jseqb (kindOf eventType)) recognizedKinds = false ->
      getMarkBasedOnEvent eventType = Some (str " ")).
Proof.
  unfold getMarkBasedOnEvent. fold (kindOf eventType).
  destruct (startsWith eventType (str "TASK-")) eqn:Hstart.
  - rewrite (startsWith_truthy _ Hstart). cbn [negb orb].
    split.
    + split; [|discriminate].
      repeat match goal with
             | |- context [if jseqb ?a ?b then _ else _] =>
                 destruct (jseqb a b)
             end; discriminate.
    + intros _ Hkind. unfold recognizedKinds in Hkind.
      cbn [map existsb] in Hkind.
      repeat (apply orb_false_iff in Hkind;
              let H := fresh "Hk" in destruct Hkind as [H Hkind];
              rewrite H).
      reflexivity.
  - rewrite orb_true_r. split; [split; reflexivity | discriminate].
Qed.

(** ** The filter predicate *)

(** C9. A [contentRegex] that does not compile rejects nothing: the
    result is the result of the query without the [contentRegex]. *)
Theorem eventMatchesFilter_invalid_regex
  (engine : RegExpEngine) (event : Model.Event) (filter : Filter.Query)
  (source : jsstring)
  (Hsource : Filter.contentRegex filter = Some source)
  (Hinvalid : compile source = None) :
  Filter.eventMatchesFilter event filter
    = Filter.eventMatchesFilter event (Filter.withoutContentRegex filter).
Proof.
  unfold Filter.eventMatchesFilter, Filter.rejectedByContent,
    Filter.rejectedByType, Filter.rejectedByFolder, Filter.withoutContentRegex.
  cbn [Filter.eventType Filter.contentRegex Filter.folderPaths].
  rewrite Hsource, Hinvalid.
  destruct (truthy source); reflexivity.
Qed.

(** ** The line grouper *)

Lemma entriesLoop_step (fuel : nat) (fileLines : list jsstring) (i : nat) :
  entriesLoop (S fuel) fileLines i =
  match nth_error fileLines i with
  | None => []
  | Some line =>
      (i, entryAt fileLines i line)
        :: entriesLoop fuel fileLines (nextAt fileLines i line)
  end.
Proof.
  cbn [entriesLoop]. unfold entryAt, nextAt.
  destruct (nth_error fileLines i) as [line|]; [|reflexivity].
  destruct (isChecklistLine line); [|reflexivity].
  destruct (readListEntry fileLines i line). reflexivity.
Qed.

Lemma collectBody_bounds (rest : list jsstring) :
  forall n acc, n <= snd (collectBody rest n acc)
                /\ snd (collectBody rest n acc) <= n + length rest.
Proof.
  induction rest as [|l rest IH]; intros n acc; cbn [collectBody length].
  - simpl. lia.
  - destruct (isBodyLine l).
    + specialize (IH (S n) (acc ++ [trim l])). lia.
    + simpl. lia.
Qed.

(** The body stops at or before the first line that is no body line. *)
Lemma collectBody_stops (rest : list jsstring) :
  forall n acc k x,
    nth_error rest k = Some x -> isBodyLine x = false ->
    snd (collectBody rest n acc) <= n + k.
Proof.
  induction rest as [|l rest IH]; intros n acc k x Hk Hx.
  - destruct k; discriminate.
  - cbn [collectBody]. destruct k as [|k]; simpl in Hk.
    + injection Hk as ->. rewrite Hx. simpl. lia.
    + destruct (isBodyLine l).
      * specialize (IH (S n) (acc ++ [trim l]) k x Hk Hx). lia.
      * simpl. lia.
Qed.

Lemma readListEntry_next (fileLines : list jsstring) (i : nat) (line : jsstring) :
  snd (readListEntry fileLines i line)
    = snd (collectBody (skipn (i + 1) fileLines) (i + 1) []).
Proof.
  unfold readListEntry.
  destruct (collectBody (skipn (i + 1) fileLines) (i + 1) []). reflexivity.
Qed.

Lemma nextAt_bounds (fileLines : list jsstring) (i : nat) (line : jsstring) :
  nth_error fileLines i = Some line ->
  i < nextAt fileLines i line /\ nextAt fileLines i line <= length fileLines.
Proof.
  intros Hi.
  assert (Hlt : i < length fileLines)
    by (apply nth_error_Some; congruence).
  unfold nextAt. destruct (isChecklistLine line); [|lia].
  rewrite readListEntry_next.
  pose proof (collectBody_bounds (skipn (i + 1) fileLines) (i + 1) []) as H.
  rewrite length_skipn in H. lia.
Qed.

(** The loop goes on at or before every later line that is no body line. *)
Lemma nextAt_stops (fileLines : list jsstring) (i j : nat) (line x : jsstring) :
  i < j -> nth_error fileLines j = Some x -> isBodyLine x = false ->
  nextAt fileLines i line <= j.
Proof.
  intros Hij Hj Hx. unfold nextAt.
  destruct (isChecklistLine line); [|lia].
  rewrite readListEntry_next.
  pose proof (collectBody_stops (skipn (i + 1) fileLines) (i + 1) []
                                (j - (i + 1)) x) as H.
  rewrite nth_error_skipn in H.
  replace (i + 1 + (j - (i + 1))) with j in H by lia.
  specialize (H Hj Hx). lia.
Qed.

(** Enough fuel: the rounds from [i] on depend on no surplus of it. *)
Lemma entriesLoop_fuel (fileLines : list jsstring) :
  forall fuel1 fuel2 i,
    length fileLines - i <= fuel1 -> length fileLines - i <= fuel2 ->
    entriesLoop fuel1 fileLines i = entriesLoop fuel2 fileLines i.
Proof.
  induction fuel1 as [|fuel1 IH]; intros fuel2 i H1 H2.
  - assert (Hnone : nth_error fileLines i = None)
      by (apply nth_error_None; lia).
    destruct fuel2; [reflexivity|].
    rewrite entriesLoop_step, Hnone. reflexivity.
  - destruct fuel2 as [|fuel2].
    + assert (Hnone : nth_error fileLines i = None)
        by (apply nth_error_None; lia).
      rewrite entriesLoop_step, Hnone. reflexivity.
    + rewrite !entriesLoop_step.
      destruct (nth_error fileLines i) as [line|] eqn:Hi; [|reflexivity].
      pose proof (nextAt_bounds _ _ _ Hi) as Hn.
      f_equal. apply IH; lia.
Qed.

Lemma lineGrouper_entriesFrom (fileLines : list jsstring) :
  lineGrouper fileLines = entriesFrom fileLines 0.
Proof. unfold lineGrouper, entriesFrom. rewrite Nat.sub_0_r. reflexivity. Qed.

Lemma entriesFrom_step (fileLines : list jsstring) (i : nat) (line : jsstring) :
  nth_error fileLines i = Some line ->
  entriesFrom fileLines i
    = (i, entryAt fileLines i line)
        :: entriesFrom fileLines (nextAt fileLines i line).
Proof.
  intros Hi. unfold entriesFrom.
  assert (Hlt : i < length fileLines)
    by (apply nth_error_Some; congruence).
  destruct (length fileLines - i) as [|fuel] eqn:Hfuel; [lia|].
  rewrite entriesLoop_step, Hi. f_equal.
  pose proof (nextAt_bounds _ _ _ Hi) as Hn.
  apply entriesLoop_fuel; lia.
Qed.

(** The loop reaches every line that is no body line: the entries from an
    earlier index end with the entries from that line. *)
Lemma entriesFrom_reach (fileLines : list jsstring) (j : nat) (x : jsstring) :
  nth_error fileLines j = Some x -> isBodyLine x = false ->
  forall gap i, j = i + gap ->
    exists before,
      entriesFrom fileLines i = before ++ entriesFrom fileLines j.
Proof.
  intros Hj Hx gap.
  induction gap as [gap IH] using lt_wf_ind. intros i Hgap.
  destruct gap as [|gap].
  - exists []. replace j with i by lia. reflexivity.
  - assert (Hi : i < length fileLines).
    { assert (j < length fileLines) by (apply nth_error_Some; congruence).
      lia. }
    destruct (nth_error fileLines i) as [line|] eqn:Hline;
      [|apply nth_error_None in Hline; lia].
    pose proof (nextAt_bounds _ _ _ Hline) as Hn.
    pose proof (nextAt_stops fileLines i j line x ltac:(lia) Hj Hx) as Hs.
    destruct (IH (j - nextAt fileLines i line) ltac:(lia)
                 (nextAt fileLines i line) ltac:(lia)) as [before Hbefore].
    exists ((i, entryAt fileLines i line) :: before).
    rewrite (entriesFrom_step _ _ _ Hline), Hbefore. reflexivity.
Qed.

(** Every entry of the loop is the entry read at its index. *)
Lemma entriesLoop_entryAt (fileLines : list jsstring) :
  forall fuel i j e,
    In (j, e) (entriesLoop fuel fileLines i) ->
    exists line, nth_error fileLines j = Some line
                 /\ e = entryAt fileLines j line.
Proof.
  induction fuel as [|fuel IH]; intros i j e Hin; [destruct Hin|].
  rewrite entriesLoop_step in Hin.
  destruct (nth_error fileLines i) as [line|] eqn:Hi; [|destruct Hin].
  destruct Hin as [Heq | Hin].
  - injection Heq as <- <-. exists line. auto.
  - eapply IH. exact Hin.
Qed.

(** A line that is no body line starts an entry, and only that one. *)
Lemma lineGrouper_entry (fileLines : list jsstring) (j : nat) (x : jsstring) :
  nth_error fileLines j = Some x ->
  (isBodyLine x = false \/ j = 0) ->
  In (j, entryAt fileLines j x) (lineGrouper fileLines).
Proof.
  intros Hj Hx. rewrite lineGrouper_entriesFrom.
  destruct Hx as [Hx | ->].
  - destruct (entriesFrom_reach fileLines j x Hj Hx j 0 eq_refl)
      as [before ->].
    apply in_or_app. right. rewrite (entriesFrom_step _ _ _ Hj). left. reflexivity.
  - rewrite (entriesFrom_step _ _ _ Hj). left. reflexivity.
Qed.

Lemma lineGrouper_entryAt (fileLines : list jsstring) (j : nat)
      (x : jsstring) (e : ListEntry) :
  nth_error fileLines j = Some x ->
  In (j, e) (lineGrouper fileLines) ->
  e = entryAt fileLines j x.
Proof.
  intros Hj Hin. apply entriesLoop_entryAt in Hin.
  destruct Hin as [line [Hline ->]]. congruence.
Qed.

Lemma pushEvent_result (lastIndex : nat) (path prefix : jsstring)
      (i : nat) (e : ListEntry) (out : Output) :
  result (pushEvent prefix (convertToEvent (parseLine lastIndex e) i path) out)
    = result out ++ eventsOf lastIndex path (i, e).
Proof.
  unfold eventsOf, pushEvent. cbn [fst snd].
  destruct (convertToEvent (parseLine lastIndex e) i path) as [[event|]|error];
    cbn [result]; rewrite ?app_nil_r; reflexivity.
Qed.

Lemma eventsLoop_entries (lastIndex : nat) (path : jsstring)
      (fileLines : list jsstring) :
  forall fuel i out,
    result (eventsLoop lastIndex fuel path fileLines i out)
      = result out
          ++ flat_map (eventsOf lastIndex path) (entriesLoop fuel fileLines i).
Proof.
  induction fuel as [|fuel IH]; intros i out; cbn [eventsLoop entriesLoop].
  - rewrite app_nil_r. reflexivity.
  - destruct (nth_error fileLines i) as [line|];
      [|rewrite app_nil_r; reflexivity].
    destruct (isChecklistLine line).
    + destruct (readListEntry fileLines i line) as [entry next].
      rewrite IH, pushEvent_result. cbn [flat_map].
      rewrite app_assoc. reflexivity.
    + rewrite IH, pushEvent_result. cbn [flat_map].
      rewrite app_assoc. reflexivity.
Qed.

Lemma getEventsFromFile_lineGrouper (lastIndex : nat) (path : jsstring)
      (fileLines : list jsstring) (events0 : option (list Model.Event)) :
  result (getEventsFromFile lastIndex path fileLines events0)
    = flat_map (eventsOf lastIndex path) (lineGrouper fileLines).
Proof.
  unfold getEventsFromFile, lineGrouper. rewrite eventsLoop_entries.
  reflexivity.
Qed.

(** Enough fuel for the loop: the length of the note. *)
Lemma getEventsFromFile_fuel (lastIndex : nat) (path : jsstring)
      (fileLines : list jsstring) (events0 : option (list Model.Event))
      (fuel : nat) :
  length fileLines <= fuel ->
  result (eventsLoop lastIndex fuel path fileLines 0
            {| result := []; events := events0; notices := [] |})
    = result (getEventsFromFile lastIndex path fileLines events0).
Proof.
  intros Hfuel. unfold getEventsFromFile. rewrite !eventsLoop_entries.
  f_equal. f_equal. apply entriesLoop_fuel; lia.
Qed.

Lemma skipn_nth_error_cons (A : Type) (l : list A) :
  forall n x, nth_error l n = Some x -> skipn n l = x :: skipn (S n) l.
Proof.
  induction l as [|a l IH]; intros [|n] x H; try discriminate.
  - injection H as ->. reflexivity.
  - simpl in H. cbn [skipn]. rewrite (IH n x H). reflexivity.
Qed.

Lemma readListEntry_header (fileLines : list jsstring) (i : nat)
      (line : jsstring) :
  header (fst (readListEntry fileLines i line))
    = trim (replace CHECKLIST_PREFIX [] line).
Proof.
  unfold readListEntry.
  destruct (collectBody (skipn (i + 1) fileLines) (i + 1) []). reflexivity.
Qed.

Lemma checklist_not_body (line : jsstring) :
  isChecklistLine line = true -> isBodyLine line = false.
Proof.
  unfold isChecklistLine, isBodyLine. intros ->. apply andb_false_r.
Qed.

(** C7. A checklist line followed by one indented line that is no
    checklist line and then by a line that is not indented: the entry of
    the checklist line has the indented line, trimmed, as its whole body,
    and the next entry of the loop starts at the line that is not
    indented. *)
Theorem lineGrouper_body_boundary
  (fileLines : list jsstring) (i : nat) (l0 l1 l2 : jsstring)
  (H0 : nth_error fileLines i = Some l0)
  (H1 : nth_error fileLines (i + 1) = Some l1)
  (H2 : nth_error fileLines (i + 2) = Some l2)
  (Hchecklist0 : isChecklistLine l0 = true)
  (Hindented1 : test INDENTED l1 = true)
  (Hchecklist1 : isChecklistLine l1 = false)
  (Hindented2 : test INDENTED l2 = false) :
  exists before e2 after,
    lineGrouper fileLines
      = before
          ++ (i, {| header := trim (replace CHECKLIST_PREFIX [] l0);
                    body := trim l1 |})
          :: (i + 2, e2) :: after
    /\ (if isChecklistLine l2
        then header e2 = trim (replace CHECKLIST_PREFIX [] l2)
        else e2 = {| header := []; body := l2 |}).
Proof.
  assert (Hbody1 : isBodyLine l1 = true).
  { unfold isBodyLine. unfold isChecklistLine in Hchecklist1.
    rewrite Hindented1, Hchecklist1. reflexivity. }
  assert (Hbody2 : isBodyLine l2 = false).
  { unfold isBodyLine. rewrite Hindented2. reflexivity. }
  assert (Hread : readListEntry fileLines i l0
                  = ({| header := trim (replace CHECKLIST_PREFIX [] l0);
                        body := trim l1 |}, i + 2)).
  { unfold readListEntry.
    rewrite (skipn_nth_error_cons _ _ _ _ H1).
    replace (S (i + 1)) with (i + 2) by lia.
    rewrite (skipn_nth_error_cons _ _ _ _ H2).
    cbn [collectBody]. rewrite Hbody1, Hbody2. cbn [app join].
    replace (S (i + 1)) with (i + 2) by lia. reflexivity. }
  destruct (entriesFrom_reach fileLines i l0 H0
              (checklist_not_body l0 Hchecklist0) i 0 eq_refl)
    as [before Hbefore].
  exists before, (entryAt fileLines (i + 2) l2),
    (entriesFrom fileLines (nextAt fileLines (i + 2) l2)).
  split.
  - rewrite lineGrouper_entriesFrom, Hbefore.
    rewrite (entriesFrom_step _ _ _ H0).
    unfold entryAt at 1, nextAt at 1. rewrite Hchecklist0, Hread.
    cbn [fst snd]. rewrite (entriesFrom_step _ _ _ H2). reflexivity.
  - unfold entryAt. destruct (isChecklistLine l2); [|reflexivity].
    apply readListEntry_header.
Qed.

(** C4, as the code has it. A checklist line starts an entry whose header
    is the line without its marker and checkbox; the parsed entry is no
    task and carries no status character and no task status: the loop
    does not read the character of the checkbox and [STATUS_MAPPING] is
    not consulted. *)
Theorem checklist_entry_carries_no_status
  (lastIndex : nat) (fileLines : list jsstring) (i : nat) (line : jsstring)
  (Hline : nth_error fileLines i = Some line)
  (Hchecklist : isChecklistLine line = true) :
  exists e,
    In (i, e) (lineGrouper fileLines)
    /\ (forall e', In (i, e') (lineGrouper fileLines) -> e' = e)
    /\ header e = trim (replace CHECKLIST_PREFIX [] line)
    /\ isTask (parseLine lastIndex e) = false
    /\ statusCharacter (parseLine lastIndex e) = None
    /\ taskStatus (parseLine lastIndex e) = None.
Proof.
  exists (entryAt fileLines i line). split; [|split; [|split]].
  - apply lineGrouper_entry; [exact Hline|].
    left. apply checklist_not_body. exact Hchecklist.
  - intros e' Hin. exact (lineGrouper_entryAt _ _ _ _ Hline Hin).
  - unfold entryAt. rewrite Hchecklist. apply readListEntry_header.
  - repeat split.
Qed.

(** ** The matcher *)

(** A successful match went through its continuation, at a state further
    in the input. *)
Lemma advances_refl (st : mstate) : advances st st.
Proof.
  repeat split; try lia. exists []. rewrite app_nil_r. reflexivity.
Qed.

Lemma advances_trans (st1 st2 st3 : mstate) :
  advances st1 st2 -> advances st2 st3 -> advances st1 st3.
Proof.
  intros [[ext1 H1] [Hle1 Hlen1]] [[ext2 H2] [Hle2 Hlen2]].
  repeat split; try lia.
  exists (ext1 ++ ext2). rewrite H2, H1, app_assoc. reflexivity.
Qed.

Lemma starK_continues (p : char -> bool) (k : cont) (caps : list jsstring)
      (res : mstate) :
  forall s pos,
    starK p k pos caps s = Some res ->
    exists st', k st' = Some res /\ advances (MState pos s caps) st'.
Proof.
  induction s as [|c t IH]; intros pos H; cbn [starK] in H.
  - eexists. split; [exact H | apply advances_refl].
  - destruct (p c).
    + destruct (starK p k (S pos) caps t) as [r|] eqn:Hstar.
      * injection H as ->. destruct (IH _ Hstar) as [st' [Hk Hadv]].
        exists st'. split; [exact Hk|].
        eapply advances_trans; [|exact Hadv].
        repeat split; cbn [mpos mrest mcaps length]; try lia.
        exists []. rewrite app_nil_r. reflexivity.
      * eexists. split; [exact H | apply advances_refl].
    + eexists. split; [exact H | apply advances_refl].
Qed.

Lemma advances_step (st : mstate) (x : char) (t : jsstring) :
  mrest st = x :: t ->
  advances st (MState (S (mpos st)) t (mcaps st)).
Proof.
  intros H. repeat split; cbn [mpos mrest mcaps]; try lia.
  - exists []. rewrite app_nil_r. reflexivity.
  - rewrite H. cbn [length]. lia.
Qed.

Lemma matchK_continues (r : regex) :
  forall st k res,
    matchK r st k = Some res ->
    exists st', k st' = Some res /\ advances st st'.
Proof.
  induction r as [ | c | p | r1 IH1 r2 IH2 | r1 IH1 r2 IH2 | p | r1 IH1
                 | r1 IH1 | | ];
    intros st k res H; cbn [matchK] in H.
  - exists st. split; [exact H | apply advances_refl].
  - destruct (mrest st) as [|x t] eqn:Hrest; [discriminate|].
    destruct (char_eqb x c); [|discriminate].
    eexists. split; [exact H | apply (advances_step st x t Hrest)].
  - destruct (mrest st) as [|x t] eqn:Hrest; [discriminate|].
    destruct (p x); [|discriminate].
    eexists. split; [exact H | apply (advances_step st x t Hrest)].
  - apply IH1 in H. destruct H as [st1 [H Hadv1]].
    apply IH2 in H. destruct H as [st2 [H Hadv2]].
    exists st2. split; [exact H | exact (advances_trans _ _ _ Hadv1 Hadv2)].
  - destruct (matchK r1 st k) as [res1|] eqn:H1.
    + injection H as ->. apply (IH1 _ _ _ H1).
    + apply (IH2 _ _ _ H).
  - apply starK_continues in H. destruct H as [st' [H Hadv]].
    exists st'. split; [exact H|]. destruct st. exact Hadv.
  - destruct (matchK r1 st k) as [res1|] eqn:H1.
    + injection H as ->. apply (IH1 _ _ _ H1).
    + exists st. split; [exact H | apply advances_refl].
  - apply IH1 in H. destruct H as [st1 [H Hadv1]].
    eexists. split; [exact H|].
    destruct Hadv1 as [[ext Hcaps] [Hle Hlen]].
    repeat split; cbn [mpos mrest mcaps]; try lia.
    eexists. rewrite Hcaps, <- app_assoc. reflexivity.
  - destruct (Nat.eqb (mpos st) 0); [|discriminate].
    exists st. split; [exact H | apply advances_refl].
  - destruct (mrest st); [|discriminate].
    exists st. split; [exact H | apply advances_refl].
Qed.

(** When what follows [p*] cannot start with a character of [p], the star
    gives nothing back: it runs to the first character out of [p]. *)
Lemma starK_possessive (p : char -> bool) (k : cont) (caps : list jsstring)
      (Hk : forall pos c t, p c = true -> k (MState pos (c :: t) caps) = None) :
  forall s pos,
    exists pos', starK p k pos caps s = k (MState pos' (dropWhile p s) caps).
Proof.
  induction s as [|c t IH]; intros pos; cbn [starK dropWhile].
  - eexists. reflexivity.
  - destruct (p c) eqn:Hc.
    + destruct (IH (S pos)) as [pos' Hpos']. exists pos'.
      rewrite Hpos'.
      destruct (k (MState pos' (dropWhile p t) caps)) eqn:Hres;
        [reflexivity|].
      apply Hk. exact Hc.
    + eexists. reflexivity.
Qed.

(** A pattern that starts with ["^"] matches at index 0 only. *)
Lemma execFrom_Bol (r : regex) (s : jsstring) :
  forall pos, execFrom (Seq Bol r) (S pos) s = None.
Proof.
  induction s as [|c t IH]; intros pos; cbn [execFrom matchK mpos Nat.eqb].
  - reflexivity.
  - apply IH.
Qed.

Lemma exec_Bol (r : regex) (s : jsstring) :
  exec (Seq Bol r) s =
  match matchK r (MState 0 s []) Some with
  | Some st => Some (RMatch 0 (firstn (mpos st - 0) s) (mcaps st)
                            (mpos st) (mrest st))
  | None => None
  end.
Proof.
  unfold exec. destruct s as [|c t]; cbn [execFrom matchK mpos Nat.eqb].
  - reflexivity.
  - destruct (matchK r (MState 0 (c :: t) []) Some); [reflexivity|].
    apply execFrom_Bol.
Qed.

(** A match lies in the input: it starts at or after the index where the
    search starts, and the input after it is what is left from its end. *)
Lemma execFrom_bounds (r : regex) (s : jsstring) :
  forall pos m,
    execFrom r pos s = Some m ->
    pos <= index m /\ index m <= endIndex m
    /\ endIndex m + length (after m) = pos + length s.
Proof.
  induction s as [|c t IH]; intros pos m H; cbn [execFrom] in H.
  - destruct (matchK r (MState pos [] []) Some) as [st|] eqn:Hm;
      [|discriminate].
    injection H as <-. cbn [index endIndex after].
    apply matchK_continues in Hm. destruct Hm as [st' [Hst' Hadv]].
    injection Hst' as ->. destruct Hadv as [_ [Hle Hlen]].
    cbn [mpos mrest] in Hle, Hlen. lia.
  - destruct (matchK r (MState pos (c :: t) []) Some) as [st|] eqn:Hm.
    + injection H as <-. cbn [index endIndex after].
      apply matchK_continues in Hm. destruct Hm as [st' [Hst' Hadv]].
      injection Hst' as ->. destruct Hadv as [_ [Hle Hlen]].
      cbn [mpos mrest] in Hle, Hlen. lia.
    + apply IH in H. cbn [length]. lia.
Qed.

(** Enough fuel for [matchAll]: more than the length of the input. *)
Lemma matchAllFrom_fuel (r : regex) :
  forall fuel1 fuel2 pos s,
    length s < fuel1 -> length s < fuel2 ->
    matchAllFrom fuel1 r pos s = matchAllFrom fuel2 r pos s.
Proof.
  induction fuel1 as [|fuel1 IH]; intros fuel2 pos s H1 H2; [lia|].
  destruct fuel2 as [|fuel2]; [lia|]. cbn [matchAllFrom].
  destruct (execFrom r pos s) as [m|] eqn:Hexec; [|reflexivity].
  apply execFrom_bounds in Hexec. destruct Hexec as [Hle [Hle' Hlen]].
  f_equal. destruct (Nat.eqb (endIndex m) (index m)) eqn:Hempty.
  - destruct (after m) as [|c t]; [reflexivity|].
    cbn [length] in Hlen. apply IH; lia.
  - apply Nat.eqb_neq in Hempty. apply IH; lia.
Qed.

(** White space is none of the characters that start a list marker. *)
Lemma isSpace_not_marker (c : char) :
  isSpace c = true ->
  char_eqb c (ch "-") = false /\ char_eqb c (ch "*") = false
  /\ char_eqb c (ch "+") = false /\ isDigit c = false.
Proof.
  unfold isSpace, isDigit, char_eqb. intros H.
  repeat rewrite orb_true_iff in H. rewrite andb_true_iff in H.
  repeat rewrite N.eqb_eq in H. repeat rewrite N.leb_le in H.
  change (ch "-") with 45%N. change (ch "*") with 42%N.
  change (ch "+") with 43%N.
  repeat split;
    try (apply N.eqb_neq; lia);
    apply andb_false_iff; rewrite !N.leb_gt; lia.
Qed.

(** ** Checklist lines and the markers of [PATTERNS.TASK] *)

Lemma dropWhile_split (p : char -> bool) (s : jsstring) :
  exists ws, s = ws ++ dropWhile p s /\ forallb p ws = true.
Proof.
  induction s as [|c t [ws [Heq Hall]]]; cbn [dropWhile].
  - exists []. auto.
  - destruct (p c) eqn:Hc.
    + exists (c :: ws). cbn [app forallb]. rewrite Hc, Hall, <- Heq. auto.
    + exists []. auto.
Qed.

Lemma dropWhile_app_stop (p : char -> bool) (ws : jsstring) (x : char)
      (rest : jsstring) :
  forallb p ws = true -> p x = false ->
  dropWhile p (ws ++ x :: rest) = x :: rest.
Proof.
  intros Hall Hx. induction ws as [|c ws IH]; cbn [app dropWhile].
  - rewrite Hx. reflexivity.
  - cbn [forallb] in Hall. apply andb_true_iff in Hall.
    destruct Hall as [Hc Hall]. rewrite Hc. apply IH. exact Hall.
Qed.

Lemma isSpace_not_bracket (c : char) :
  isSpace c = true -> char_eqb c (ch "[") = false.
Proof.
  unfold isSpace, char_eqb. intros H.
  repeat rewrite orb_true_iff in H. rewrite andb_true_iff in H.
  repeat rewrite N.eqb_eq in H. repeat rewrite N.leb_le in H.
  change (ch "[") with 91%N. apply N.eqb_neq. lia.
Qed.

Lemma isChecklistLine_shape (line : jsstring) :
  isChecklistLine line = checklistShape line.
Proof.
  unfold isChecklistLine, checklistShape, test, CHECKLIST, Cat.
  cbn [fold_right].
  rewrite exec_Bol. unfold Plus. cbn [matchK mpos mrest mcaps].
  match goal with
  | |- context [starK isSpace ?k 0 [] line] =>
      destruct (starK_possessive isSpace k []) with (s := line) (pos := 0)
        as [pos' Hpos']
  end.
  { intros pos c t Hc. destruct (isSpace_not_marker c Hc) as [Hd _].
    cbn [mrest]. rewrite Hd. reflexivity. }
  rewrite Hpos'. clear Hpos'. cbn [mrest mpos mcaps].
  destruct (dropWhile isSpace line) as [|x [|x0 t0]]; try reflexivity.
  - destruct (char_eqb x (ch "-")); reflexivity.
  - destruct (char_eqb x (ch "-")); [|reflexivity].
    destruct (isSpace x0); [|reflexivity]. cbn [andb].
    match goal with
    | |- context [starK isSpace ?k ?n [] t0] =>
        destruct (starK_possessive isSpace k []) with (s := t0) (pos := n)
          as [pos'' Hpos'']
    end.
    { intros pos c t Hc. cbn [mrest].
      rewrite (isSpace_not_bracket c Hc). reflexivity. }
    rewrite Hpos''. clear Hpos''. cbn [mrest mpos mcaps].
    destruct (dropWhile isSpace t0) as [|x1 [|x2 [|x3 t3]]];
      try reflexivity;
      destruct (char_eqb x1 (ch "[")); try reflexivity;
      destruct (isDot x2); try reflexivity;
      destruct (char_eqb x3 (ch "]")); reflexivity.
Qed.

Lemma checklistShape_spec (line : jsstring) :
  checklistShape line = true <->
  exists ws ws' c rest,
    line = ws ++ ch "-" :: ws' ++ ch "[" :: c :: ch "]" :: rest
    /\ forallb isSpace ws = true
    /\ ws' <> [] /\ forallb isSpace ws' = true
    /\ isDot c = true.
Proof.
  unfold checklistShape. split.
  - destruct (dropWhile_split isSpace line) as [ws [Hline Hws]].
    destruct (dropWhile isSpace line) as [|x [|x0 t0]]; try discriminate.
    destruct (dropWhile_split isSpace t0) as [ws0 [Ht0 Hws0]].
    destruct (dropWhile isSpace t0) as [|x1 [|x2 [|x3 t3]]];
      try (rewrite !andb_false_r; discriminate).
    rewrite !andb_true_iff. unfold char_eqb. rewrite !N.eqb_eq.
    intros [[-> Hx0] [[-> Hx2] ->]].
    exists ws, (x0 :: ws0), x2, t3. repeat split.
    + rewrite Hline at 1. rewrite Ht0 at 1. reflexivity.
    + exact Hws.
    + discriminate.
    + cbn [forallb]. rewrite Hx0, Hws0. reflexivity.
    + exact Hx2.
  - intros [ws [ws' [c [rest [-> [Hws [Hne [Hws' Hc]]]]]]]].
    destruct ws' as [|w ws']; [congruence|].
    cbn [forallb] in Hws'. apply andb_true_iff in Hws'.
    destruct Hws' as [Hw Hws'].
    rewrite (dropWhile_app_stop isSpace ws (ch "-") _ Hws eq_refl).
    cbn [app].
    rewrite (dropWhile_app_stop isSpace ws' (ch "[") _ Hws' eq_refl).
    rewrite Hw, Hc. reflexivity.
Qed.

(** The first character of a checklist line after its indentation is
    ["-"]. *)
Lemma CHECKLIST_first_char (line : jsstring) :
  isChecklistLine line = true ->
  exists t, dropWhile isSpace line = ch "-" :: t.
Proof.
  unfold isChecklistLine, test, CHECKLIST, Cat. cbn [fold_right].
  rewrite exec_Bol. cbn [matchK mpos mrest mcaps].
  match goal with
  | |- context [starK isSpace ?k 0 [] line] =>
      destruct (starK_possessive isSpace k []) with (s := line) (pos := 0)
        as [pos' Hpos']
  end.
  { intros pos c t Hc. destruct (isSpace_not_marker c Hc) as [Hd _].
    cbn [mrest]. rewrite Hd. reflexivity. }
  rewrite Hpos'. cbn [mrest].
  destruct (dropWhile isSpace line) as [|c t]; [discriminate|].
  destruct (char_eqb c (ch "-")) eqn:Hc; [|discriminate].
  intros _. apply N.eqb_eq in Hc. subst c. exists t. reflexivity.
Qed.

(** When the first character after the indentation is ["-"], the marker
    that a pattern of the shape of [PATTERNS.TASK] captures is ["-"]. *)
Lemma marker_dash_capture (tail : regex) (line t : jsstring) (res : mstate) :
  dropWhile isSpace line = ch "-" :: t ->
  matchK (Seq (Group (Star isSpace)) (Seq (Group PATTERNS.marker) tail))
         (MState 0 line []) Some = Some res ->
  nth 1 (mcaps res) [] = str "-".
Proof.
  intros Hdrop. unfold PATTERNS.marker, Plus.
  cbn [matchK mpos mrest mcaps].
  match goal with
  | |- context [starK isSpace ?k 0 [] line] =>
      destruct (starK_possessive isSpace k []) with (s := line) (pos := 0)
        as [pos' Hpos']
  end.
  { intros pos c t' Hc.
    destruct (isSpace_not_marker c Hc) as [Hd [Hs [Hp Hdig]]].
    cbn [mrest mpos mcaps].
    rewrite Hd, Hs, Hp, Hdig. reflexivity. }
  cbn [mrest mpos mcaps] in Hpos'.
  rewrite Hpos', Hdrop. clear Hpos'.
  change (char_eqb (ch "-") (ch "-")) with true.
  change (char_eqb (ch "-") (ch "*")) with false.
  change (char_eqb (ch "-") (ch "+")) with false.
  change (isDigit (ch "-")) with false.
  cbv iota.
  match goal with
  | |- context [matchK tail ?st Some] =>
      destruct (matchK tail st Some) as [res0|] eqn:Htail
  end; [|discriminate].
  intros H. injection H as ->.
  apply matchK_continues in Htail.
  destruct Htail as [st' [Hst' [[ext Hcaps] _]]]. injection Hst' as ->.
  rewrite Hcaps. cbn [mcaps app nth].
  replace (S pos' - pos') with 1 by lia. reflexivity.
Qed.

(** A line on which [PATTERNS.TASK] captures a marker other than ["-"] is
    no checklist line for the loop. *)
Lemma TASK_other_marker_not_checklist (line : jsstring) (m : rmatch) :
  exec PATTERNS.TASK line = Some m ->
  group m 2 <> str "-" ->
  isChecklistLine line = false.
Proof.
  intros Hexec Hmarker.
  destruct (isChecklistLine line) eqn:Hchecklist; [|reflexivity].
  exfalso. apply Hmarker.
  destruct (CHECKLIST_first_char line Hchecklist) as [t Hdrop].
  unfold PATTERNS.TASK, Cat in Hexec. cbn [fold_right] in Hexec.
  rewrite exec_Bol in Hexec.
  match type of Hexec with
  | context [matchK (Seq ?g (Seq ?mk ?tail)) ?st Some] =>
      destruct (matchK (Seq g (Seq mk tail)) st Some) as [res|] eqn:Hres;
      [|discriminate];
      pose proof (marker_dash_capture tail line t res Hdrop Hres) as Hcap
  end.
  injection Hexec as <-. unfold group. cbn [groups Nat.sub]. exact Hcap.
Qed.

(* ================================================================== *)
(** * Further properties *)
(* ================================================================== *)

(** ** Trimming *)

Lemma dropWhile_head (p : char -> bool) (s : jsstring) (c : char)
      (t : jsstring) :
  dropWhile p s = c :: t -> p c = false.
Proof.
  induction s as [|x s IH]; cbn [dropWhile]; [discriminate|].
  destruct (p x) eqn:Hx; [exact IH|].
  intros H. injection H as -> _. exact Hx.
Qed.

Lemma dropWhile_id (p : char -> bool) (s : jsstring) :
  match s with [] => True | c :: _ => p c = false end ->
  dropWhile p s = s.
Proof. destruct s as [|c t]; [reflexivity|]. cbn. intros ->. reflexivity. Qed.

Lemma trim_isTrimmed (s : jsstring) : isTrimmed (trim s) = true.
Proof.
  unfold trim, trimEnd, trimStart.
  destruct (dropWhile_split isSpace (rev (dropWhile isSpace s)))
    as [ws [Hsplit Hws]].
  destruct (dropWhile isSpace (rev (dropWhile isSpace s))) as [|c b] eqn:Hb;
    [reflexivity|].
  pose proof (dropWhile_head _ _ _ _ Hb) as Hc.
  assert (Hrev : dropWhile isSpace s = rev (c :: b) ++ rev ws).
  { rewrite <- rev_app_distr, <- Hsplit, rev_involutive. reflexivity. }
  cbn [rev] in Hrev |- *.
  destruct (rev b ++ [c]) as [|x t] eqn:Hx;
    [destruct (rev b); discriminate|].
  cbn [isTrimmed]. rewrite <- Hx, last_last, Hc.
  cbn [app] in Hrev.
  rewrite (dropWhile_head _ _ _ _ Hrev). reflexivity.
Qed.

Lemma isTrimmed_trim (s : jsstring) : isTrimmed s = true -> trim s = s.
Proof.
  intros H. unfold trim, trimEnd, trimStart.
  destruct s as [|c t]; [reflexivity|].
  cbn [isTrimmed] in H. apply andb_true_iff in H. destruct H as [Hc Hl].
  apply negb_true_iff in Hc, Hl.
  rewrite (dropWhile_id isSpace (c :: t)) by exact Hc.
  rewrite dropWhile_id; [apply rev_involutive|].
  destruct (rev (c :: t)) as [|x r] eqn:Hr; [exact I|].
  assert (Hx : c :: t = rev r ++ [x])
    by (rewrite <- (rev_involutive (c :: t)), Hr; reflexivity).
  rewrite Hx, last_last in Hl. exact Hl.
Qed.

(** X1. [trim] leaves a text that neither starts nor ends with white
    space, and trimming twice is trimming once. *)
Theorem trim_idempotent (s : jsstring) :
  isTrimmed (trim s) = true /\ trim (trim s) = trim s.
Proof.
  split; [apply trim_isTrimmed|].
  apply isTrimmed_trim, trim_isTrimmed.
Qed.

(** ** The extraction loop, as a whole *)

Lemma eventsOf_cases (lastIndex : nat) (path : jsstring) (i : nat)
      (e : ListEntry) :
  eventsOf lastIndex path (i, e) =
  match extractDates lastIndex (body e) with
  | [] => []
  | d0 :: _ =>
      [ {| Model.id := Moment.formatYYYYMMDDHHmm (moment d0)
                         ++ str "00" ++ ofNat i;
           Model.title := content (parseLine lastIndex e);
           Model.start := Moment.toDate (moment d0);
           Model.end_ := Moment.toDate (moment d0);
           Model.allDay := true;
           Model.eventType := str "default";
           Model.path := Some path;
           Model.blockLink := None |} ]
  end.
Proof.
  unfold eventsOf. cbn [fst snd]. rewrite convertToEvent_cases.
  cbn [dates parseLine blockLink truthyOpt].
  destruct (extractDates lastIndex (body e)); reflexivity.
Qed.

Lemma eventsOf_length (lastIndex : nat) (path : jsstring)
      (entry : nat * ListEntry) :
  length (eventsOf lastIndex path entry) <= 1.
Proof.
  destruct entry as [i e]. rewrite eventsOf_cases.
  destruct (extractDates lastIndex (body e)); cbn [length]; lia.
Qed.

Lemma entriesLoop_length (fileLines : list jsstring) :
  forall fuel i, length (entriesLoop fuel fileLines i) <= length fileLines - i.
Proof.
  induction fuel as [|fuel IH]; intros i; [cbn; lia|].
  rewrite entriesLoop_step.
  destruct (nth_error fileLines i) as [line|] eqn:Hi; [|cbn; lia].
  pose proof (nextAt_bounds _ _ _ Hi) as Hn.
  specialize (IH (nextAt fileLines i line)). cbn [length]. lia.
Qed.

Lemma flat_map_length_le (A B : Type) (f : A -> list B) (l : list A) :
  (forall a, length (f a) <= 1) -> length (flat_map f l) <= length l.
Proof.
  intros Hf. induction l as [|a l IH]; [cbn; lia|].
  cbn [flat_map length]. rewrite length_app. specialize (Hf a). lia.
Qed.

(** X2. A note gives at most one event per line; the empty note gives
    none. *)
Theorem getEventsFromFile_at_most_one_per_line
  (lastIndex : nat) (path : jsstring) (fileLines : list jsstring)
  (events0 : option (list Model.Event)) :
  length (result (getEventsFromFile lastIndex path fileLines events0))
    <= length fileLines.
Proof.
  rewrite getEventsFromFile_lineGrouper.
  etransitivity; [apply flat_map_length_le, eventsOf_length|].
  unfold lineGrouper.
  pose proof (entriesLoop_length fileLines (length fileLines) 0). lia.
Qed.

Lemma eventsLoop_side_effects (lastIndex : nat) (path : jsstring)
      (fileLines : list jsstring) :
  forall fuel i out,
    events (eventsLoop lastIndex fuel path fileLines i out)
      = option_map
          (fun es => es ++ flat_map (eventsOf lastIndex path)
                             (entriesLoop fuel fileLines i))
          (events out)
    /\ notices (eventsLoop lastIndex fuel path fileLines i out)
       = notices out.
Proof.
  assert (Hpush : forall prefix i e out,
    events (pushEvent prefix
              (convertToEvent (parseLine lastIndex e) i path) out)
      = option_map (fun es => es ++ eventsOf lastIndex path (i, e))
                   (events out)
    /\ notices (pushEvent prefix
                  (convertToEvent (parseLine lastIndex e) i path) out)
       = notices out).
  { intros prefix i e out. unfold eventsOf. cbn [fst snd].
    rewrite convertToEvent_cases.
    destruct (dates (parseLine lastIndex e)); cbn;
      destruct (events out); cbn; rewrite ?app_nil_r; auto. }
  induction fuel as [|fuel IH]; intros i out; cbn [eventsLoop entriesLoop].
  - cbn. destruct (events out); cbn; rewrite ?app_nil_r; auto.
  - destruct (nth_error fileLines i) as [line|].
    2:{ cbn. destruct (events out); cbn; rewrite ?app_nil_r; auto. }
    destruct (isChecklistLine line).
    + destruct (readListEntry fileLines i line) as [entry next].
      destruct (IH next (pushEvent
                  (str "Got error when converting list to event: ")
                  (convertToEvent (parseLine lastIndex entry) i path) out))
        as [He Hn].
      destruct (Hpush (str "Got error when converting list to event: ")
                      i entry out) as [He' Hn'].
      rewrite He, Hn, He', Hn'. split; [|reflexivity].
      destruct (events out); cbn [option_map flat_map]; [|reflexivity].
      rewrite app_assoc. reflexivity.
    + destruct (IH (S i) (pushEvent
                  (str "Got error when converting line to event: ")
                  (convertToEvent
                     (parseLine lastIndex {| header := []; body := line |})
                     i path) out))
        as [He Hn].
      destruct (Hpush (str "Got error when converting line to event: ")
                      i {| header := []; body := line |} out) as [He' Hn'].
      rewrite He, Hn, He', Hn'. split; [|reflexivity].
      destruct (events out); cbn [option_map flat_map]; [|reflexivity].
      rewrite app_assoc. reflexivity.
Qed.

(** X4. The array that the caller passes receives, after what it held,
    exactly the events that are returned, in the same order; and no
    notice is ever shown, since the conversion of an entry never throws. *)
Theorem getEventsFromFile_side_effects
  (lastIndex : nat) (path : jsstring) (fileLines : list jsstring)
  (events0 : option (list Model.Event)) :
  events (getEventsFromFile lastIndex path fileLines events0)
    = option_map
        (fun es =>
           es ++ result (getEventsFromFile lastIndex path fileLines events0))
        events0
  /\ notices (getEventsFromFile lastIndex path fileLines events0) = [].
Proof.
  rewrite getEventsFromFile_lineGrouper. unfold getEventsFromFile, lineGrouper.
  destruct (eventsLoop_side_effects lastIndex path fileLines
              (length fileLines) 0
              {| result := []; events := events0; notices := [] |})
    as [He Hn].
  rewrite He, Hn. split; reflexivity.
Qed.

Lemma noAt_app (a b : jsstring) :
  noAt (a ++ b) = noAt a && noAt b.
Proof. unfold noAt. apply forallb_app. Qed.

Lemma noAt_dropWhile (p : char -> bool) (s : jsstring) :
  noAt s = true -> noAt (dropWhile p s) = true.
Proof.
  induction s as [|c t IH]; intros H; [reflexivity|]. cbn [dropWhile].
  destruct (p c); [|exact H].
  apply IH. cbn in H. apply andb_true_iff in H. apply H.
Qed.

Lemma noAt_rev (s : jsstring) : noAt (rev s) = noAt s.
Proof.
  induction s as [|c t IH]; [reflexivity|].
  cbn [rev]. rewrite noAt_app, IH. cbn. rewrite andb_true_r.
  apply andb_comm.
Qed.

Lemma noAt_trim (s : jsstring) : noAt s = true -> noAt (trim s) = true.
Proof.
  intros H. unfold trim, trimEnd, trimStart.
  rewrite noAt_rev. apply noAt_dropWhile.
  rewrite noAt_rev. apply noAt_dropWhile. exact H.
Qed.

Lemma noAt_join (l : list jsstring) :
  forallb noAt l = true -> noAt (join newline l) = true.
Proof.
  induction l as [|x l IH]; intros H; [reflexivity|].
  cbn [forallb] in H. apply andb_true_iff in H. destruct H as [Hx Hl].
  cbn [join]. destruct l as [|y l]; [exact Hx|].
  rewrite !noAt_app, Hx, (IH Hl). reflexivity.
Qed.

Lemma collectBody_noAt (rest : list jsstring) :
  forall n acc,
    forallb noAt rest = true -> forallb noAt acc = true ->
    forallb noAt (fst (collectBody rest n acc)) = true.
Proof.
  induction rest as [|l rest IH]; intros n acc Hrest Hacc;
    cbn [collectBody]; [exact Hacc|].
  cbn [forallb] in Hrest. apply andb_true_iff in Hrest.
  destruct Hrest as [Hl Hrest].
  destruct (isBodyLine l); [|exact Hacc].
  apply IH; [exact Hrest|].
  rewrite forallb_app, Hacc. cbn. rewrite (noAt_trim l Hl). reflexivity.
Qed.

Lemma forallb_skipn (A : Type) (p : A -> bool) (n : nat) (l : list A) :
  forallb p l = true -> forallb p (skipn n l) = true.
Proof.
  revert l. induction n as [|n IH]; intros [|a l] H; cbn; auto.
  apply IH. cbn in H. apply andb_true_iff in H. apply H.
Qed.

Lemma entryAt_body_noAt (fileLines : list jsstring) (i : nat)
      (line : jsstring) :
  forallb noAt fileLines = true -> nth_error fileLines i = Some line ->
  noAt (body (entryAt fileLines i line)) = true.
Proof.
  intros Hall Hline. unfold entryAt.
  destruct (isChecklistLine line).
  - unfold readListEntry.
    pose proof (collectBody_noAt (skipn (i + 1) fileLines) (i + 1) []
                  (forallb_skipn _ noAt _ _ Hall) eq_refl) as H.
    destruct (collectBody (skipn (i + 1) fileLines) (i + 1) [])
      as [bodyLines next].
    cbn [fst body] in *. apply noAt_join. exact H.
  - cbn [body]. rewrite forallb_forall in Hall. apply Hall.
    eapply nth_error_In. exact Hline.
Qed.

(** X5. A note without any ["@"] gives no event, whatever its lines are
    and wherever the cursor of the shared date pattern stands. *)
Theorem getEventsFromFile_no_annotation
  (lastIndex : nat) (path : jsstring) (fileLines : list jsstring)
  (events0 : option (list Model.Event))
  (Hnone : forallb noAt fileLines = true) :
  result (getEventsFromFile lastIndex path fileLines events0) = [].
Proof.
  rewrite getEventsFromFile_lineGrouper.
  assert (H : forall entry, In entry (lineGrouper fileLines) ->
                            eventsOf lastIndex path entry = []).
  { intros [i e] Hin. rewrite eventsOf_cases.
    destruct (entriesLoop_entryAt fileLines _ _ _ _ Hin) as [line [Hl ->]].
    rewrite extractDates_noAt; [reflexivity|].
    apply entryAt_body_noAt; assumption. }
  induction (lineGrouper fileLines) as [|entry l IH]; [reflexivity|].
  cbn [flat_map]. rewrite (H entry) by (left; reflexivity).
  apply IH. intros entry' Hin. apply H. right. exact Hin.
Qed.

(** The entries from [i] on start at increasing indices, from [i] to the
    end of the note. *)
Lemma entriesLoop_indices (fileLines : list jsstring) :
  forall fuel i,
    StronglySorted lt (map fst (entriesLoop fuel fileLines i))
    /\ Forall (fun j => i <= j < length fileLines)
              (map fst (entriesLoop fuel fileLines i)).
Proof.
  induction fuel as [|fuel IH]; intros i.
  - split; constructor.
  - rewrite entriesLoop_step.
    destruct (nth_error fileLines i) as [line|] eqn:Hi;
      [|split; constructor].
    pose proof (nextAt_bounds _ _ _ Hi) as Hn.
    destruct (IH (nextAt fileLines i line)) as [Hsorted Hrange].
    cbn [map fst]. split.
    + constructor; [exact Hsorted|].
      eapply Forall_impl; [|exact Hrange]. cbn. intros j Hj. lia.
    + constructor; [lia|].
      eapply Forall_impl; [|exact Hrange]. cbn. intros j Hj. lia.
Qed.

(** X6. The entries of a note start at strictly increasing line indices,
    all inside the note: the lines are read in order and no line starts
    two entries. *)
Theorem lineGrouper_indices_increasing (fileLines : list jsstring) :
  StronglySorted lt (map fst (lineGrouper fileLines))
  /\ Forall (fun j => j < length fileLines) (map fst (lineGrouper fileLines)).
Proof.
  destruct (entriesLoop_indices fileLines (length fileLines) 0)
    as [Hsorted Hrange].
  split; [exact Hsorted|].
  eapply Forall_impl; [|exact Hrange]. cbn. intros j Hj. lia.
Qed.

Lemma collectBody_run (rest : list jsstring) :
  forall n acc,
    exists k,
      collectBody rest n acc = (acc ++ map trim (firstn k rest), n + k)
      /\ forallb isBodyLine (firstn k rest) = true
      /\ match nth_error rest k with
         | Some x => isBodyLine x = false
         | None => True
         end.
Proof.
  induction rest as [|l rest IH]; intros n acc; cbn [collectBody].
  - exists 0. cbn. rewrite app_nil_r, Nat.add_0_r. auto.
  - destruct (isBodyLine l) eqn:Hl.
    + destruct (IH (S n) (acc ++ [trim l])) as [k [Heq [Hall Hstop]]].
      exists (S k). cbn [firstn map forallb nth_error].
      rewrite Heq, Hl, Hall, <- app_assoc. cbn [app].
      replace (S n + k) with (n + S k) by lia. auto.
    + exists 0. cbn. rewrite app_nil_r, Nat.add_0_r, Hl. auto.
Qed.

(** The entry read at a checklist line, by the run of body lines below. *)
Lemma readListEntry_run
  (fileLines : list jsstring) (i : nat) (line : jsstring) :
  isChecklistLine line = true ->
  exists k,
    entryAt fileLines i line
      = {| header := trim (replace CHECKLIST_PREFIX [] line);
           body := join newline
                     (map trim (firstn k (skipn (i + 1) fileLines))) |}
    /\ nextAt fileLines i line = i + 1 + k
    /\ forallb isBodyLine (firstn k (skipn (i + 1) fileLines)) = true
    /\ match nth_error fileLines (i + 1 + k) with
       | Some x => isBodyLine x = false
       | None => True
       end.
Proof.
  intros Hchecklist.
  destruct (collectBody_run (skipn (i + 1) fileLines) (i + 1) [])
    as [k [Heq [Hall Hstop]]].
  exists k. rewrite nth_error_skipn in Hstop.
  split; [|split; [|split]]; try assumption.
  - unfold entryAt, readListEntry. rewrite Hchecklist, Heq. reflexivity.
  - unfold nextAt, readListEntry. rewrite Hchecklist, Heq. reflexivity.
Qed.

(** X7. The entry of a checklist line: its header is the line without
    marker and checkbox, trimmed; its body is the longest run of body
    lines right below it (indented lines that are no checklist lines),
    each trimmed, joined by line feeds; the loop goes on right after that
    run. *)
Theorem checklist_entry_body_run
  (fileLines : list jsstring) (i : nat) (line : jsstring)
  (Hline : nth_error fileLines i = Some line)
  (Hchecklist : isChecklistLine line = true) :
  exists k,
    entryAt fileLines i line
      = {| header := trim (replace CHECKLIST_PREFIX [] line);
           body := join newline
                     (map trim (firstn k (skipn (i + 1) fileLines))) |}
    /\ nextAt fileLines i line = i + 1 + k
    /\ forallb isBodyLine (firstn k (skipn (i + 1) fileLines)) = true
    /\ match nth_error fileLines (i + 1 + k) with
       | Some x => isBodyLine x = false
       | None => True
       end
    /\ In (i, entryAt fileLines i line) (lineGrouper fileLines).
Proof.
  destruct (readListEntry_run fileLines i line Hchecklist)
    as [k [He [Hn [Hall Hstop]]]].
  exists k. repeat split; try assumption.
  apply lineGrouper_entry; [exact Hline|].
  left. apply checklist_not_body. exact Hchecklist.
Qed.

Lemma nth_error_firstn_skipn (A : Type) (l : list A) (a k j : nat) (x : A) :
  a <= j -> j < a + k -> nth_error l j = Some x ->
  In x (firstn k (skipn a l)).
Proof.
  intros Haj Hjk Hx.
  apply (nth_error_In _ (j - a)).
  rewrite nth_error_firstn.
  destruct (Nat.ltb_spec (j - a) k) as [_|Hge]; [|lia].
  rewrite nth_error_skipn. replace (a + (j - a)) with j by lia. exact Hx.
Qed.

(** Every line from [i] on starts an entry or lies in the body of a
    checklist entry that starts at or after [i]. *)
Lemma entriesFrom_cover (fileLines : list jsstring) (j : nat) (x : jsstring) :
  nth_error fileLines j = Some x ->
  forall gap i, j = i + gap ->
    In (j, entryAt fileLines j x) (entriesFrom fileLines i)
    \/ (isBodyLine x = true
        /\ exists i0 l0,
             i <= i0 /\ i0 < j /\ j < nextAt fileLines i0 l0
             /\ nth_error fileLines i0 = Some l0
             /\ isChecklistLine l0 = true
             /\ In (i0, entryAt fileLines i0 l0) (entriesFrom fileLines i)).
Proof.
  intros Hj gap.
  induction gap as [gap IH] using lt_wf_ind. intros i Hgap.
  assert (Hjlt : j < length fileLines)
    by (apply nth_error_Some; congruence).
  destruct (nth_error fileLines i) as [line|] eqn:Hline;
    [|apply nth_error_None in Hline; lia].
  rewrite (entriesFrom_step _ _ _ Hline).
  destruct gap as [|gap].
  - left. left. replace j with i in * by lia.
    assert (x = line) by congruence. subst. reflexivity.
  - pose proof (nextAt_bounds _ _ _ Hline) as Hn.
    destruct (Nat.lt_ge_cases j (nextAt fileLines i line)) as [Hin | Hout].
    + right. destruct (isChecklistLine line) eqn:Hc.
      2:{ unfold nextAt in Hin. rewrite Hc in Hin. lia. }
      destruct (readListEntry_run fileLines i line Hc)
        as [k [_ [Hnext [Hall _]]]].
      split.
      * rewrite forallb_forall in Hall. apply Hall.
        apply (nth_error_firstn_skipn _ fileLines (i + 1) k j x);
          [lia | lia | exact Hj].
      * exists i, line. repeat split; try assumption; try lia.
        left. reflexivity.
    + destruct (IH (j - nextAt fileLines i line) ltac:(lia)
                   (nextAt fileLines i line) ltac:(lia))
        as [Hstart | [Hbody [i0 [l0 [H1 [H2 [H3 [H4 [H5 H6]]]]]]]]].
      * left. right. exact Hstart.
      * right. split; [exact Hbody|].
        exists i0, l0. repeat split; try assumption; try lia.
        right. exact H6.
Qed.

(** X8. No line of a note is dropped: every line either starts an entry
    of its own, or it is a body line (indented, no checklist line) that
    lies in the body of a checklist entry above it. *)
Theorem lineGrouper_covers_every_line
  (fileLines : list jsstring) (j : nat) (x : jsstring)
  (Hj : nth_error fileLines j = Some x) :
  In (j, entryAt fileLines j x) (lineGrouper fileLines)
  \/ (isBodyLine x = true
      /\ exists i0 l0,
           i0 < j /\ j < nextAt fileLines i0 l0
           /\ nth_error fileLines i0 = Some l0
           /\ isChecklistLine l0 = true
           /\ In (i0, entryAt fileLines i0 l0) (lineGrouper fileLines)).
Proof.
  rewrite lineGrouper_entriesFrom.
  destruct (entriesFrom_cover fileLines j x Hj j 0 eq_refl)
    as [H | [Hb [i0 [l0 [_ [H2 [H3 [H4 [H5 H6]]]]]]]]].
  - left. exact H.
  - right. split; [exact Hb|]. exists i0, l0. auto.
Qed.

(** ** Lines with another marker than ["-"] *)

Lemma StronglySorted_before (l1 l2 : list nat) (x : nat) :
  StronglySorted lt (l1 ++ x :: l2) ->
  Forall (fun y => y < x) l1.
Proof.
  induction l1 as [|a l1 IH]; intros Hsorted; [constructor|].
  cbn [app] in Hsorted. apply StronglySorted_inv in Hsorted.
  destruct Hsorted as [Hsorted Hlt]. constructor; [|exact (IH Hsorted)].
  rewrite Forall_forall in Hlt. apply Hlt. apply in_elt.
Qed.

(** No entry starts between an entry's line and the line at which the
    loop goes on after it. *)
Lemma lineGrouper_no_entry_inside
      (fileLines : list jsstring) (i0 : nat) (l0 : jsstring) :
  nth_error fileLines i0 = Some l0 -> isBodyLine l0 = false ->
  forall j e,
    i0 < j -> j < nextAt fileLines i0 l0 ->
    ~ In (j, e) (lineGrouper fileLines).
Proof.
  intros Hl0 Hnot j e Hlo Hhi Hin.
  pose proof (entriesLoop_indices fileLines (length fileLines) 0)
    as [Hsorted _].
  change (entriesLoop (length fileLines) fileLines 0)
    with (lineGrouper fileLines) in Hsorted.
  rewrite lineGrouper_entriesFrom in Hsorted, Hin.
  destruct (entriesFrom_reach fileLines i0 l0 Hl0 Hnot i0 0 eq_refl)
    as [before Hbefore].
  rewrite Hbefore, (entriesFrom_step fileLines i0 l0 Hl0) in Hsorted, Hin.
  apply in_app_or in Hin. destruct Hin as [Hin | [Heq | Hin]].
  - rewrite map_app in Hsorted. cbn [map fst] in Hsorted.
    apply StronglySorted_before in Hsorted.
    rewrite Forall_forall in Hsorted.
    specialize (Hsorted j (in_map fst _ _ Hin)). cbn in Hsorted. lia.
  - injection Heq as Heq _. lia.
  - pose proof (entriesLoop_indices fileLines
                  (length fileLines - nextAt fileLines i0 l0)
                  (nextAt fileLines i0 l0)) as [_ Hrange].
    rewrite Forall_forall in Hrange.
    specialize (Hrange j (in_map fst _ _ Hin)). cbn in Hrange. lia.
Qed.

(** A line that follows a checklist line with body lines only in between,
    itself a body line, belongs to the run of body lines of that
    checklist line's entry. *)
Lemma readListEntry_run_covers
      (fileLines : list jsstring) (i0 i : nat) (l0 line : jsstring) :
  isChecklistLine l0 = true ->
  nth_error fileLines i = Some line -> i0 < i ->
  (forall j x, i0 < j -> j <= i ->
               nth_error fileLines j = Some x -> isBodyLine x = true) ->
  exists k,
    i - i0 <= k
    /\ entryAt fileLines i0 l0
       = {| header := trim (replace CHECKLIST_PREFIX [] l0);
            body := join newline
                      (map trim (firstn k (skipn (i0 + 1) fileLines))) |}
    /\ nextAt fileLines i0 l0 = i0 + 1 + k
    /\ nth_error (map trim (firstn k (skipn (i0 + 1) fileLines)))
                 (i - i0 - 1)
       = Some (trim line).
Proof.
  intros Hcheck Hline Hlt Hbody.
  destruct (readListEntry_run fileLines i0 l0 Hcheck)
    as [k [Hentry [Hnext [_ Hstop]]]].
  assert (Hk : i - i0 <= k).
  { destruct (Nat.le_gt_cases (i - i0) k) as [Hle | Hgt]; [exact Hle|].
    exfalso.
    assert (Hlen : i < length fileLines)
      by (apply nth_error_Some; rewrite Hline; discriminate).
    destruct (nth_error fileLines (i0 + 1 + k)) as [x|] eqn:Hx.
    - rewrite (Hbody (i0 + 1 + k) x) in Hstop by (lia || exact Hx).
      discriminate.
    - apply nth_error_None in Hx. lia. }
  exists k. split; [exact Hk|]. split; [exact Hentry|].
  split; [exact Hnext|].
  rewrite nth_error_map, nth_error_firstn.
  replace (i - i0 - 1 <? k) with true by (symmetry; apply Nat.ltb_lt; lia).
  rewrite nth_error_skipn.
  replace (i0 + 1 + (i - i0 - 1)) with i by lia.
  rewrite Hline. reflexivity.
Qed.

(** C10, as the code has it. The checklist lines of the loop are the lines
    made of white space or none, ["-"], white space, ["["], one character
    that is no line terminator, ["]"], and any text. A line on which
    [PATTERNS.TASK] matches with a marker other than ["-"] is no checklist
    line for the loop. Wherever
    the loop reads it as the current line, its entry has an empty header
    and the whole line as body, and the content is that line without the
    due dates found in it, trimmed. The loop does read it as the current
    line when it is the first line or is not indented. When it is
    indented and follows a checklist line with nothing but body lines in
    between, no entry starts at it: the loop goes on after it, and its
    trimmed text is one of the lines of the body of that checklist line's
    entry. *)
Theorem other_marker_is_plain_entry
  (lastIndex : nat) (fileLines : list jsstring) (i : nat)
  (line : jsstring) (m : rmatch)
  (Hline : nth_error fileLines i = Some line)
  (Htask : exec PATTERNS.TASK line = Some m)
  (Hmarker : jseqb (group m 2) (str "-") = false) :
  (forall l,
     isChecklistLine l = true <->
     exists ws ws' c rest,
       l = ws ++ ch "-" :: ws' ++ ch "[" :: c :: ch "]" :: rest
       /\ forallb isSpace ws = true
       /\ ws' <> [] /\ forallb isSpace ws' = true
       /\ isDot c = true)
  /\ isChecklistLine line = false
  /\ (forall e,
        In (i, e) (lineGrouper fileLines) ->
        e = {| header := []; body := line |}
        /\ content (parseLine lastIndex e)
           = trim (removeDates line (extractDates lastIndex line)))
  /\ (i = 0 \/ test INDENTED line = false ->
      In (i, {| header := []; body := line |}) (lineGrouper fileLines))
  /\ (forall i0 l0,
        nth_error fileLines i0 = Some l0 ->
        isChecklistLine l0 = true ->
        i0 < i ->
        (forall j x, i0 < j -> j < i ->
                     nth_error fileLines j = Some x -> isBodyLine x = true) ->
        test INDENTED line = true ->
        (forall e, ~ In (i, e) (lineGrouper fileLines))
        /\ exists k,
             i - i0 <= k
             /\ In (i0,
                    {| header := trim (replace CHECKLIST_PREFIX [] l0);
                       body := join newline
                                 (map trim
                                    (firstn k (skipn (i0 + 1) fileLines))) |})
                   (lineGrouper fileLines)
             /\ nth_error (map trim (firstn k (skipn (i0 + 1) fileLines)))
                          (i - i0 - 1)
                = Some (trim line)).
Proof.
  assert (Hnot : isChecklistLine line = false).
  { apply (TASK_other_marker_not_checklist line m Htask).
    intros Heq. apply jseqb_eq in Heq. congruence. }
  assert (Hentry : entryAt fileLines i line = {| header := []; body := line |})
    by (unfold entryAt; rewrite Hnot; reflexivity).
  split; [intros l; rewrite isChecklistLine_shape; apply checklistShape_spec|].
  split; [exact Hnot|]. split; [|split].
  - intros e Hin.
    rewrite (lineGrouper_entryAt _ _ _ _ Hline Hin), Hentry.
    split; reflexivity.
  - intros Hreach. rewrite <- Hentry.
    apply lineGrouper_entry; [exact Hline|].
    destruct Hreach as [-> | Hind]; [right; reflexivity|].
    left. unfold isBodyLine. rewrite Hind. reflexivity.
  - intros i0 l0 Hl0 Hcheck Hlt Hbetween Hind.
    assert (Hbody : forall j x, i0 < j -> j <= i ->
                      nth_error fileLines j = Some x -> isBodyLine x = true).
    { intros j x Hlo Hhi Hx.
      destruct (Nat.eq_dec j i) as [-> | Hne].
      - rewrite Hline in Hx. injection Hx as <-.
        unfold isBodyLine. unfold isChecklistLine in Hnot.
        rewrite Hind, Hnot. reflexivity.
      - apply (Hbetween j x); [exact Hlo | lia | exact Hx]. }
    destruct (readListEntry_run_covers fileLines i0 i l0 line
                Hcheck Hline Hlt Hbody)
      as [k [Hk [Hrun [Hnext Hnth]]]].
    split.
    + intros e.
      apply (lineGrouper_no_entry_inside fileLines i0 l0 Hl0
               (checklist_not_body l0 Hcheck) i e Hlt).
      rewrite Hnext. lia.
    + exists k. split; [exact Hk|]. split; [|exact Hnth].
      rewrite <- Hrun. apply lineGrouper_entry; [exact Hl0|].
      left. apply checklist_not_body. exact Hcheck.
Qed.

(** ** Digits and decimal numerals *)

Lemma isDigit_In (c : char) : isDigit c = true -> In c digitChars.
Proof.
  unfold isDigit. rewrite andb_true_iff, !N.leb_le. intros [Hlo Hhi].
  unfold digitChars. apply in_map_iff. exists (N.to_nat c).
  split; [apply N2Nat.id|]. apply in_seq. lia.
Qed.

Lemma isDigit_not_dash (c : char) :
  isDigit c = true -> char_eqb c (ch "-") = false.
Proof.
  unfold isDigit, char_eqb. rewrite andb_true_iff, !N.leb_le.
  intros [Hlo Hhi]. change (ch "-") with 45%N. apply N.eqb_neq. lia.
Qed.

(** Four digits, read as a number and written back on four places. *)
Lemma pad4_number (a b c d : char) :
  isDigit a = true -> isDigit b = true -> isDigit c = true ->
  isDigit d = true ->
  Moment.pad 4 (Moment.number 0 [a; b; c; d]) = [a; b; c; d].
Proof.
  intros Ha Hb Hc Hd.
  assert (Hall :
    forallb (fun a => forallb (fun b => forallb (fun c => forallb (fun d =>
      jseqb (Moment.pad 4 (Moment.number 0 [a; b; c; d])) [a; b; c; d])
      digitChars) digitChars) digitChars) digitChars = true)
    by (vm_compute; reflexivity).
  rewrite forallb_forall in Hall.
  specialize (Hall a (isDigit_In a Ha)). rewrite forallb_forall in Hall.
  specialize (Hall b (isDigit_In b Hb)). rewrite forallb_forall in Hall.
  specialize (Hall c (isDigit_In c Hc)). rewrite forallb_forall in Hall.
  specialize (Hall d (isDigit_In d Hd)).
  apply jseqb_eq. exact Hall.
Qed.

Lemma pad2_number (a b : char) :
  isDigit a = true -> isDigit b = true ->
  Moment.pad 2 (Moment.number 0 [a; b]) = [a; b].
Proof.
  intros Ha Hb.
  assert (Hall :
    forallb (fun a => forallb (fun b =>
      jseqb (Moment.pad 2 (Moment.number 0 [a; b])) [a; b])
      digitChars) digitChars = true)
    by (vm_compute; reflexivity).
  rewrite forallb_forall in Hall.
  specialize (Hall a (isDigit_In a Ha)). rewrite forallb_forall in Hall.
  specialize (Hall b (isDigit_In b Hb)).
  apply jseqb_eq. exact Hall.
Qed.

Lemma str_inj (a b : string) : str a = str b -> a = b.
Proof.
  unfold str. intros H.
  rewrite <- (string_of_list_ascii_of_string a),
    <- (string_of_list_ascii_of_string b).
  f_equal. revert H.
  generalize (list_ascii_of_string a) (list_ascii_of_string b).
  induction l as [|x l IH]; intros [|y l'] H; try discriminate;
    [reflexivity|].
  cbn [map] in H. injection H as Hxy Hl.
  f_equal; [|apply IH; exact Hl].
  unfold ch in Hxy.
  rewrite <- (ascii_N_embedding x), <- (ascii_N_embedding y), Hxy.
  reflexivity.
Qed.

(** The decimal text of a line index names one index only. *)
Lemma ofNat_inj (i j : nat) : ofNat i = ofNat j -> i = j.
Proof.
  unfold ofNat. intros H. apply str_inj in H.
  apply DecimalNat.Unsigned.to_uint_inj.
  pose proof (NilEmpty.usu (Nat.to_uint i)) as Hi.
  pose proof (NilEmpty.usu (Nat.to_uint j)) as Hj.
  rewrite H in Hi. congruence.
Qed.

Lemma app_same_length_inj (A : Type) (a a' b b' : list A) :
  length a = length a' -> a ++ b = a' ++ b' -> a = a' /\ b = b'.
Proof.
  revert a'. induction a as [|x a IH]; intros [|y a'] Hlen H;
    try discriminate; [auto|].
  cbn [app] in H. injection H as -> H. cbn [length] in Hlen.
  destruct (IH a' ltac:(lia) H) as [-> ->]. auto.
Qed.

(** ** The cursor of the shared date pattern *)

Lemma starK_shift (p : char -> bool) (d : nat) (k1 k2 : cont)
      (Hk : forall st, k2 (shiftState d st) = option_map (shiftState d) (k1 st))
      (caps : list jsstring) :
  forall s pos,
    starK p k2 (pos + d) caps s
      = option_map (shiftState d) (starK p k1 pos caps s).
Proof.
  induction s as [|c t IH]; intros pos; cbn [starK].
  - apply (Hk (MState pos [] caps)).
  - destruct (p c).
    + change (S (pos + d)) with (S pos + d). rewrite (IH (S pos)).
      destruct (starK p k1 (S pos) caps t); [reflexivity|].
      apply (Hk (MState pos (c :: t) caps)).
    + apply (Hk (MState pos (c :: t) caps)).
Qed.

(** A pattern without ["^"] matches the same way wherever the input
    stands: moving the start index moves the indices of the result. *)
Lemma matchK_shift (d : nat) (r : regex) :
  noBol r = true ->
  forall (k1 k2 : cont),
    (forall st, k2 (shiftState d st) = option_map (shiftState d) (k1 st)) ->
    forall st,
      matchK r (shiftState d st) k2
        = option_map (shiftState d) (matchK r st k1).
Proof.
  induction r as [ | c | p | r1 IH1 r2 IH2 | r1 IH1 r2 IH2 | p | r1 IH1
                 | r1 IH1 | | ];
    intros Hno k1 k2 Hk st; cbn [noBol] in Hno; cbn [matchK].
  - apply Hk.
  - cbn [shiftState mrest mpos mcaps].
    destruct (mrest st) as [|x t]; [reflexivity|].
    destruct (char_eqb x c); [|reflexivity].
    apply (Hk (MState (S (mpos st)) t (mcaps st))).
  - cbn [shiftState mrest mpos mcaps].
    destruct (mrest st) as [|x t]; [reflexivity|].
    destruct (p x); [|reflexivity].
    apply (Hk (MState (S (mpos st)) t (mcaps st))).
  - apply andb_true_iff in Hno. destruct Hno as [H1 H2].
    apply (IH1 H1). intros st'. apply (IH2 H2). exact Hk.
  - apply andb_true_iff in Hno. destruct Hno as [H1 H2].
    rewrite (IH1 H1 k1 k2 Hk), (IH2 H2 k1 k2 Hk).
    destruct (matchK r1 st k1); reflexivity.
  - cbn [shiftState mrest mpos mcaps]. apply starK_shift. exact Hk.
  - rewrite (IH1 Hno k1 k2 Hk), (Hk st).
    destruct (matchK r1 st k1); reflexivity.
  - apply (IH1 Hno). intros st'.
    cbn [shiftState mrest mpos mcaps].
    replace (mpos st' + d - (mpos st + d)) with (mpos st' - mpos st) by lia.
    apply (Hk (MState (mpos st') (mrest st')
                 (mcaps st' ++ [firstn (mpos st' - mpos st) (mrest st)]))).
  - discriminate.
  - cbn [shiftState mrest]. destruct (mrest st); [apply Hk | reflexivity].
Qed.

Lemma execFrom_shift (d : nat) (r : regex) (Hno : noBol r = true) :
  forall s pos,
    execFrom r (pos + d) s = option_map (shiftMatch d) (execFrom r pos s).
Proof.
  induction s as [|c t IH]; intros pos; cbn [execFrom].
  - change (MState (pos + d) [] []) with (shiftState d (MState pos [] [])).
    rewrite (matchK_shift d r Hno Some Some (fun st => eq_refl)
                          (MState pos [] [])).
    destruct (matchK r (MState pos [] []) Some) as [st|]; [|reflexivity].
    cbn [option_map shiftState shiftMatch mpos mrest mcaps index matched
         groups endIndex after].
    replace (mpos st + d - (pos + d)) with (mpos st - pos) by lia.
    reflexivity.
  - change (MState (pos + d) (c :: t) [])
      with (shiftState d (MState pos (c :: t) [])).
    rewrite (matchK_shift d r Hno Some Some (fun st => eq_refl)
                          (MState pos (c :: t) [])).
    destruct (matchK r (MState pos (c :: t) []) Some) as [st|].
    + cbn [option_map shiftState shiftMatch mpos mrest mcaps index matched
           groups endIndex after].
      replace (mpos st + d - (pos + d)) with (mpos st - pos) by lia.
      reflexivity.
    + change (S (pos + d)) with (S pos + d). apply (IH (S pos)).
Qed.

Lemma matchAllFrom_shift (d : nat) (r : regex) (Hno : noBol r = true) :
  forall fuel s pos,
    matchAllFrom fuel r (pos + d) s
      = map (shiftMatch d) (matchAllFrom fuel r pos s).
Proof.
  induction fuel as [|fuel IH]; intros s pos; [reflexivity|].
  cbn [matchAllFrom]. rewrite (execFrom_shift d r Hno).
  destruct (execFrom r pos s) as [m|]; [|reflexivity].
  cbn [option_map map]. f_equal.
  cbn [shiftMatch index endIndex after].
  replace (Nat.eqb (endIndex m + d) (index m + d))
    with (Nat.eqb (endIndex m) (index m)).
  2:{ destruct (Nat.eqb_spec (endIndex m) (index m));
      symmetry; [apply Nat.eqb_eq | apply Nat.eqb_neq]; lia. }
  destruct (Nat.eqb (endIndex m) (index m)).
  - destruct (after m) as [|x t]; [reflexivity|].
    change (S (endIndex m + d)) with (S (endIndex m) + d).
    apply (IH t (S (endIndex m))).
  - apply IH.
Qed.

Lemma extractDates_from_cursor (lastIndex : nat) (line : jsstring) :
  extractDates lastIndex line = extractDates 0 (skipn lastIndex line).
Proof.
  unfold extractDates, matchAll. cbn [Nat.leb skipn].
  destruct (Nat.leb_spec lastIndex (length line)) as [Hle | Hgt].
  - pose proof (matchAllFrom_shift lastIndex PATTERNS.DUE_DATE eq_refl
                  (S (length line)) (skipn lastIndex line) 0) as Hshift.
    cbn [Nat.add] in Hshift. rewrite Hshift.
    rewrite map_map. cbn [shiftMatch matched groups group].
    f_equal. apply matchAllFrom_fuel; rewrite length_skipn; lia.
  - rewrite skipn_all2 by lia. reflexivity.
Qed.

(** X12. The date pattern is one shared object with a cursor; when the
    cursor stands at [lastIndex], the dates found in a line are exactly
    the dates of the line from that index on: what lies before the cursor
    is not read, and a cursor at or beyond the end of the line gives no
    date at all. *)
Theorem extractDates_skips_before_cursor (lastIndex : nat) (line : jsstring) :
  extractDates lastIndex line = extractDates 0 (skipn lastIndex line)
  /\ (Nat.leb (length line) lastIndex = true ->
      extractDates lastIndex line = []).
Proof.
  split; [apply extractDates_from_cursor|].
  intros Hbeyond. apply Nat.leb_le in Hbeyond.
  rewrite extractDates_from_cursor, skipn_all2 by exact Hbeyond.
  reflexivity.
Qed.

(** ** What the date pattern matches *)

Ltac peel H :=
  match type of H with
  | match ?l with [] => None | _ :: _ => _ end = Some _ =>
      destruct l as [|? ?]; [discriminate H|]
  | (if ?b then _ else None) = Some _ =>
      destruct b eqn:?; [|discriminate H]
  end.

Lemma DUE_DATE_annotation_inv (pos : nat) (caps : list jsstring)
      (s : jsstring) (st : mstate) :
  matchK DUE_DATE_annotation (MState pos s caps) Some = Some st ->
  exists dt rest,
    s = str "@{" ++ dt ++ str "}" ++ rest
    /\ isDateText dt = true
    /\ st = MState (pos + 13) rest (caps ++ [dt]).
Proof.
  unfold DUE_DATE_annotation, Cat.
  cbn [fold_right matchK mrest mpos mcaps Repeat].
  intros H. repeat peel H.
  replace (S (S (S (S (S (S (S (S (S (S (S (S pos))))))))))) - S (S pos))
    with 10 in H by lia.
  cbn [firstn] in H. injection H as <-.
  repeat match goal with
         | E : char_eqb _ _ = true |- _ => apply N.eqb_eq in E; subst
         end.
  match goal with
  | |- exists dt rest,
         _ :: _ :: ?y1 :: ?y2 :: ?y3 :: ?y4 :: ?s1 :: ?m1 :: ?m2 :: ?s2
           :: ?d1 :: ?d2 :: _ :: ?r = _ /\ _ =>
      exists [y1; y2; y3; y4; s1; m1; m2; s2; d1; d2], r
  end.
  split; [reflexivity|]. split.
  - cbn [isDateText forallb char_eqb].
    repeat match goal with
           | E : isDigit _ = true |- _ => rewrite E; clear E
           end.
    reflexivity.
  - f_equal. lia.
Qed.

(** The match of the date pattern at the start of a text: an optional
    white space, ["@{"], a date text, ["}"]; the group holds the date
    text. *)
Lemma DUE_DATE_inv (pos : nat) (s : jsstring) (st : mstate) :
  matchK PATTERNS.DUE_DATE (MState pos s []) Some = Some st ->
  exists sp dt rest,
    s = sp ++ str "@{" ++ dt ++ str "}" ++ rest
    /\ (sp = [] \/ exists c, sp = [c] /\ isSpace c = true)
    /\ isDateText dt = true
    /\ mcaps st = [dt] /\ mrest st = rest
    /\ mpos st = pos + length sp + 13.
Proof.
  change PATTERNS.DUE_DATE
    with (Seq (Opt (Cls isSpace)) DUE_DATE_annotation).
  cbn [matchK mrest mpos mcaps]. intros H.
  assert (Hcases :
    matchK DUE_DATE_annotation (MState pos s []) Some = Some st
    \/ exists c t, s = c :: t /\ isSpace c = true
         /\ matchK DUE_DATE_annotation (MState (S pos) t []) Some = Some st).
  { destruct s as [|c t]; [left; exact H|].
    destruct (isSpace c) eqn:Hc; [|left; exact H].
    destruct (matchK DUE_DATE_annotation (MState (S pos) t []) Some)
      as [res|] eqn:Hann.
    - right. exists c, t. injection H as ->. auto.
    - left. exact H. }
  destruct Hcases as [Hann | [c [t [-> [Hc Hann]]]]];
    apply DUE_DATE_annotation_inv in Hann;
    destruct Hann as [dt [rest [-> [Hdt ->]]]].
  - exists [], dt, rest. cbn [app length mcaps mrest mpos].
    repeat split; auto; lia.
  - exists [c], dt, rest. cbn [app length mcaps mrest mpos].
    repeat split; auto; [right; exists c; auto | lia].
Qed.

Lemma isDateText_length (dt : jsstring) :
  isDateText dt = true -> length dt = 10.
Proof.
  unfold isDateText.
  do 10 (destruct dt as [|? dt]; [discriminate|]).
  destruct dt; [reflexivity | discriminate].
Qed.

Lemma execFrom_inv (r : regex) :
  forall s pos m,
    execFrom r pos s = Some m ->
    exists pre s' st,
      s = pre ++ s'
      /\ matchK r (MState (pos + length pre) s' []) Some = Some st
      /\ m = RMatch (pos + length pre)
                    (firstn (mpos st - (pos + length pre)) s')
                    (mcaps st) (mpos st) (mrest st).
Proof.
  induction s as [|c t IH]; intros pos m H; cbn [execFrom] in H.
  - destruct (matchK r (MState pos [] []) Some) as [st|] eqn:Hm;
      [|discriminate].
    injection H as <-. exists [], [], st. cbn [app length].
    rewrite Nat.add_0_r. auto.
  - destruct (matchK r (MState pos (c :: t) []) Some) as [st|] eqn:Hm.
    + injection H as <-. exists [], (c :: t), st. cbn [app length].
      rewrite Nat.add_0_r. auto.
    + apply IH in H. destruct H as [pre [s' [st [-> [Hst ->]]]]].
      exists (c :: pre), s', st. cbn [app length].
      replace (pos + S (length pre)) with (S pos + length pre) by lia.
      auto.
Qed.

(** Every match of the date pattern in a text is an annotation that
    stands in the text. *)
Lemma matchAllFrom_DUE_DATE_inv :
  forall fuel pos s m,
    In m (matchAllFrom fuel PATTERNS.DUE_DATE pos s) ->
    exists pre sp dt post,
      s = pre ++ sp ++ str "@{" ++ dt ++ str "}" ++ post
      /\ (sp = [] \/ exists c, sp = [c] /\ isSpace c = true)
      /\ isDateText dt = true
      /\ matched m = sp ++ str "@{" ++ dt ++ str "}"
      /\ groups m = [dt].
Proof.
  induction fuel as [|fuel IH]; intros pos s m Hin; [destruct Hin|].
  cbn [matchAllFrom] in Hin.
  destruct (execFrom PATTERNS.DUE_DATE pos s) as [m0|] eqn:Hexec;
    [|destruct Hin].
  apply execFrom_inv in Hexec.
  destruct Hexec as [pre [s' [st [-> [Hst ->]]]]].
  apply DUE_DATE_inv in Hst.
  destruct Hst as [sp [dt [rest [-> [Hsp [Hdt [Hcaps [Hrest Hpos]]]]]]]].
  pose proof (isDateText_length dt Hdt) as Hlen.
  cbn [index endIndex after] in Hin. rewrite Hrest, Hpos in Hin.
  assert (Hmatched :
    firstn (pos + length pre + length sp + 13 - (pos + length pre))
           (sp ++ str "@{" ++ dt ++ str "}" ++ rest)
      = sp ++ str "@{" ++ dt ++ str "}").
  { replace (pos + length pre + length sp + 13 - (pos + length pre))
      with (length (sp ++ str "@{" ++ dt ++ str "}")).
    - replace (sp ++ str "@{" ++ dt ++ str "}" ++ rest)
        with ((sp ++ str "@{" ++ dt ++ str "}") ++ rest)
        by (rewrite <- !app_assoc; reflexivity).
      generalize (sp ++ str "@{" ++ dt ++ str "}"). intros l.
      rewrite <- (Nat.add_0_r (length l)), firstn_app_2.
      cbn [firstn]. apply app_nil_r.
    - rewrite !length_app, Hlen. cbn [str length map list_ascii_of_string].
      lia. }
  destruct Hin as [<- | Hin].
  - exists pre, sp, dt, rest. cbn [matched groups].
    rewrite Hmatched, Hcaps. auto.
  - assert (Hrec : exists pos' s'',
               In m (matchAllFrom fuel PATTERNS.DUE_DATE pos' s'')
               /\ exists skipped, rest = skipped ++ s'').
    { destruct (Nat.eqb (pos + length pre + length sp + 13)
                        (pos + length pre)).
      - destruct rest as [|x t]; [destruct Hin|].
        eexists; eexists. split; [exact Hin|]. exists [x]. reflexivity.
      - eexists; eexists. split; [exact Hin|]. exists []. reflexivity. }
    destruct Hrec as [pos' [s'' [Hin' [skipped ->]]]].
    apply IH in Hin'.
    destruct Hin' as [pre' [sp' [dt' [post' [-> [Hsp' [Hdt' [Hm Hg]]]]]]]].
    exists (pre ++ sp ++ str "@{" ++ dt ++ str "}" ++ skipped ++ pre'),
      sp', dt', post'.
    repeat split; try assumption.
    rewrite <- !app_assoc. reflexivity.
Qed.

(** X13. Every date that [extractDates] returns is an annotation that
    stands in the line: its raw match is ["@{"], a date text of the shape
    [dddd-dd-dd] and ["}"], with at most one white-space character in
    front; its date is that date text and its moment is the moment of
    that text. *)
Theorem extractDates_sound
  (lastIndex : nat) (line : jsstring) (n : nat) (d : DateInfo)
  (Hnth : nth_error (extractDates lastIndex line) n = Some d) :
  exists pre sp post,
    line = pre ++ sp ++ str "@{" ++ date d ++ str "}" ++ post
    /\ (sp = [] \/ exists c, sp = [c] /\ isSpace c = true)
    /\ isDateText (date d) = true
    /\ rawMatch d = Some (sp ++ str "@{" ++ date d ++ str "}")
    /\ moment d = Moment.parseYMD (date d).
Proof.
  pose proof (nth_error_In _ _ Hnth) as Hin.
  rewrite extractDates_from_cursor in Hin.
  unfold extractDates, matchAll in Hin. cbn [Nat.leb skipn] in Hin.
  apply in_map_iff in Hin. destruct Hin as [m [<- Hin]].
  apply matchAllFrom_DUE_DATE_inv in Hin.
  destruct Hin as [pre [sp [dt [post [Hline [Hsp [Hdt [Hm Hg]]]]]]]].
  cbn [date rawMatch moment]. unfold group. rewrite Hg, Hm.
  cbn [Nat.sub nth].
  exists (firstn lastIndex line ++ pre), sp, post.
  repeat split; try assumption.
  rewrite <- app_assoc, <- Hline. symmetry. apply firstn_skipn.
Qed.

(** The annotation, read forward. *)
Lemma DUE_DATE_annotation_fwd (pos : nat) (caps : list jsstring)
      (dt rest : jsstring) (k : cont) :
  isDateText dt = true ->
  matchK DUE_DATE_annotation
         (MState pos (str "@{" ++ dt ++ str "}" ++ rest) caps) k
    = k (MState (pos + 13) rest (caps ++ [dt])).
Proof.
  unfold isDateText. intros H.
  do 10 (destruct dt as [|? dt]; [discriminate|]).
  destruct dt; [|discriminate].
  rewrite !andb_true_iff in H. destruct H as [[Hdigits Hs1] Hs2].
  cbn [forallb] in Hdigits. rewrite !andb_true_iff in Hdigits.
  destruct Hdigits as [H1 [H2 [H3 [H4 [H5 [H6 [H7 [H8 _]]]]]]]].
  apply N.eqb_eq in Hs1, Hs2. subst.
  unfold DUE_DATE_annotation, Cat.
  cbn [fold_right matchK mrest mpos mcaps Repeat str app map
       list_ascii_of_string].
  change (char_eqb (ch "@") (ch "@")) with true.
  change (char_eqb (ch "{") (ch "{")) with true.
  change (char_eqb (ch "-") (ch "-")) with true.
  change (char_eqb (ch "}") (ch "}")) with true.
  rewrite H1, H2, H3, H4, H5, H6, H7, H8. cbv iota.
  replace (S (S (S (S (S (S (S (S (S (S (S (S pos))))))))))) - S (S pos))
    with 10 by lia.
  cbn [firstn]. f_equal. f_equal. lia.
Qed.

Lemma execFrom_DUE_DATE_first (pre dt post : jsstring) :
  noAt pre = true -> isDateText dt = true ->
  forall pos,
    exists sp m,
      execFrom PATTERNS.DUE_DATE pos (pre ++ str "@{" ++ dt ++ str "}" ++ post)
        = Some m
      /\ matched m = sp ++ str "@{" ++ dt ++ str "}"
      /\ groups m = [dt] /\ after m = post
      /\ endIndex m <> index m.
Proof.
  intros Hpre Hdt.
  assert (Hannot : forall pos,
    matchK DUE_DATE_annotation
           (MState pos (str "@{" ++ dt ++ str "}" ++ post) []) Some
      = Some (MState (pos + 13) post [dt]))
    by (intros pos; apply (DUE_DATE_annotation_fwd pos [] dt post Some Hdt)).
  pose proof (isDateText_length dt Hdt) as Hlen.
  do 10 (destruct dt as [|? dt]; [discriminate|]).
  destruct dt; [clear Hlen|discriminate].
  cbn [str app map list_ascii_of_string] in Hannot |- *.
  induction pre as [|a pre IH]; intros pos.
  - exists []. eexists. cbn [app execFrom].
    change PATTERNS.DUE_DATE
      with (Seq (Opt (Cls isSpace)) DUE_DATE_annotation).
    cbn [matchK mrest mpos mcaps].
    change (isSpace (ch "@")) with false. cbv iota.
    rewrite Hannot. split; [reflexivity|].
    cbn [matched groups after endIndex index mpos mrest mcaps].
    replace (pos + 13 - pos) with 13 by lia.
    repeat split; try lia.
  - cbn [noAt forallb] in Hpre. apply andb_true_iff in Hpre.
    destruct Hpre as [Ha Hpre]. apply negb_true_iff in Ha.
    destruct pre as [|a' pre'].
    + cbn [app execFrom].
      change PATTERNS.DUE_DATE
        with (Seq (Opt (Cls isSpace)) DUE_DATE_annotation).
      cbn [matchK mrest mpos mcaps].
      destruct (isSpace a) eqn:Hsp.
      * rewrite Hannot.
        exists [a]. eexists. split; [reflexivity|].
        cbn [matched groups after endIndex index mpos mrest mcaps app].
        replace (S pos + 13 - pos) with 14 by lia.
        repeat split; try lia.
      * assert (Hfail : forall l,
          matchK DUE_DATE_annotation (MState pos (a :: l) []) Some = None).
        { intros l. unfold DUE_DATE_annotation, Cat.
          cbn [fold_right matchK mrest]. rewrite Ha. reflexivity. }
        rewrite Hfail.
        destruct (IH Hpre (S pos)) as [sp [m [Hexec Hrest]]].
        exists sp, m. split; [exact Hexec | exact Hrest].
    + cbn [noAt forallb] in Hpre. apply andb_true_iff in Hpre.
      destruct Hpre as [Ha' Hpre']. apply negb_true_iff in Ha'.
      cbn [app execFrom].
      assert (Hfail : forall l,
        matchK PATTERNS.DUE_DATE (MState pos (a :: a' :: l) []) Some = None).
      { intros l. unfold PATTERNS.DUE_DATE, Cat.
        cbn [fold_right matchK mrest mpos mcaps]. rewrite Ha, Ha'.
        destruct (isSpace a); reflexivity. }
      rewrite Hfail.
      assert (Hpre2 : noAt (a' :: pre') = true).
      { cbn [noAt forallb]. rewrite Ha'. exact Hpre'. }
      destruct (IH Hpre2 (S pos)) as [sp [m [Hexec Hrest]]].
      exists sp, m. split; [exact Hexec | exact Hrest].
Qed.

Lemma extractDates_first (pre dt post : jsstring) :
  noAt pre = true -> isDateText dt = true ->
  exists sp,
    extractDates 0 (pre ++ str "@{" ++ dt ++ str "}" ++ post)
      = {| date := dt;
           moment := Moment.parseYMD dt;
           type := TypeDate;
           rawMatch := Some (sp ++ str "@{" ++ dt ++ str "}") |}
          :: extractDates 0 post.
Proof.
  intros Hpre Hdt.
  destruct (execFrom_DUE_DATE_first pre dt post Hpre Hdt 0)
    as [sp [m [Hexec [Hm [Hg [Hafter Hne]]]]]].
  exists sp. remember (extractDates 0 post) as tail eqn:Htail.
  unfold extractDates, matchAll. cbn [Nat.leb skipn matchAllFrom].
  rewrite Hexec. apply Nat.eqb_neq in Hne. rewrite Hne, Hafter.
  cbn [map]. unfold group at 1 2. rewrite Hg, Hm. cbn [Nat.sub nth].
  f_equal. subst tail. unfold extractDates, matchAll.
  cbn [Nat.leb skipn].
  pose proof (matchAllFrom_shift (endIndex m) PATTERNS.DUE_DATE eq_refl
                (length (pre ++ str "@{" ++ dt ++ str "}" ++ post)) post 0)
    as Hshift.
  cbn [Nat.add] in Hshift. rewrite Hshift, map_map.
  cbn [shiftMatch matched groups group]. f_equal.
  apply matchAllFrom_fuel; [|lia].
  rewrite !length_app. cbn [str length map list_ascii_of_string]. lia.
Qed.

(** X14. With the cursor of the date pattern at 0, the first annotation
    of a text is found, and the search goes on right after it: the dates
    of a text that holds no ["@"] before a well-formed annotation are
    that annotation and then the dates of the text after it. *)
Theorem extractDates_finds_first_annotation
  (pre dt post : jsstring)
  (Hpre : noAt pre = true) (Hdt : isDateText dt = true) :
  exists sp,
    (sp = [] \/ exists c, sp = [c] /\ isSpace c = true)
    /\ extractDates 0 (pre ++ str "@{" ++ dt ++ str "}" ++ post)
       = {| date := dt;
            moment := Moment.parseYMD dt;
            type := TypeDate;
            rawMatch := Some (sp ++ str "@{" ++ dt ++ str "}") |}
           :: extractDates 0 post.
Proof.
  destruct (extractDates_first pre dt post Hpre Hdt) as [sp Heq].
  exists sp. split; [|exact Heq].
  assert (Hnth : nth_error
            (extractDates 0 (pre ++ str "@{" ++ dt ++ str "}" ++ post)) 0
          = Some {| date := dt; moment := Moment.parseYMD dt;
                    type := TypeDate;
                    rawMatch := Some (sp ++ str "@{" ++ dt ++ str "}") |})
    by (rewrite Heq; reflexivity).
  pose proof (nth_error_In _ _ Hnth) as Hin.
  unfold extractDates, matchAll in Hin. cbn [Nat.leb skipn] in Hin.
  apply in_map_iff in Hin. destruct Hin as [m [Hrec Hin]].
  apply matchAllFrom_DUE_DATE_inv in Hin.
  destruct Hin as [_ [sp' [dt' [_ [_ [Hsp' [Hdt' [Hm Hg]]]]]]]].
  injection Hrec as Hd Hmom Hraw. unfold group in Hd. rewrite Hg in Hd.
  cbn [Nat.sub nth] in Hd. subst dt'. rewrite Hm in Hraw.
  apply app_same_length_inj in Hraw.
  - destruct Hraw as [-> _]. exact Hsp'.
  - assert (H : length (sp' ++ str "@{" ++ dt ++ str "}")
                = length (sp ++ str "@{" ++ dt ++ str "}"))
      by (rewrite Hraw; reflexivity).
    rewrite !length_app in H. lia.
Qed.

(** X15. No annotation is lost at the start of an entry: when a line
    starts an entry (it is the first line, or it is no body line) and the
    body of that entry holds a well-formed annotation with no ["@"] before
    it, the note gives an event for that line, dated by that annotation,
    whose id ends with the index of the line. *)
Theorem getEventsFromFile_finds_annotation
  (path : jsstring) (fileLines : list jsstring)
  (events0 : option (list Model.Event))
  (j : nat) (x pre dt post : jsstring)
  (Hline : nth_error fileLines j = Some x)
  (Hstart : negb (isBodyLine x) || Nat.eqb j 0 = true)
  (Hbody : body (entryAt fileLines j x)
           = pre ++ str "@{" ++ dt ++ str "}" ++ post)
  (Hpre : noAt pre = true) (Hdt : isDateText dt = true) :
  exists event,
    In event (result (getEventsFromFile 0 path fileLines events0))
    /\ Model.start event = Moment.toDate (Moment.parseYMD dt)
    /\ Model.end_ event = Moment.toDate (Moment.parseYMD dt)
    /\ Model.id event
       = Moment.formatYYYYMMDDHHmm (Moment.parseYMD dt)
           ++ str "00" ++ ofNat j
    /\ Model.title event = content (parseLine 0 (entryAt fileLines j x)).
Proof.
  destruct (extractDates_first pre dt post Hpre Hdt) as [sp Heq].
  rewrite <- Hbody in Heq.
  assert (Hin : In (j, entryAt fileLines j x) (lineGrouper fileLines)).
  { apply lineGrouper_entry; [exact Hline|].
    apply orb_true_iff in Hstart. destruct Hstart as [Hb | Hj].
    - left. apply negb_true_iff. exact Hb.
    - right. apply Nat.eqb_eq. exact Hj. }
  rewrite getEventsFromFile_lineGrouper.
  eexists. split.
  - apply in_flat_map. exists (j, entryAt fileLines j x).
    split; [exact Hin|]. rewrite eventsOf_cases, Heq. left. reflexivity.
  - cbn. auto.
Qed.

(** ** Day granularity and ids *)

Lemma withoutDashes_dateText (s : jsstring) :
  isDateText s = true -> length (withoutDashes s) = 8.
Proof.
  unfold isDateText.
  do 10 (destruct s as [|? s]; [discriminate|]).
  destruct s; [|discriminate].
  rewrite !andb_true_iff. intros [[Hdigits Hs1] Hs2].
  cbn [forallb] in Hdigits. rewrite !andb_true_iff in Hdigits.
  destruct Hdigits as [H1 [H2 [H3 [H4 [H5 [H6 [H7 [H8 _]]]]]]]].
  apply N.eqb_eq in Hs1, Hs2. subst.
  unfold withoutDashes. cbn [filter].
  rewrite (isDigit_not_dash _ H1), (isDigit_not_dash _ H2),
    (isDigit_not_dash _ H3), (isDigit_not_dash _ H4),
    (isDigit_not_dash _ H5), (isDigit_not_dash _ H6),
    (isDigit_not_dash _ H7), (isDigit_not_dash _ H8).
  reflexivity.
Qed.

(** Four digits make a year below 10000. *)
Lemma number4_lt (a b c d : char) :
  isDigit a = true -> isDigit b = true -> isDigit c = true ->
  isDigit d = true ->
  (Moment.number 0 [a; b; c; d] <? 100 * 100) = true.
Proof.
  intros Ha Hb Hc Hd.
  assert (Hall :
    forallb (fun a => forallb (fun b => forallb (fun c => forallb (fun d =>
      Moment.number 0 [a; b; c; d] <? 100 * 100)
      digitChars) digitChars) digitChars) digitChars = true)
    by (vm_compute; reflexivity).
  rewrite forallb_forall in Hall.
  specialize (Hall a (isDigit_In a Ha)). rewrite forallb_forall in Hall.
  specialize (Hall b (isDigit_In b Hb)). rewrite forallb_forall in Hall.
  specialize (Hall c (isDigit_In c Hc)). rewrite forallb_forall in Hall.
  exact (Hall d (isDigit_In d Hd)).
Qed.

(** The moment of a date text is invalid, or it is what the platform
    makes of 00:00 of the day of the calendar whose year, month and day,
    written on four, two and two places, are the digits of the text. *)
Lemma parseYMD_dateText (s : jsstring) :
  isDateText s = true ->
  Moment.parseYMD s = Moment.Invalid
  \/ exists y m d,
       Moment.validDay y m d = true
       /\ Moment.parseYMD s = Moment.Valid (Moment.localMidnight y m d)
       /\ Moment.pad 4 y ++ Moment.pad 2 m ++ Moment.pad 2 d
          = withoutDashes s.
Proof.
  unfold isDateText, Moment.parseYMD.
  do 10 (destruct s as [|? s]; [discriminate|]).
  destruct s; [|discriminate].
  intros Hshape. rewrite Hshape. cbv zeta.
  rewrite !andb_true_iff in Hshape.
  destruct Hshape as [[Hdigits Hs1] Hs2].
  cbn [forallb] in Hdigits. rewrite !andb_true_iff in Hdigits.
  destruct Hdigits as [H1 [H2 [H3 [H4 [H5 [H6 [H7 [H8 _]]]]]]]].
  apply N.eqb_eq in Hs1, Hs2. subst.
  match goal with
  | |- context [if ?b then _ else _] => destruct b eqn:Hrange
  end; [right | left; reflexivity].
  match goal with
  | |- context [Moment.localMidnight ?y ?m ?d] => exists y, m, d
  end.
  split; [|split; [reflexivity|]].
  - unfold Moment.validDay.
    rewrite (number4_lt _ _ _ _ H1 H2 H3 H4).
    rewrite !andb_true_iff in Hrange. rewrite !andb_true_iff. tauto.
  - rewrite pad4_number, !pad2_number by assumption.
    unfold withoutDashes. cbn [filter].
    rewrite (isDigit_not_dash _ H1), (isDigit_not_dash _ H2),
      (isDigit_not_dash _ H3), (isDigit_not_dash _ H4),
      (isDigit_not_dash _ H5), (isDigit_not_dash _ H6),
      (isDigit_not_dash _ H7), (isDigit_not_dash _ H8).
    reflexivity.
Qed.

Lemma parseYMD_atDayGranularity (s : jsstring) :
  isDateText s = true ->
  atDayGranularity (Moment.toDate (Moment.parseYMD s)).
Proof.
  intros Hshape.
  destruct (parseYMD_dateText s Hshape) as [-> | [y [m [d [Hday [-> _]]]]]];
    [exact I|].
  exists y, m, d. split; [exact Hday | reflexivity].
Qed.

(** The date texts that [extractDates] hands to moment have the shape
    [dddd-dd-dd]. *)
Lemma extractDates_dateText (lastIndex : nat) (line : jsstring)
      (d : DateInfo) :
  In d (extractDates lastIndex line) ->
  isDateText (date d) = true.
Proof.
  intros Hin. rewrite extractDates_from_cursor in Hin.
  unfold extractDates, matchAll in Hin. cbn [Nat.leb skipn] in Hin.
  apply in_map_iff in Hin. destruct Hin as [m [<- Hin]].
  apply matchAllFrom_DUE_DATE_inv in Hin.
  destruct Hin as [pre [sp [dt [post [_ [_ [Hdt [_ Hg]]]]]]]].
  cbn [date]. unfold group. rewrite Hg. exact Hdt.
Qed.

Lemma extractDates_atDayGranularity (lastIndex : nat) (line : jsstring)
      (d : DateInfo) :
  In d (extractDates lastIndex line) ->
  atDayGranularity (Moment.toDate (moment d)).
Proof.
  intros Hin. rewrite (extractDates_moment lastIndex line d Hin).
  apply parseYMD_atDayGranularity.
  exact (extractDates_dateText lastIndex line d Hin).
Qed.


(** X3. Every event of a note is an all-day event of type ["default"]
    that carries the path of the note and no block link; its start and
    end are the same date, at day granularity (what the platform makes of
    00:00 of a day of the calendar, or the invalid date), and its title
    has no white space at either end. *)
Theorem getEventsFromFile_event_shape
  (lastIndex : nat) (path : jsstring) (fileLines : list jsstring)
  (events0 : option (list Model.Event)) (n : nat) (event : Model.Event)
  (Hnth : nth_error
            (result (getEventsFromFile lastIndex path fileLines events0)) n
          = Some event) :
  Model.allDay event = true
  /\ Model.eventType event = str "default"
  /\ Model.path event = Some path
  /\ Model.blockLink event = None
  /\ Model.start event = Model.end_ event
  /\ atDayGranularity (Model.start event)
  /\ isTrimmed (Model.title event) = true.
Proof.
  pose proof (nth_error_In _ _ Hnth) as Hin.
  rewrite getEventsFromFile_lineGrouper in Hin.
  apply in_flat_map in Hin. destruct Hin as [[i e] [_ Hin]].
  rewrite eventsOf_cases in Hin.
  destruct (extractDates lastIndex (body e)) as [|d0 rest] eqn:Hdates;
    [destruct Hin|].
  destruct Hin as [<- | []]. cbn [Model.allDay Model.eventType Model.path
    Model.blockLink Model.start Model.end_ Model.title].
  split; [reflexivity|]. split; [reflexivity|]. split; [reflexivity|].
  split; [reflexivity|]. split; [reflexivity|]. split.
  - apply (extractDates_atDayGranularity lastIndex (body e)).
    rewrite Hdates. left. reflexivity.
  - apply trim_isTrimmed.
Qed.

(** Months, days, hours and minutes take two places, years four. *)
Lemma pad2_length (n : nat) : n < 100 -> length (Moment.pad 2 n) = 2.
Proof.
  intros Hn.
  assert (Hall : forallb (fun n => Nat.eqb (length (Moment.pad 2 n)) 2)
                         (seq 0 100) = true)
    by (vm_compute; reflexivity).
  rewrite forallb_forall in Hall.
  apply Nat.eqb_eq. apply Hall. apply in_seq. lia.
Qed.

Lemma pad4_length (n : nat) : n < 100 * 100 -> length (Moment.pad 4 n) = 4.
Proof.
  intros Hn.
  assert (Hall : forallb (fun n => Nat.eqb (length (Moment.pad 4 n)) 4)
                         (seq 0 (100 * 100)) = true)
    by (vm_compute; reflexivity).
  rewrite forallb_forall in Hall.
  apply Nat.eqb_eq. apply Hall. apply in_seq. lia.
Qed.

Lemma daysInMonth_le (y m : nat) : Moment.daysInMonth y m <= 31.
Proof.
  unfold Moment.daysInMonth.
  do 12 (destruct m as [|m]; [try lia; destruct (Moment.isLeapYear y); lia|]).
  lia.
Qed.

(** A well-formed time is written on twelve places. *)
Lemma format_wellFormed_length (f : Moment.fields) :
  Moment.wellFormed f = true ->
  length (Moment.formatYYYYMMDDHHmm (Moment.Valid f)) = 12.
Proof.
  unfold Moment.wellFormed, Moment.validDay.
  rewrite !andb_true_iff, !Nat.ltb_lt, !Nat.leb_le.
  intros [[Hh Hmi] [[[[Hy Hm1] Hm2] Hd1] Hd2]].
  pose proof (daysInMonth_le (Moment.year f) (Moment.month f)) as Hdim.
  cbn [Moment.formatYYYYMMDDHHmm]. rewrite !length_app.
  rewrite (pad4_length (Moment.year f)) by exact Hy.
  rewrite (pad2_length (Moment.month f)) by lia.
  rewrite (pad2_length (Moment.day f)) by lia.
  rewrite (pad2_length (Moment.hour f)) by lia.
  rewrite (pad2_length (Moment.minute f)) by lia.
  reflexivity.
Qed.

(** X9. Parsing a date text and formatting the moment gives the date
    back: when [moment(s, 'YYYY-MM-DD')] of a text of the shape
    [dddd-dd-dd] is valid, it is what the platform makes of 00:00 of the
    day that the text names; and where the platform has that day, at the
    local time [h]:[mi], [format('YYYYMMDDHHmm')] of the moment is the
    text without its dashes followed by [h] and [mi] on two places each,
    which is ["0000"] when the day has its midnight. *)
Theorem format_parseYMD_roundtrip (s : jsstring)
  (Hshape : isDateText s = true)
  (Hvalid : momentIsValid (Moment.parseYMD s) = true) :
  exists y m d,
    Moment.validDay y m d = true
    /\ Moment.pad 4 y ++ Moment.pad 2 m ++ Moment.pad 2 d = withoutDashes s
    /\ Moment.parseYMD s = Moment.Valid (Moment.localMidnight y m d)
    /\ (forall h mi,
          Moment.localMidnight y m d = Moment.Fields y m d h mi ->
          Moment.formatYYYYMMDDHHmm (Moment.parseYMD s)
          = withoutDashes s ++ Moment.pad 2 h ++ Moment.pad 2 mi)
    /\ (Moment.localMidnight y m d = Moment.Fields y m d 0 0 ->
        Moment.formatYYYYMMDDHHmm (Moment.parseYMD s)
        = withoutDashes s ++ str "0000").
Proof.
  destruct (parseYMD_dateText s Hshape)
    as [Hinv | [y [m [d [Hday [Hp Hdigits]]]]]];
    [rewrite Hinv in Hvalid; discriminate|].
  exists y, m, d.
  assert (Hformat : forall h mi,
            Moment.localMidnight y m d = Moment.Fields y m d h mi ->
            Moment.formatYYYYMMDDHHmm (Moment.parseYMD s)
            = withoutDashes s ++ Moment.pad 2 h ++ Moment.pad 2 mi).
  { intros h mi Hlocal. rewrite Hp, Hlocal.
    cbn [Moment.formatYYYYMMDDHHmm Moment.year Moment.month Moment.day
         Moment.hour Moment.minute].
    rewrite <- Hdigits, <- !app_assoc. reflexivity. }
  split; [exact Hday|]. split; [exact Hdigits|]. split; [exact Hp|].
  split; [exact Hformat|].
  intros Hlocal. rewrite (Hformat 0 0 Hlocal). reflexivity.
Qed.

Lemma format_parseYMD_length (s : jsstring) :
  isDateText s = true ->
  length (Moment.formatYYYYMMDDHHmm (Moment.parseYMD s)) = 12.
Proof.
  intros Hshape.
  destruct (parseYMD_dateText s Hshape) as [-> | [y [m [d [Hday [-> _]]]]]];
    [reflexivity|].
  apply format_wellFormed_length.
  apply Moment.localMidnight_wellFormed. exact Hday.
Qed.

(** X10. The id of the event of a parsed entry is made of the text of its
    first date, the time zone and the line index. When the day of the
    text is not in the calendar, it is ["Invalid date"], ["00"] and the
    line index. Otherwise the moment is what the platform makes of 00:00
    of that day, and where the platform has that day, at the local time
    [h]:[mi], the id is the digits of the date text, [h] and [mi] on two
    places each (["0000"] when the day has its midnight), ["00"] and the
    line index. *)
Theorem convertToEvent_id_of_date
  (lastIndex : nat) (entry : ListEntry) (lineIndex : nat) (path : jsstring)
  (event : Model.Event)
  (Hevent : convertToEvent (parseLine lastIndex entry) lineIndex path
            = Normal (Some event)) :
  exists d0 rest,
    extractDates lastIndex (body entry) = d0 :: rest
    /\ Model.id event
       = Moment.formatYYYYMMDDHHmm (Moment.parseYMD (date d0))
           ++ str "00" ++ ofNat lineIndex
    /\ (momentIsValid (moment d0) = false ->
        Model.id event = str "Invalid date" ++ str "00" ++ ofNat lineIndex)
    /\ (momentIsValid (moment d0) = true ->
        exists y m d,
          Moment.validDay y m d = true
          /\ Moment.pad 4 y ++ Moment.pad 2 m ++ Moment.pad 2 d
             = withoutDashes (date d0)
          /\ moment d0 = Moment.Valid (Moment.localMidnight y m d)
          /\ (forall h mi,
                Moment.localMidnight y m d = Moment.Fields y m d h mi ->
                Model.id event
                = withoutDashes (date d0)
                    ++ Moment.pad 2 h ++ Moment.pad 2 mi
                    ++ str "00" ++ ofNat lineIndex)
          /\ (Moment.localMidnight y m d = Moment.Fields y m d 0 0 ->
              Model.id event
              = withoutDashes (date d0) ++ str "0000"
                  ++ str "00" ++ ofNat lineIndex)).
Proof.
  rewrite convertToEvent_cases in Hevent. cbn [dates parseLine] in Hevent.
  destruct (extractDates lastIndex (body entry)) as [|d0 rest] eqn:Hdates;
    [discriminate|].
  injection Hevent as <-. exists d0, rest. split; [reflexivity|].
  assert (Hin : In d0 (extractDates lastIndex (body entry)))
    by (rewrite Hdates; left; reflexivity).
  pose proof (extractDates_moment _ _ _ Hin) as Hm.
  pose proof (extractDates_dateText _ _ _ Hin) as Hshape.
  cbn [Model.id]. rewrite Hm.
  split; [reflexivity|]. split.
  - intros Hinvalid.
    destruct (Moment.parseYMD (date d0)); [discriminate | reflexivity].
  - intros Hvalid.
    destruct (parseYMD_dateText _ Hshape)
      as [Hinv | [y [m [d [Hday [Hp Hdigits]]]]]];
      [rewrite Hinv in Hvalid; discriminate|].
    exists y, m, d.
    assert (Hformat : forall h mi,
              Moment.localMidnight y m d = Moment.Fields y m d h mi ->
              Moment.formatYYYYMMDDHHmm (Moment.parseYMD (date d0))
                ++ str "00" ++ ofNat lineIndex
              = withoutDashes (date d0)
                  ++ Moment.pad 2 h ++ Moment.pad 2 mi
                  ++ str "00" ++ ofNat lineIndex).
    { intros h mi Hlocal. rewrite Hp, Hlocal.
      cbn [Moment.formatYYYYMMDDHHmm Moment.year Moment.month Moment.day
           Moment.hour Moment.minute].
      rewrite <- Hdigits, <- !app_assoc. reflexivity. }
    split; [exact Hday|]. split; [exact Hdigits|]. split; [exact Hp|].
    split; [exact Hformat|].
    intros Hlocal. exact (Hformat 0 0 Hlocal).
Qed.

Lemma eventsOf_id (lastIndex : nat) (path : jsstring) (i : nat)
      (e : ListEntry) (event : Model.Event) :
  In event (eventsOf lastIndex path (i, e)) ->
  exists f, length f = 12 /\ Model.id event = f ++ str "00" ++ ofNat i.
Proof.
  rewrite eventsOf_cases.
  destruct (extractDates lastIndex (body e)) as [|d0 rest] eqn:Hdates;
    [intros []|].
  intros [<- | []]. cbn [Model.id].
  exists (Moment.formatYYYYMMDDHHmm (moment d0)). split; [|reflexivity].
  assert (Hin : In d0 (extractDates lastIndex (body e)))
    by (rewrite Hdates; left; reflexivity).
  rewrite (extractDates_moment lastIndex (body e) d0 Hin).
  apply format_parseYMD_length.
  exact (extractDates_dateText lastIndex (body e) d0 Hin).
Qed.

Lemma id_index_inj (f f' : jsstring) (i j : nat) :
  length f = 12 -> length f' = 12 ->
  f ++ str "00" ++ ofNat i = f' ++ str "00" ++ ofNat j -> i = j.
Proof.
  intros Hf Hf' H.
  apply app_same_length_inj in H; [|congruence].
  destruct H as [_ H]. apply app_inv_head in H. apply ofNat_inj. exact H.
Qed.

Lemma entries_ids_NoDup (lastIndex : nat) (path : jsstring)
      (entries : list (nat * ListEntry)) :
  StronglySorted lt (map fst entries) ->
  NoDup (map Model.id (flat_map (eventsOf lastIndex path) entries)).
Proof.
  induction entries as [|[i e] entries IH]; intros Hsorted;
    [constructor|].
  cbn [map fst] in Hsorted. apply StronglySorted_inv in Hsorted.
  destruct Hsorted as [Hsorted Hlt].
  cbn [flat_map]. rewrite map_app.
  pose proof (eventsOf_length lastIndex path (i, e)) as Hlen.
  pose proof (eventsOf_id lastIndex path i e) as Hid.
  destruct (eventsOf lastIndex path (i, e)) as [|ev [|ev' evs]];
    [exact (IH Hsorted) | | cbn in Hlen; lia].
  cbn [map app]. constructor; [|exact (IH Hsorted)].
  intros Hin. apply in_map_iff in Hin. destruct Hin as [ev2 [Heq Hin]].
  apply in_flat_map in Hin. destruct Hin as [[j e2] [Hin2 Hev2]].
  destruct (Hid ev (or_introl eq_refl)) as [f [Hf Hidf]].
  destruct (eventsOf_id lastIndex path j e2 ev2 Hev2) as [f2 [Hf2 Hidf2]].
  rewrite Hidf, Hidf2 in Heq.
  apply id_index_inj in Heq; [|assumption|assumption].
  rewrite Forall_forall in Hlt.
  specialize (Hlt j (in_map fst _ _ Hin2)). cbn in Hlt. lia.
Qed.

(** X11. Within one pass over a note no two events have the same id. *)
Theorem getEventsFromFile_ids_distinct
  (lastIndex : nat) (path : jsstring) (fileLines : list jsstring)
  (events0 : option (list Model.Event)) :
  NoDup (map Model.id
             (result (getEventsFromFile lastIndex path fileLines events0))).
Proof.
  rewrite getEventsFromFile_lineGrouper.
  apply entries_ids_NoDup.
  apply (entriesLoop_indices fileLines (length fileLines) 0).
Qed.

(** ** The filter predicate, further *)

Lemma startsWith_prefix (s prefix : jsstring) :
  startsWith s prefix = true <-> exists rest, s = prefix ++ rest.
Proof.
  revert s. induction prefix as [|p prefix IH]; intros s.
  - split; [intros _; exists s; reflexivity | destruct s; reflexivity].
  - destruct s as [|c s]; cbn [startsWith].
    + split; [discriminate | intros [rest H]; discriminate].
    + unfold char_eqb. rewrite andb_true_iff, N.eqb_eq, IH.
      split.
      * intros [-> [rest ->]]. exists rest. reflexivity.
      * intros [rest H]. injection H as -> ->. split; [reflexivity|].
        exists rest. reflexivity.
Qed.

(** X16. The three constraints of a query act apart: a query accepts an
    event exactly when its type constraint alone, its content constraint
    alone and its folder constraint alone each accept it. *)
Theorem eventMatchesFilter_conjunction
  (engine : RegExpEngine) (event : Model.Event) (filter : Filter.Query) :
  Filter.eventMatchesFilter event filter
    = Filter.eventMatchesFilter event (onlyType filter)
      && Filter.eventMatchesFilter event (onlyContent filter)
      && Filter.eventMatchesFilter event (onlyFolders filter).
Proof.
  unfold Filter.eventMatchesFilter, Filter.rejectedByType,
    Filter.rejectedByContent, Filter.rejectedByFolder,
    onlyType, onlyContent, onlyFolders.
  cbn [Filter.eventType Filter.contentRegex Filter.folderPaths].
  destruct (Filter.eventType filter) as [wanted|];
    [destruct (truthy wanted && negb (jseqb (Model.eventType event) wanted))|];
    cbn [andb]; try reflexivity;
    (destruct (Filter.contentRegex filter) as [source|];
     [destruct (truthy source);
      [destruct (compile source) as [regex|];
       [destruct (regexTest regex (Model.title event))|]|]|];
     cbn [negb andb]; try reflexivity;
     destruct (Filter.folderPaths filter) as [folders|];
     destruct (Model.path event) as [path|]; try reflexivity;
     match goal with
     | |- context [if ?b then _ else false] => destruct b
     end; try reflexivity;
     match goal with
     | |- context [negb ?b] => destruct b
     end; reflexivity).
Qed.

(** X17. A query whose constraints are all absent or falsy (no value, an
    empty text, an empty list of folders) accepts every event. *)
Theorem eventMatchesFilter_blank_query
  (engine : RegExpEngine) (event : Model.Event) (filter : Filter.Query)
  (Hblank : isBlankQuery filter = true) :
  Filter.eventMatchesFilter event filter = true.
Proof.
  unfold isBlankQuery in Hblank. rewrite !andb_true_iff in Hblank.
  destruct Hblank as [[Htype Hcontent] Hfolders].
  apply negb_true_iff in Htype, Hcontent.
  unfold Filter.eventMatchesFilter, Filter.rejectedByType,
    Filter.rejectedByContent, Filter.rejectedByFolder.
  destruct (Filter.eventType filter) as [wanted|]; cbn in Htype;
    [rewrite Htype|]; cbn [andb];
    (destruct (Filter.contentRegex filter) as [source|]; cbn in Hcontent;
     [rewrite Hcontent|];
     destruct (Filter.folderPaths filter) as [[|f folders]|];
     try discriminate; destruct (Model.path event); reflexivity).
Qed.

(** X18. The folder constraint is a test of text prefixes: with folders
    listed and a path on the event, the query that has only this
    constraint accepts the event exactly when its path starts with one of
    the folders, as texts. *)
Theorem eventMatchesFilter_folder_prefix
  (engine : RegExpEngine) (event : Model.Event)
  (folders : list jsstring) (path : jsstring)
  (Hfolders : Nat.ltb 0 (length folders) = true)
  (Hpath : Model.path event = Some path)
  (Htruthy : truthy path = true) :
  Filter.eventMatchesFilter event
    {| Filter.eventType := None; Filter.contentRegex := None;
       Filter.folderPaths := Some folders |} = true
  <-> exists folder rest, In folder folders /\ path = folder ++ rest.
Proof.
  unfold Filter.eventMatchesFilter, Filter.rejectedByType,
    Filter.rejectedByContent, Filter.rejectedByFolder.
  cbn [Filter.eventType Filter.contentRegex Filter.folderPaths].
  rewrite Hpath, Hfolders, Htruthy. cbn [andb].
  destruct (existsb (fun folderPath => startsWith path folderPath) folders)
    eqn:Hany; cbn [negb].
  - split; [intros _|reflexivity].
    apply existsb_exists in Hany. destruct Hany as [folder [Hin Hs]].
    apply startsWith_prefix in Hs. destruct Hs as [rest ->].
    exists folder, rest. auto.
  - split; [discriminate|]. intros [folder [rest [Hin ->]]].
    assert (Hex : existsb
              (fun folderPath => startsWith (folder ++ rest) folderPath)
              folders = true).
    { apply existsb_exists. exists folder. split; [exact Hin|].
      apply startsWith_prefix. exists rest. reflexivity. }
    congruence.
Qed.

(** X19. Every event that [getEventsFromFile] gives has the type
    ["default"], so a query that asks for another type rejects all the
    events of every note. *)
Theorem eventMatchesFilter_other_type_rejects_extracted
  (engine : RegExpEngine) (lastIndex : nat) (path : jsstring)
  (fileLines : list jsstring) (events0 : option (list Model.Event))
  (n : nat) (event : Model.Event) (filter : Filter.Query) (wanted : jsstring)
  (Hevent : nth_error
              (result (getEventsFromFile lastIndex path fileLines events0)) n
            = Some event)
  (Hwanted : Filter.eventType filter = Some wanted)
  (Htruthy : truthy wanted = true)
  (Hother : jseqb (str "default") wanted = false) :
  Filter.eventMatchesFilter event filter = false.
Proof.
  apply nth_error_In in Hevent.
  rewrite getEventsFromFile_lineGrouper in Hevent.
  apply in_flat_map in Hevent. destruct Hevent as [[i e] [_ Hin]].
  rewrite eventsOf_cases in Hin.
  destruct (extractDates lastIndex (body e)); [destruct Hin|].
  destruct Hin as [<- | []].
  unfold Filter.eventMatchesFilter, Filter.rejectedByType.
  rewrite Hwanted, Htruthy. cbn [Model.eventType andb].
  rewrite Hother. reflexivity.
Qed.

(** ** The reverse status mapping, further *)

Lemma splitOn_noDash (s : jsstring) :
  noDash s = true -> splitOn (ch "-") s = [s].
Proof.
  induction s as [|c s IH]; intros H; [reflexivity|].
  cbn [noDash forallb] in H. apply andb_true_iff in H.
  destruct H as [Hc Hs]. apply negb_true_iff in Hc.
  cbn [splitOn]. rewrite Hc, (IH Hs). reflexivity.
Qed.

Lemma splitOn_first (a b : jsstring) :
  noDash a = true ->
  splitOn (ch "-") (a ++ ch "-" :: b) = a :: splitOn (ch "-") b.
Proof.
  induction a as [|c a IH]; intros H; [reflexivity|].
  cbn [noDash forallb] in H. apply andb_true_iff in H.
  destruct H as [Hc Ha]. apply negb_true_iff in Hc.
  cbn [app splitOn]. rewrite Hc, (IH Ha). reflexivity.
Qed.

Lemma startsWith_app (prefix rest : jsstring) :
  startsWith (prefix ++ rest) prefix = true.
Proof. apply startsWith_prefix. exists rest. reflexivity. Qed.

Lemma kindOf_task (kind : jsstring) :
  noDash kind = true -> kindOf (str "TASK-" ++ kind) = kind.
Proof.
  intros H. unfold kindOf.
  change (str "TASK-" ++ kind) with (str "TASK" ++ ch "-" :: kind).
  rewrite (splitOn_first (str "TASK") kind eq_refl), (splitOn_noDash kind H).
  reflexivity.
Qed.

Lemma kindOf_task_suffix (kind rest : jsstring) :
  noDash kind = true ->
  kindOf (str "TASK-" ++ kind ++ str "-" ++ rest) = kind.
Proof.
  intros H. unfold kindOf.
  change (str "TASK-" ++ kind ++ str "-" ++ rest)
    with (str "TASK" ++ ch "-" :: (kind ++ ch "-" :: rest)).
  rewrite (splitOn_first (str "TASK") _ eq_refl), (splitOn_first kind rest H).
  reflexivity.
Qed.

Lemma getMarkBasedOnEvent_by_kind (label1 label2 : jsstring) :
  startsWith label1 (str "TASK-") = true ->
  startsWith label2 (str "TASK-") = true ->
  kindOf label1 = kindOf label2 ->
  getMarkBasedOnEvent label1 = getMarkBasedOnEvent label2.
Proof.
  intros H1 H2 Hk. unfold getMarkBasedOnEvent.
  fold (kindOf label1). fold (kindOf label2).
  rewrite H1, H2, (startsWith_truthy _ H1), (startsWith_truthy _ H2), Hk.
  reflexivity.
Qed.

(** X20. Only the text between the first and the second ["-"] of a label
    counts: whatever follows a second ["-"] does not change the mark. So a
    kind that is written with a ["-"] is read up to that ["-"] only. *)
Theorem getMarkBasedOnEvent_ignores_suffix (kind rest : jsstring)
  (Hkind : noDash kind = true) :
  getMarkBasedOnEvent (str "TASK-" ++ kind ++ str "-" ++ rest)
    = getMarkBasedOnEvent (str "TASK-" ++ kind).
Proof.
  apply getMarkBasedOnEvent_by_kind.
  - apply startsWith_app.
  - apply startsWith_app.
  - rewrite kindOf_task_suffix, kindOf_task by exact Hkind. reflexivity.
Qed.

(** X21. A mark, when there is one, is exactly one character. *)
Theorem getMarkBasedOnEvent_single_character
  (eventType mark : jsstring)
  (Hmark : getMarkBasedOnEvent eventType = Some mark) :
  length mark = 1.
Proof.
  unfold getMarkBasedOnEvent in Hmark.
  destruct (negb (truthy eventType)
            || negb (startsWith eventType (str "TASK-"))); [discriminate|].
  repeat match type of Hmark with
         | context [if jseqb ?a ?b then _ else _] => destruct (jseqb a b)
         end; injection Hmark as <-; reflexivity.
Qed.

(** ** [lineContainsTime] and the cursors *)

Lemma testGlobal_false (r : regex) (lastIndex : nat) (s : jsstring) :
  fst (testGlobal r lastIndex s) = false ->
  snd (testGlobal r lastIndex s) = 0.
Proof.
  unfold testGlobal. destruct (Nat.leb lastIndex (length s)); [|reflexivity].
  destruct (execFrom r lastIndex (skipn lastIndex s));
    [discriminate | reflexivity].
Qed.

(** X22. When [lineContainsTime] answers [false], it leaves every cursor
    at 0: all five shared patterns were tested, and each failed test sets
    its [lastIndex] back to 0. *)
Theorem lineContainsTime_false_resets
  (cursors : Cursors) (line : jsstring)
  (Hfalse : fst (lineContainsTime cursors line) = false) :
  snd (lineContainsTime cursors line) = freshCursors.
Proof.
  unfold lineContainsTime in *.
  repeat match goal with
         | H : context [testGlobal ?r ?i line] |- _ =>
             let b := fresh "b" in
             let j := fresh "j" in
             let E := fresh "E" in
             destruct (testGlobal r i line) as [b j] eqn:E;
             cbn [atTIME_STANDARD atTIME_WITH_TAG atDUE_DATE at_DUE_DATE
                  atEND_TIME] in *;
             destruct b; [discriminate Hfalse|];
             pose proof (testGlobal_false r i line) as Hz;
             rewrite E in Hz; cbn [fst snd] in Hz;
             specialize (Hz eq_refl); subst j
         end.
  reflexivity.
Qed.

(** X23. A line that [PATTERNS.TASK] matches (a list marker, a checkbox,
    white space, text) makes [lineContainsTime] answer [true] wherever
    the cursors stand: that pattern has no flag [g], so no cursor. *)
Theorem lineContainsTime_task_line
  (cursors : Cursors) (line : jsstring)
  (Htask : test PATTERNS.TASK line = true) :
  fst (lineContainsTime cursors line) = true.
Proof.
  unfold lineContainsTime.
  repeat match goal with
         | |- context [testGlobal ?r ?i line] =>
             let b := fresh "b" in
             let j := fresh "j" in
             destruct (testGlobal r i line) as [b j];
             destruct b; [reflexivity|]
         end.
  exact Htask.
Qed.

Lemma matchK_Lit (l : jsstring) :
  forall st k,
    matchK (Lit l) st k
      = if startsWith (mrest st) l
        then k (MState (mpos st + length l) (skipn (length l) (mrest st))
                       (mcaps st))
        else None.
Proof.
  induction l as [|c l IH]; intros [pos s caps] k;
    cbn [Lit matchK mrest mpos mcaps length skipn].
  - rewrite Nat.add_0_r. destruct s; reflexivity.
  - destruct s as [|x s]; [reflexivity|]. cbn [startsWith skipn].
    destruct (char_eqb x c); [|reflexivity]. cbn [andb].
    rewrite IH. cbn [mrest mpos mcaps].
    replace (S pos + length l) with (pos + S (length l)) by lia.
    reflexivity.
Qed.

(** The clock pattern needs a [":"]. *)
Lemma clock_needs_colon (pos : nat) (caps : list jsstring) (s : jsstring)
      (k : cont) :
  noColon s = true ->
  matchK TIME_PATTERNS.clock (MState pos s caps) k = None.
Proof.
  intros H. unfold TIME_PATTERNS.clock, Cat.
  cbn [fold_right matchK mrest mpos mcaps].
  destruct s as [|c1 [|c2 [|c3 s]]]; unfold noColon in H; cbn [forallb] in H;
    rewrite ?andb_true_iff, ?negb_true_iff in H.
  - reflexivity.
  - destruct (isDigit c1); reflexivity.
  - destruct H as [_ [H2 _]]. rewrite H2.
    destruct (isDigit c1); [|reflexivity].
    destruct (isDigit c2); reflexivity.
  - destruct H as [_ [H2 [H3 _]]]. rewrite H2, H3.
    destruct (isDigit c1); [|reflexivity].
    destruct (isDigit c2); reflexivity.
Qed.

Lemma noColon_skipn (n : nat) (s : jsstring) :
  noColon s = true -> noColon (skipn n s) = true.
Proof. apply forallb_skipn. Qed.

Lemma execFrom_none (r : regex) (P : jsstring -> Prop)
      (Hsuffix : forall c t, P (c :: t) -> P t)
      (Hfail : forall pos s, P s -> matchK r (MState pos s []) Some = None) :
  forall s pos, P s -> execFrom r pos s = None.
Proof.
  induction s as [|c t IH]; intros pos Hs; cbn [execFrom];
    rewrite (Hfail pos _ Hs); [reflexivity|].
  apply IH. exact (Hsuffix c t Hs).
Qed.

Lemma noColon_tail (c : char) (t : jsstring) :
  noColon (c :: t) = true -> noColon t = true.
Proof.
  unfold noColon. cbn [forallb]. rewrite andb_true_iff. intros [_ H]. exact H.
Qed.

Lemma testGlobal_TIME_STANDARD_noColon (lastIndex : nat) (line : jsstring) :
  noColon line = true ->
  testGlobal TIME_PATTERNS.TIME_STANDARD lastIndex line = (false, 0).
Proof.
  intros H. unfold testGlobal.
  destruct (Nat.leb lastIndex (length line)); [|reflexivity].
  rewrite (execFrom_none TIME_PATTERNS.TIME_STANDARD
             (fun s => noColon s = true) noColon_tail); [reflexivity| |].
  - intros pos s Hs. apply clock_needs_colon. exact Hs.
  - apply noColon_skipn. exact H.
Qed.

Lemma testGlobal_TIME_WITH_TAG_noColon (lastIndex : nat) (line : jsstring) :
  noColon line = true ->
  testGlobal TIME_PATTERNS.TIME_WITH_TAG lastIndex line = (false, 0).
Proof.
  intros H. unfold testGlobal.
  destruct (Nat.leb lastIndex (length line)); [|reflexivity].
  rewrite (execFrom_none TIME_PATTERNS.TIME_WITH_TAG
             (fun s => noColon s = true) noColon_tail); [reflexivity| |].
  - intros pos s Hs. unfold TIME_PATTERNS.TIME_WITH_TAG, Cat.
    cbn [fold_right]. cbn [matchK]. rewrite matchK_Lit.
    destruct (startsWith (mrest (MState pos s [])) (str "<time>"));
      [|reflexivity].
    apply clock_needs_colon. cbn [mrest]. apply noColon_skipn. exact Hs.
  - apply noColon_skipn. exact H.
Qed.

Lemma skipn_app_length (A : Type) (l1 l2 : list A) (n : nat) :
  n + length l2 = length (l1 ++ l2) -> skipn n (l1 ++ l2) = l2.
Proof.
  intros H. rewrite length_app in H.
  replace n with (length l1 + 0) by lia.
  rewrite skipn_app, Nat.add_0_r, skipn_all, Nat.sub_diag. reflexivity.
Qed.

(** X24. The hazard of the shared cursor. Take a line without [":"]
    whose first annotation is well formed, and the date pattern with its
    cursor at 0. Asking [lineContainsTime] about the line answers [true]
    and leaves the cursor of the date pattern after that annotation; the
    dates then extracted from the same line are only the dates after it:
    the first annotation, which a fresh cursor finds, is lost. *)
Theorem lineContainsTime_then_extractDates
  (cursors : Cursors) (pre dt post : jsstring)
  (Hcursor : atDUE_DATE cursors = 0)
  (Hcolon : noColon (pre ++ str "@{" ++ dt ++ str "}" ++ post) = true)
  (Hpre : noAt pre = true) (Hdt : isDateText dt = true) :
  let line := pre ++ str "@{" ++ dt ++ str "}" ++ post in
  let cursors' := snd (lineContainsTime cursors line) in
  fst (lineContainsTime cursors line) = true
  /\ extractDates (atDUE_DATE cursors') line = extractDates 0 post
  /\ length (extractDates 0 line)
     = S (length (extractDates (atDUE_DATE cursors') line)).
Proof.
  intros line cursors'.
  destruct (execFrom_DUE_DATE_first pre dt post Hpre Hdt 0)
    as [sp [m [Hexec [Hm [Hg [Hafter Hne]]]]]].
  fold line in Hexec.
  pose proof (execFrom_bounds _ _ _ _ Hexec) as [_ [_ Hend]].
  rewrite Hafter in Hend. cbn [Nat.add] in Hend.
  assert (Hrun : lineContainsTime cursors line
                 = (true,
                    {| atTIME_STANDARD := 0;
                       atTIME_WITH_TAG := 0;
                       atDUE_DATE := endIndex m;
                       at_DUE_DATE := at_DUE_DATE cursors;
                       atEND_TIME := atEND_TIME cursors |})).
  { unfold lineContainsTime.
    rewrite (testGlobal_TIME_STANDARD_noColon _ line Hcolon).
    cbn [atTIME_STANDARD atTIME_WITH_TAG atDUE_DATE at_DUE_DATE atEND_TIME].
    rewrite (testGlobal_TIME_WITH_TAG_noColon _ line Hcolon).
    cbn [atTIME_STANDARD atTIME_WITH_TAG atDUE_DATE at_DUE_DATE atEND_TIME].
    rewrite Hcursor. unfold testGlobal. cbn [Nat.leb skipn].
    rewrite Hexec. reflexivity. }
  subst cursors'. rewrite Hrun. cbn [fst snd atDUE_DATE].
  destruct (extractDates_first pre dt post Hpre Hdt) as [sp' Hfirst].
  fold line in Hfirst.
  assert (Hskip : extractDates (endIndex m) line = extractDates 0 post).
  { rewrite extractDates_from_cursor. f_equal.
    unfold line.
    replace (pre ++ str "@{" ++ dt ++ str "}" ++ post)
      with ((pre ++ str "@{" ++ dt ++ str "}") ++ post)
      by (rewrite <- !app_assoc; reflexivity).
    apply skipn_app_length.
    rewrite <- !app_assoc. exact Hend. }
  split; [reflexivity|]. split; [exact Hskip|].
  rewrite Hskip, Hfirst. reflexivity.
Qed.

(** ** The vault *)

Lemma eventsOf_withPath (lastIndex : nat) (path1 path2 : jsstring)
      (entry : nat * ListEntry) :
  eventsOf lastIndex path2 entry
    = map (withPath path2) (eventsOf lastIndex path1 entry).
Proof.
  destruct entry as [i e]. rewrite !eventsOf_cases.
  destruct (extractDates lastIndex (body e)); reflexivity.
Qed.

Lemma getEventsFromFile_withPath (lastIndex : nat) (path1 path2 : jsstring)
      (fileLines : list jsstring) (events1 events2 : option (list Model.Event)) :
  result (getEventsFromFile lastIndex path2 fileLines events2)
    = map (withPath path2)
          (result (getEventsFromFile lastIndex path1 fileLines events1)).
Proof.
  rewrite !getEventsFromFile_lineGrouper.
  induction (lineGrouper fileLines) as [|entry l IH]; [reflexivity|].
  cbn [flat_map]. rewrite map_app, IH.
  rewrite (eventsOf_withPath lastIndex path1 path2). reflexivity.
Qed.

(** X25. The path of a note has no part in its events but their [path]:
    the same lines under another path give the same events with the
    other path, so the same ids, titles and dates in the same order. *)
Theorem getEventsFromFile_path_only_in_path
  (lastIndex : nat) (path1 path2 : jsstring) (fileLines : list jsstring)
  (events1 events2 : option (list Model.Event)) :
  result (getEventsFromFile lastIndex path2 fileLines events2)
    = map (withPath path2)
          (result (getEventsFromFile lastIndex path1 fileLines events1))
  /\ map (fun e => (Model.id e, Model.title e, Model.start e, Model.end_ e))
         (result (getEventsFromFile lastIndex path2 fileLines events2))
     = map (fun e => (Model.id e, Model.title e, Model.start e, Model.end_ e))
           (result (getEventsFromFile lastIndex path1 fileLines events1)).
Proof.
  pose proof (getEventsFromFile_withPath lastIndex path1 path2 fileLines
                events1 events2) as H.
  split; [exact H|].
  rewrite H, map_map. apply map_ext. intros e. reflexivity.
Qed.

(** X26. Ids are distinct inside a note only: two notes of the vault with
    the same lines, when those lines give an event at all, give events
    with the same ids. *)
Theorem getEvents_ids_collide
  (lastIndex : nat) (path1 path2 : jsstring) (fileLines : list jsstring)
  (Hsome : Nat.ltb 0 (length (result (getEventsFromFile lastIndex path1
                                        fileLines (Some [])))) = true) :
  ~ NoDup (map Model.id
               (getEvents lastIndex
                  [ {| notePath := path1; noteLines := fileLines |};
                    {| notePath := path2; noteLines := fileLines |} ])).
Proof.
  unfold getEvents. cbn [flat_map notePath noteLines].
  rewrite app_nil_r, map_app.
  rewrite (getEventsFromFile_withPath lastIndex path1 path2 fileLines
             (Some []) (Some [])).
  rewrite map_map. cbn [withPath Model.id].
  destruct (result (getEventsFromFile lastIndex path1 fileLines (Some [])))
    as [|event events]; [discriminate|].
  cbn [map app]. intros Hnodup. apply NoDup_cons_iff in Hnodup.
  apply (proj1 Hnodup). apply in_or_app. right. left. reflexivity.
Qed.

(** ** Frontmatter *)

Lemma allValuesMatch_spec (fm : Frontmatter)
      (entries : list (jsstring * jsstring)) :
  allValuesMatch fm entries = true
  <-> forall key value, In (key, value) entries ->
        lookup fm key = Some (FMText value).
Proof.
  induction entries as [|[k v] entries IH]; cbn [allValuesMatch].
  - split; [intros _ key value [] | reflexivity].
  - unfold differsFrom.
    destruct (lookup fm k) as [[s|]|] eqn:Hk.
    + destruct (jseqb s v) eqn:Hs; cbn [negb].
      * apply jseqb_eq in Hs. subst s. rewrite IH. split.
        -- intros H key value [Heq | Hin];
             [injection Heq as <- <-; exact Hk | apply H; exact Hin].
        -- intros H key value Hin. apply H. right. exact Hin.
      * split; [discriminate|]. intros H.
        specialize (H k v (or_introl eq_refl)). rewrite Hk in H.
        injection H as ->.
        assert (jseqb v v = true) by (apply jseqb_eq; reflexivity).
        congruence.
    + split; [discriminate|]. intros H.
      specialize (H k v (or_introl eq_refl)). congruence.
    + split; [discriminate|]. intros H.
      specialize (H k v (or_introl eq_refl)). congruence.
Qed.

(** X27. [fileHasMatchingMetadata] answers [true] exactly when the file
    has a frontmatter, every required key is an own property of it, and
    every required pair is held as a text equal to the required value; so
    a file without frontmatter never matches, not even the empty
    requirement. *)
Theorem fileHasMatchingMetadata_spec
  (frontmatter : option Frontmatter) (metadataKeys : list jsstring)
  (metadataValues : list (jsstring * jsstring)) :
  fileHasMatchingMetadata frontmatter metadataKeys metadataValues = true
  <-> exists fm,
        frontmatter = Some fm
        /\ (forall key, In key metadataKeys -> hasOwnProperty fm key = true)
        /\ (forall key value, In (key, value) metadataValues ->
              lookup fm key = Some (FMText value)).
Proof.
  unfold fileHasMatchingMetadata.
  destruct frontmatter as [fm|];
    [|split; [discriminate | intros [fm [H _]]; discriminate]].
  assert (Hkeys :
    existsb (fun key => negb (hasOwnProperty fm key)) metadataKeys = false
    <-> forall key, In key metadataKeys -> hasOwnProperty fm key = true).
  { split.
    - intros H key Hin.
      destruct (hasOwnProperty fm key) eqn:Hk; [reflexivity|].
      assert (existsb (fun key => negb (hasOwnProperty fm key)) metadataKeys
              = true)
        by (apply existsb_exists; exists key; rewrite Hk; auto).
      congruence.
    - intros H.
      destruct (existsb (fun key => negb (hasOwnProperty fm key))
                        metadataKeys) eqn:Hex; [|reflexivity].
      apply existsb_exists in Hex. destruct Hex as [key [Hin Hk]].
      rewrite (H key Hin) in Hk. discriminate. }
  pose proof (allValuesMatch_spec fm metadataValues) as Hvalues.
  split.
  - intros H. exists fm. split; [reflexivity|].
    destruct metadataKeys as [|k ks]; destruct metadataValues as [|kv kvs];
      cbn [length Nat.ltb Nat.leb andb] in H.
    + split; [intros key [] | intros key value []].
    + destruct (allValuesMatch fm (kv :: kvs)) eqn:Hv; [|discriminate].
      split; [intros key [] | apply Hvalues; reflexivity].
    + destruct (existsb (fun key => negb (hasOwnProperty fm key)) (k :: ks))
        eqn:Hk; [discriminate|].
      split; [apply Hkeys; reflexivity | intros key value []].
    + destruct (existsb (fun key => negb (hasOwnProperty fm key)) (k :: ks))
        eqn:Hk; [discriminate|].
      destruct (allValuesMatch fm (kv :: kvs)) eqn:Hv; [|discriminate].
      split; [apply Hkeys; reflexivity | apply Hvalues; reflexivity].
  - intros [fm' [Heq [Hk Hv]]]. injection Heq as <-.
    apply Hkeys in Hk. apply Hvalues in Hv. rewrite Hk, Hv.
    rewrite !andb_false_r. reflexivity.
Qed.

(** ** The token of [lineContainsParseBelowToken] *)

Lemma execFrom_Lit (text : jsstring) :
  forall s pos,
    match execFrom (Lit text) pos s with
    | Some _ => true
    | None => false
    end = includes s text.
Proof.
  induction s as [|c s IH]; intros pos; cbn [execFrom includes];
    rewrite matchK_Lit; cbn [mrest].
  - destruct (startsWith [] text); reflexivity.
  - destruct (startsWith (c :: s) text); [reflexivity|].
    cbn [orb]. apply IH.
Qed.

Lemma test_Lit (text s : jsstring) : Regex.test (Lit text) s = includes s text.
Proof. unfold Regex.test, exec. apply execFrom_Lit. Qed.

(** Escaping a token gives a pattern text that stands for the token. *)
Lemma literalOf_escapeToken (token : jsstring) :
  literalOf (escapeToken token) = Some token.
Proof.
  induction token as [|c token IH]; [reflexivity|].
  cbn [escapeToken flat_map]. fold (escapeToken token).
  destruct (isEscaped c) eqn:Hc; cbn [app literalOf].
  - change (char_eqb (ch "\") (ch "\")) with true. cbv iota.
    rewrite Hc, IH. reflexivity.
  - destruct (char_eqb c (ch "\")) eqn:Hb.
    + apply N.eqb_eq in Hb. subst c. discriminate Hc.
    + rewrite Hc, IH. reflexivity.
Qed.

Lemma literalEngine_readsLiterals : readsLiterals literalEngine.
Proof.
  intros source text Hsource. exists (Lit text). split.
  - cbn [compile literalEngine]. rewrite Hsource. reflexivity.
  - intros line. apply test_Lit.
Qed.

(** X28. Whatever the token is, escaping makes it a literal: on a
    platform that follows the pattern syntax, [lineContainsParseBelowToken]
    answers whether the token occurs in the line as a text (the empty
    token occurs in every line), and the [catch] of an invalid pattern is
    never reached. *)
Theorem lineContainsParseBelowToken_is_includes
  (engine : RegExpEngine) (Hengine : readsLiterals engine)
  (line token : jsstring) :
  lineContainsParseBelowToken line token = includes line token
  /\ exists pattern, compile (escapeToken token) = Some pattern.
Proof.
  destruct (Hengine (escapeToken token) token (literalOf_escapeToken token))
    as [pattern [Hcompile Htest]].
  split; [|exists pattern; exact Hcompile].
  unfold lineContainsParseBelowToken. rewrite Hcompile, Htest.
  destruct (jseqb token []) eqn:Hempty; [|reflexivity].
  apply jseqb_eq in Hempty. subst token.
  destruct line; reflexivity.
Qed.

(** ** Titles *)

Lemma trailingSpace_split (s : jsstring) :
  s = withoutTrailingSpace s ++ trailingSpace s.
Proof.
  induction s as [|c s IH]; [reflexivity|].
  destruct s as [|c' s'].
  - cbn. destruct (isSpace c); reflexivity.
  - change (trailingSpace (c :: c' :: s')) with (trailingSpace (c' :: s')).
    change (withoutTrailingSpace (c :: c' :: s'))
      with (c :: withoutTrailingSpace (c' :: s')).
    cbn [app]. rewrite <- IH. reflexivity.
Qed.

Lemma execFrom_DUE_DATE_first_space (pre dt post : jsstring) :
  noAt pre = true -> isDateText dt = true ->
  forall pos,
    exists m,
      execFrom PATTERNS.DUE_DATE pos (pre ++ str "@{" ++ dt ++ str "}" ++ post)
        = Some m
      /\ matched m = trailingSpace pre ++ str "@{" ++ dt ++ str "}".
Proof.
  intros Hpre Hdt.
  assert (Hannot : forall pos,
    matchK DUE_DATE_annotation
           (MState pos (str "@{" ++ dt ++ str "}" ++ post) []) Some
      = Some (MState (pos + 13) post [dt]))
    by (intros pos; apply (DUE_DATE_annotation_fwd pos [] dt post Some Hdt)).
  pose proof (isDateText_length dt Hdt) as Hlen.
  do 10 (destruct dt as [|? dt]; [discriminate|]).
  destruct dt; [clear Hlen|discriminate].
  cbn [str app map list_ascii_of_string] in Hannot |- *.
  induction pre as [|a pre IH]; intros pos.
  - eexists. cbn [app execFrom trailingSpace].
    change PATTERNS.DUE_DATE
      with (Seq (Opt (Cls isSpace)) DUE_DATE_annotation).
    cbn [matchK mrest mpos mcaps].
    change (isSpace (ch "@")) with false. cbv iota.
    rewrite Hannot. split; [reflexivity|].
    cbn [matched mpos]. replace (pos + 13 - pos) with 13 by lia.
    reflexivity.
  - cbn [noAt forallb] in Hpre. apply andb_true_iff in Hpre.
    destruct Hpre as [Ha Hpre]. apply negb_true_iff in Ha.
    destruct pre as [|a' pre'].
    + cbn [app execFrom trailingSpace].
      change PATTERNS.DUE_DATE
        with (Seq (Opt (Cls isSpace)) DUE_DATE_annotation).
      cbn [matchK mrest mpos mcaps].
      destruct (isSpace a) eqn:Hsp.
      * rewrite Hannot. eexists. split; [reflexivity|].
        cbn [matched mpos app].
        replace (S pos + 13 - pos) with 14 by lia. reflexivity.
      * assert (Hfail : forall l,
          matchK DUE_DATE_annotation (MState pos (a :: l) []) Some = None).
        { intros l. unfold DUE_DATE_annotation, Cat.
          cbn [fold_right matchK mrest]. rewrite Ha. reflexivity. }
        rewrite Hfail.
        destruct (IH Hpre (S pos)) as [m [Hexec Hm]].
        exists m. split; [exact Hexec | exact Hm].
    + cbn [noAt forallb] in Hpre. apply andb_true_iff in Hpre.
      destruct Hpre as [Ha' Hpre']. apply negb_true_iff in Ha'.
      change (trailingSpace (a :: a' :: pre'))
        with (trailingSpace (a' :: pre')).
      cbn [app execFrom].
      assert (Hfail : forall l,
        matchK PATTERNS.DUE_DATE (MState pos (a :: a' :: l) []) Some = None).
      { intros l. unfold PATTERNS.DUE_DATE, Cat.
        cbn [fold_right matchK mrest mpos mcaps]. rewrite Ha, Ha'.
        destruct (isSpace a); reflexivity. }
      rewrite Hfail.
      assert (Hpre2 : noAt (a' :: pre') = true).
      { cbn [noAt forallb]. rewrite Ha'. exact Hpre'. }
      destruct (IH Hpre2 (S pos)) as [m [Hexec Hm]].
      exists m. split; [exact Hexec | exact Hm].
Qed.

(** A text with an ["@"] at place [n] does not start a text that has
    none at that place. *)
Lemma startsWith_at (s raw : jsstring) (n : nat) :
  nth_error raw n = Some (ch "@") ->
  match nth_error s n with
  | Some c => char_eqb c (ch "@") = false
  | None => True
  end ->
  startsWith s raw = false.
Proof.
  revert s raw. induction n as [|n IH]; intros s raw Hraw Hs.
  - destruct raw as [|r raw]; [discriminate|]. injection Hraw as ->.
    destruct s as [|c s]; [reflexivity|]. cbn in Hs |- *.
    rewrite Hs. reflexivity.
  - destruct raw as [|r raw]; [discriminate|]. cbn in Hraw.
    destruct s as [|c s]; [reflexivity|]. cbn in Hs. cbn [startsWith].
    rewrite (IH s raw Hraw Hs). apply andb_false_r.
Qed.

Lemma noAt_nth (s : jsstring) (n : nat) :
  noAt s = true ->
  match nth_error s n with
  | Some c => char_eqb c (ch "@") = false
  | None => True
  end.
Proof.
  intros H. destruct (nth_error s n) as [c|] eqn:Hn; [|exact I].
  apply nth_error_In in Hn. unfold noAt in H.
  rewrite forallb_forall in H. apply negb_true_iff. apply H. exact Hn.
Qed.

(** The first occurrence of the raw match is where the match was: there
    is no ["@"] before. *)
Lemma replaceString_after_noAt (a sp annotation b : jsstring) :
  noAt (a ++ sp) = true ->
  nth_error (sp ++ annotation) (length sp) = Some (ch "@") ->
  replaceString (sp ++ annotation) [] (a ++ (sp ++ annotation) ++ b)
    = a ++ b.
Proof.
  intros Hno Hat. induction a as [|c a IH].
  - cbn [app].
    destruct (sp ++ annotation) as [|r raw] eqn:Hraw;
      [destruct (length sp); discriminate Hat|].
    cbn [app replaceString].
    change (r :: raw ++ b) with ((r :: raw) ++ b).
    rewrite (startsWith_app (r :: raw) b).
    rewrite skipn_app, skipn_all, Nat.sub_diag. reflexivity.
  - cbn [app replaceString].
    rewrite (startsWith_at (c :: a ++ (sp ++ annotation) ++ b)
               (sp ++ annotation) (length sp) Hat).
    + f_equal. apply IH. cbn [app noAt forallb] in Hno.
      apply andb_true_iff in Hno. apply Hno.
    + assert (Hnth : nth_error (c :: a ++ (sp ++ annotation) ++ b) (length sp)
                     = nth_error ((c :: a) ++ sp) (length sp)).
      { change (c :: a ++ (sp ++ annotation) ++ b)
          with ((c :: a) ++ (sp ++ annotation) ++ b).
        rewrite <- app_assoc, app_assoc.
        apply nth_error_app1. rewrite length_app. cbn [length]. lia. }
      rewrite Hnth. apply noAt_nth. exact Hno.
Qed.

Lemma trim_app_space (s : jsstring) (c : char) :
  isSpace c = true -> trim (s ++ [c]) = trim s.
Proof.
  intros Hc. unfold trim, trimEnd, trimStart.
  induction s as [|x s IH].
  - cbn. rewrite Hc. reflexivity.
  - cbn [app dropWhile]. destruct (isSpace x); [exact IH|].
    change (x :: s ++ [c]) with ((x :: s) ++ [c]).
    rewrite rev_app_distr. cbn [rev app dropWhile]. rewrite Hc. reflexivity.
Qed.

(** X29. The title of a plain line with one annotation is the line
    without it: for a body that holds one well-formed annotation and no
    other ["@"], under an empty header, the content is the text before
    the annotation, less the one white-space character that the pattern
    takes in front of it, followed by the text after it, trimmed. *)
Theorem parseLine_content_without_annotation
  (pre dt post : jsstring)
  (Hpre : noAt pre = true) (Hpost : noAt post = true)
  (Hdt : isDateText dt = true) :
  let line := pre ++ str "@{" ++ dt ++ str "}" ++ post in
  content (parseLine 0 {| header := []; body := line |})
    = trim (withoutTrailingSpace pre ++ post)
  /\ map date (dates (parseLine 0 {| header := []; body := line |})) = [dt].
Proof.
  intros line.
  destruct (execFrom_DUE_DATE_first_space pre dt post Hpre Hdt 0)
    as [m [Hexec Hm]].
  destruct (execFrom_DUE_DATE_first pre dt post Hpre Hdt 0)
    as [sp [m' [Hexec' [_ [Hg [Hafter Hne]]]]]].
  rewrite Hexec in Hexec'. injection Hexec' as <-.
  assert (Hdates : extractDates 0 line
                   = [ {| date := dt;
                          moment := Moment.parseYMD dt;
                          type := TypeDate;
                          rawMatch := Some (trailingSpace pre ++ str "@{"
                                              ++ dt ++ str "}") |} ]).
  { destruct (extractDates_first pre dt post Hpre Hdt) as [sp' Heq].
    fold line in Heq. rewrite (extractDates_noAt 0 post Hpost) in Heq.
    assert (Hraw : nth_error (map rawMatch (extractDates 0 line)) 0
                   = Some (Some (matched m))).
    { unfold extractDates, matchAll. cbn [Nat.leb skipn matchAllFrom].
      fold line in Hexec. rewrite Hexec. reflexivity. }
    rewrite Heq in Hraw |- *. cbn [map nth_error rawMatch] in Hraw.
    rewrite Hm in Hraw.
    assert (Hsp : sp' ++ str "@{" ++ dt ++ str "}"
                  = trailingSpace pre ++ str "@{" ++ dt ++ str "}")
      by (injection Hraw as Hraw; exact Hraw).
    rewrite Hsp. reflexivity. }
  cbn [parseLine dates content header body length Nat.eqb].
  rewrite Hdates. split; [|reflexivity].
  unfold cleanContent. cbn [removeDates rawMatch].
  assert (Htruthy : truthy (trailingSpace pre ++ str "@{" ++ dt ++ str "}")
                    = true)
    by (destruct (trailingSpace pre); reflexivity).
  rewrite Htruthy. f_equal.
  unfold line. rewrite (trailingSpace_split pre) at 2.
  rewrite <- !app_assoc.
  replace (trailingSpace pre ++ str "@{" ++ dt ++ str "}" ++ post)
    with ((trailingSpace pre ++ (str "@{" ++ dt ++ str "}")) ++ post)
    by (rewrite <- !app_assoc; reflexivity).
  apply replaceString_after_noAt.
  - rewrite <- trailingSpace_split. exact Hpre.
  - rewrite nth_error_app2, Nat.sub_diag by lia. reflexivity.
Qed.

Lemma replaceString_noAt (raw : jsstring) (n : nat) :
  nth_error raw n = Some (ch "@") ->
  forall s, noAt s = true -> replaceString raw [] s = s.
Proof.
  intros Hraw. induction s as [|c s IH]; intros Hs.
  - cbn [replaceString].
    rewrite (startsWith_at [] raw n Hraw) by (destruct n; exact I).
    reflexivity.
  - cbn [replaceString].
    rewrite (startsWith_at (c :: s) raw n Hraw) by (apply noAt_nth; exact Hs).
    f_equal. apply IH. cbn [noAt forallb] in Hs.
    apply andb_true_iff in Hs. apply Hs.
Qed.

Lemma removeDates_noAt (lastIndex : nat) (line : jsstring) :
  forall ds result,
    (forall d, In d ds -> In d (extractDates lastIndex line)) ->
    noAt result = true ->
    removeDates result ds = result.
Proof.
  induction ds as [|d ds IH]; intros result Hds Hres; [reflexivity|].
  cbn [removeDates].
  assert (Hd : In d (extractDates lastIndex line))
    by (apply Hds; left; reflexivity).
  rewrite extractDates_from_cursor in Hd.
  unfold extractDates, matchAll in Hd. cbn [Nat.leb skipn] in Hd.
  apply in_map_iff in Hd. destruct Hd as [m [<- Hm]].
  apply matchAllFrom_DUE_DATE_inv in Hm.
  destruct Hm as [_ [sp [dt [_ [_ [_ [_ [Hmatched _]]]]]]]].
  cbn [rawMatch]. rewrite Hmatched.
  assert (Hat : nth_error (sp ++ str "@{" ++ dt ++ str "}") (length sp)
                = Some (ch "@"))
    by (rewrite nth_error_app2, Nat.sub_diag by lia; reflexivity).
  rewrite (replaceString_noAt _ _ Hat result Hres).
  destruct (truthy (sp ++ str "@{" ++ dt ++ str "}"));
    apply IH; try assumption;
    intros d' Hd'; apply Hds; right; exact Hd'.
Qed.

(** X30. The title of an entry with a header: when the header is not
    empty and holds no ["@"], the content is the header, trimmed; the
    dates found in the body change nothing of it. *)
Theorem parseLine_content_is_header
  (lastIndex : nat) (header0 body0 : jsstring)
  (Hheader : truthy header0 = true) (Hno : noAt header0 = true) :
  content (parseLine lastIndex {| header := header0; body := body0 |})
    = trim header0.
Proof.
  cbn [parseLine content header body].
  destruct header0 as [|c h]; [discriminate|].
  cbn [length Nat.eqb]. unfold cleanContent. f_equal.
  apply (removeDates_noAt lastIndex body0); [auto | exact Hno].
Qed.

(** ** The sample task *)

(** C2, as the code has it. The line ["- [ ] Buy milk @{2024-03-01}"] at
    index 2 is a checklist line; its text after the checkbox is the header
    of its entry, which is not read for dates, so the note gives no
    event. With the annotation on an indented line below the checklist
    line ["- [ ] Buy milk"], the note gives exactly one event: title
    ["Buy milk"], start and end on 2024-03-01, all day, path
    ["notes/todo.md"]. This holds in every time zone that has the
    midnight of 1 March 2024. *)
Theorem buy_milk_scenario
  (Hmidnight : Moment.localMidnight 2024 3 1 = Moment.Fields 2024 3 1 0 0) :
  lineGrouper buyMilkNote
    = [ (0, {| header := []; body := [] |});
        (1, {| header := []; body := [] |});
        (2, {| header := str "Buy milk @{2024-03-01}"; body := [] |}) ]
  /\ result (getEventsFromFile 0 todoPath buyMilkNote None) = []
  /\ result (getEventsFromFile 0 todoPath buyMilkNoteBody None)
     = [buyMilkEvent].
Proof.
  split; [vm_compute; reflexivity|]. split; [vm_compute; reflexivity|].
  vm_compute. vm_compute in Hmidnight. rewrite Hmidnight. reflexivity.
Qed.

End Properties.

(* ================================================================== *)
(** * The events depend on the time zone only *)
(* ================================================================== *)

(** What moment answers for a text of another shape than [dddd-dd-dd] has
    no part in the dates, the parsed lines or the events: every date text
    that [extractDates] hands to moment has that shape. *)

Section ZoneOnly.

(** Two environments with the same time zone: they may differ in what
    the forgiving parser answers. *)
Variables zone1 zone2 : Moment.Env.

Hypothesis same_zone :
  forall y m d,
    @Moment.localMidnight zone1 y m d = @Moment.localMidnight zone2 y m d.

Lemma parseYMD_zone_only (s : jsstring) :
  isDateText s = true ->
  @Moment.parseYMD zone1 s = @Moment.parseYMD zone2 s.
Proof.
  unfold isDateText, Moment.parseYMD.
  do 10 (destruct s as [|? s]; [discriminate|]).
  destruct s; [|discriminate].
  intros Hshape. rewrite Hshape. cbv zeta. rewrite same_zone. reflexivity.
Qed.

Lemma extractDates_zone_only (lastIndex : nat) (line : jsstring) :
  @extractDates lastIndex zone1 line = @extractDates lastIndex zone2 line.
Proof.
  unfold extractDates. apply map_ext_in. intros m Hin.
  rewrite parseYMD_zone_only; [reflexivity|].
  unfold matchAll in Hin.
  destruct (Nat.leb lastIndex (length line)); [|destruct Hin].
  apply matchAllFrom_DUE_DATE_inv in Hin.
  destruct Hin as [pre [sp [dt [post [_ [_ [Hdt [_ Hg]]]]]]]].
  unfold group. rewrite Hg. exact Hdt.
Qed.

Lemma parseLine_zone_only (lastIndex : nat) (entry : ListEntry) :
  @parseLine lastIndex zone1 entry = @parseLine lastIndex zone2 entry.
Proof. unfold parseLine. rewrite extractDates_zone_only. reflexivity. Qed.

Lemma eventsLoop_zone_only (lastIndex : nat) (path : jsstring)
      (fileLines : list jsstring) :
  forall fuel i out,
    @eventsLoop lastIndex zone1 fuel path fileLines i out
    = @eventsLoop lastIndex zone2 fuel path fileLines i out.
Proof.
  induction fuel as [|fuel IH]; intros i out; cbn [eventsLoop];
    [reflexivity|].
  destruct (nth_error fileLines i) as [line|]; [|reflexivity].
  destruct (isChecklistLine line).
  - destruct (readListEntry fileLines i line) as [entry next].
    rewrite parseLine_zone_only. apply IH.
  - rewrite parseLine_zone_only. apply IH.
Qed.

Lemma getEventsFromFile_zone_only (lastIndex : nat) (path : jsstring)
      (fileLines : list jsstring) (events0 : option (list Model.Event)) :
  @getEventsFromFile lastIndex zone1 path fileLines events0
  = @getEventsFromFile lastIndex zone2 path fileLines events0.
Proof. unfold getEventsFromFile. apply eventsLoop_zone_only. Qed.

End ZoneOnly.

(* ================================================================== *)
(** * Scenarios *)
(* ================================================================== *)

(** The scenarios are run in a time zone in which every day starts at
    midnight. *)
#[local] Existing Instance plainZone.

Example parseLine_header_annotation_example :
  dates (parseLine 0 {| header := str "Task @{2024-03-01}"; body := [] |}) = []
  /\ length (dates (parseLine 0 {| header := str "Task";
                                   body := str "@{2024-03-01}" |})) = 1.
Proof. split; vm_compute; reflexivity. Qed.

(** C2, against the claim: the note whose line 2 is
    ["- [ ] Buy milk @{2024-03-01}"] gives no event at all, so not the one
    event of the claim. *)
Lemma buy_milk_header_date_gives_no_event :
  isChecklistLine buyMilkLine = true
  /\ result (getEventsFromFile 0 todoPath buyMilkNote None) = []
  /\ ~ (exists event,
          result (getEventsFromFile 0 todoPath buyMilkNote None) = [event]
          /\ Model.title event = str "Buy milk").
Proof.
  assert (H : result (getEventsFromFile 0 todoPath buyMilkNote None) = [])
    by (vm_compute; reflexivity).
  split; [vm_compute; reflexivity|]. split; [exact H|].
  intros [event [Hone _]]. rewrite H in Hone. discriminate.
Qed.

Lemma buy_milk_scenario_witness :
  lineGrouper buyMilkNote
    = [ (0, {| header := []; body := [] |});
        (1, {| header := []; body := [] |});
        (2, {| header := str "Buy milk @{2024-03-01}"; body := [] |}) ]
  /\ result (getEventsFromFile 0 todoPath buyMilkNote None) = []
  /\ result (getEventsFromFile 0 todoPath buyMilkNoteBody None)
     = [buyMilkEvent].
Proof.
  apply (buy_milk_scenario (env := plainZone)). reflexivity.
Defined.

(** C4, against the claim: the checklist line ["- [x] Done thing"] has the
    status character ["x"], which [STATUS_MAPPING] maps to [Done], but
    its parsed entry has neither. *)
Lemma done_thing_status_not_populated :
  isChecklistLine (str "- [x] Done thing") = true
  /\ lookup STATUS_MAPPING (str "x") = Some Done
  /\ lineGrouper [str "- [x] Done thing"]
     = [(0, {| header := str "Done thing"; body := [] |})]
  /\ ~ (statusCharacter
          (parseLine 0 {| header := str "Done thing"; body := [] |})
          = Some (str "x")
        /\ taskStatus
             (parseLine 0 {| header := str "Done thing"; body := [] |})
           = lookup STATUS_MAPPING (str "x")).
Proof.
  repeat split; try (vm_compute; reflexivity).
  intros [H _]. discriminate H.
Qed.

Lemma checklist_entry_carries_no_status_witness :
  exists e,
    In (0, e) (lineGrouper [str "- [x] Done thing"])
    /\ (forall e', In (0, e') (lineGrouper [str "- [x] Done thing"]) -> e' = e)
    /\ header e = trim (replace CHECKLIST_PREFIX [] (str "- [x] Done thing"))
    /\ isTask (parseLine 0 e) = false
    /\ statusCharacter (parseLine 0 e) = None
    /\ taskStatus (parseLine 0 e) = None.
Proof.
  apply (checklist_entry_carries_no_status
           0 [str "- [x] Done thing"] 0 (str "- [x] Done thing")).
  - reflexivity.
  - vm_compute. reflexivity.
Defined.


(** Where a daylight-saving switch removes the midnight of a day, the
    event of that day starts at the end of the gap, and its id carries
    that time; its start is what the platform makes of 00:00 of that day
    all the same. *)
Example gap_day_event :
  result (getEventsFromFile (env := gapZone) 0 todoPath gapDayNote None)
  = [gapDayEvent]
  /\ ~ atMidnight (Model.start gapDayEvent)
  /\ atDayGranularity (env := gapZone) (Model.start gapDayEvent).
Proof.
  split; [vm_compute; reflexivity|]. split.
  - cbn. intros [H _]. discriminate H.
  - exists 2024, 9, 8. split; vm_compute; reflexivity.
Qed.


(** The example of the id: start 2024-03-01 00:00 at line 7. *)
Lemma convertToEvent_id_witness :
  Model.id callEvent = str "202403010000" ++ str "00" ++ str "7"
  /\ exists d0 rest,
       dates (parseLine 0 twoDatesEntry) = d0 :: rest
       /\ Model.start callEvent = Moment.toDate (Moment.clone (moment d0))
       /\ Model.id callEvent =
            Moment.formatYYYYMMDDHHmm (Moment.clone (moment d0))
              ++ str "00" ++ ofNat 7.
Proof.
  split; [vm_compute; reflexivity|].
  apply (convertToEvent_id (parseLine 0 twoDatesEntry) 7 todoPath callEvent).
  vm_compute. reflexivity.
Defined.

Lemma lineGrouper_body_boundary_witness :
  exists before e2 after,
    lineGrouper boundaryNote
      = before
          ++ (0, {| header := trim (replace CHECKLIST_PREFIX [] (str "- [ ] Task"));
                    body := trim (str "  due @{2024-04-10}") |})
          :: (0 + 2, e2) :: after
    /\ (if isChecklistLine (str "Next line")
        then header e2 = trim (replace CHECKLIST_PREFIX [] (str "Next line"))
        else e2 = {| header := []; body := str "Next line" |}).
Proof.
  apply (lineGrouper_body_boundary boundaryNote 0 (str "- [ ] Task")
           (str "  due @{2024-04-10}") (str "Next line"));
    vm_compute; reflexivity.
Defined.

Example boundaryNote_entries :
  lineGrouper boundaryNote
    = [ (0, {| header := str "Task"; body := str "due @{2024-04-10}" |});
        (2, {| header := []; body := str "Next line" |}) ].
Proof. vm_compute. reflexivity. Qed.

(** C8, against the claim: the kind [FOO] is none of the listed kinds, yet
    the label ["TASK-FOO"] gives a character, not [null]. *)
Lemma getMarkBasedOnEvent_unknown_kind_not_null :
  startsWith (str "TASK-FOO") (str "TASK-") = true
  /\ existsb (jseqb (kindOf (str "TASK-FOO"))) recognizedKinds = false
  /\ getMarkBasedOnEvent (str "TASK-FOO") = Some (str " ")
  /\ getMarkBasedOnEvent (str "TASK-FOO") <> None.
Proof. repeat split; try (vm_compute; reflexivity). discriminate. Qed.

Lemma getMarkBasedOnEvent_null_iff_witness :
  getMarkBasedOnEvent (str "TASK-FOO") = Some (str " ")
  /\ (getMarkBasedOnEvent (str "NOTE") = None
      <-> startsWith (str "NOTE") (str "TASK-") = false).
Proof.
  split.
  - apply (proj2 (getMarkBasedOnEvent_null_iff (str "TASK-FOO")));
      vm_compute; reflexivity.
  - apply (proj1 (getMarkBasedOnEvent_null_iff (str "NOTE"))).
Defined.

Lemma eventMatchesFilter_invalid_regex_witness :
  @compile plainEngine (str "(") = None
  /\ @Filter.eventMatchesFilter plainEngine buyMilkEvent badRegexQuery
     = @Filter.eventMatchesFilter plainEngine buyMilkEvent
         (Filter.withoutContentRegex badRegexQuery).
Proof.
  split; [reflexivity|].
  apply (eventMatchesFilter_invalid_regex plainEngine buyMilkEvent
           badRegexQuery (str "(")); reflexivity.
Defined.

(** C10, against the claim: an indented line with the marker ["*"] and a
    checkbox below a checklist line is no entry of its own, it is the body
    of the entry above it; and the content of such a line that stands
    alone is not the entire line when the line holds a due date. *)
Lemma other_marker_line_grouped_into_body :
  option_map (fun m => group m 2)
             (exec PATTERNS.TASK (str "  * [ ] Child"))
    = Some (str "*")
  /\ lineGrouper [str "- [ ] Parent"; str "  * [ ] Child"]
     = [(0, {| header := str "Parent"; body := str "* [ ] Child" |})]
  /\ ~ In (1, {| header := []; body := str "  * [ ] Child" |})
          (lineGrouper [str "- [ ] Parent"; str "  * [ ] Child"])
  /\ option_map (fun m => group m 2)
                (exec PATTERNS.TASK (str "* [ ] Buy @{2024-03-01}"))
     = Some (str "*")
  /\ content (parseLine 0 {| header := [];
                             body := str "* [ ] Buy @{2024-03-01}" |})
     = str "* [ ] Buy"
  /\ content (parseLine 0 {| header := [];
                             body := str "* [ ] Buy @{2024-03-01}" |})
     <> str "* [ ] Buy @{2024-03-01}".
Proof.
  repeat split; try (vm_compute; reflexivity).
  - vm_compute. intros [H | []]. discriminate H.
  - vm_compute. discriminate.
Qed.

(** An indented line with the marker ["*"] below a checklist line and its
    body line: the note has one entry and one event, those of the
    checklist line, and the date of the event is the date written on the
    indented line. *)
Example other_marker_child_consumed :
  lineGrouper childNote
  = [(0, {| header := str "Parent";
            body := join newline
                      [str "soon"; str "* [ ] Child @{2024-03-01}"] |})]
  /\ map (fun e => (Model.title e, Model.start e))
         (result (getEventsFromFile 0 todoPath childNote None))
     = [(str "Parent", midnight 2024 3 1)].
Proof. split; vm_compute; reflexivity. Qed.

Lemma other_marker_is_plain_entry_witness :
  (forall l,
     isChecklistLine l = true <->
     exists ws ws' c rest,
       l = ws ++ ch "-" :: ws' ++ ch "[" :: c :: ch "]" :: rest
       /\ forallb isSpace ws = true
       /\ ws' <> [] /\ forallb isSpace ws' = true
       /\ isDot c = true)
  /\ isChecklistLine (str "* [ ] Buy @{2024-03-01}") = false
  /\ (forall e,
        In (1, e) (lineGrouper starNote) ->
        e = {| header := []; body := str "* [ ] Buy @{2024-03-01}" |}
        /\ content (parseLine 0 e)
           = trim (removeDates (str "* [ ] Buy @{2024-03-01}")
                     (extractDates 0 (str "* [ ] Buy @{2024-03-01}"))))
  /\ (1 = 0 \/ test INDENTED (str "* [ ] Buy @{2024-03-01}") = false ->
      In (1, {| header := []; body := str "* [ ] Buy @{2024-03-01}" |})
         (lineGrouper starNote))
  /\ (forall i0 l0,
        nth_error starNote i0 = Some l0 ->
        isChecklistLine l0 = true ->
        i0 < 1 ->
        (forall j x, i0 < j -> j < 1 ->
                     nth_error starNote j = Some x -> isBodyLine x = true) ->
        test INDENTED (str "* [ ] Buy @{2024-03-01}") = true ->
        (forall e, ~ In (1, e) (lineGrouper starNote))
        /\ exists k,
             1 - i0 <= k
             /\ In (i0,
                    {| header := trim (replace CHECKLIST_PREFIX [] l0);
                       body := join newline
                                 (map trim
                                    (firstn k (skipn (i0 + 1) starNote))) |})
                   (lineGrouper starNote)
             /\ nth_error (map trim (firstn k (skipn (i0 + 1) starNote)))
                          (1 - i0 - 1)
                = Some (trim (str "* [ ] Buy @{2024-03-01}"))).
Proof.
  apply (other_marker_is_plain_entry 0 starNote 1
           (str "* [ ] Buy @{2024-03-01}") starMatch).
  - reflexivity.
  - vm_compute. reflexivity.
  - vm_compute. reflexivity.
Defined.

(** A checklist line without a date gives no event. *)
Example done_thing_no_event :
  result (getEventsFromFile 0 todoPath [str "- [x] Done thing"] None) = [].
Proof. vm_compute. reflexivity. Qed.

(** A checklist line with the date on the indented line below it: one
    event on that day, its title is the header. *)
Example task_with_body_date :
  result (getEventsFromFile 0 todoPath
            [str "- [ ] Task"; str "  @{2024-04-10}"] None)
  = [ {| Model.id := str "202404100000000";
         Model.title := str "Task";
         Model.start := midnight 2024 4 10;
         Model.end_ := midnight 2024 4 10;
         Model.allDay := true;
         Model.eventType := str "default";
         Model.path := Some todoPath;
         Model.blockLink := None |} ].
Proof. vm_compute. reflexivity. Qed.

(** A plain line with a date in it gives an event; the date is taken out
    of its title. *)
Example plain_line_with_date :
  map Model.title
      (result (getEventsFromFile 0 todoPath
                 [str "Buy milk @{2024-03-01}"] None))
  = [str "Buy milk"].
Proof. vm_compute. reflexivity. Qed.

(** A day out of the calendar still gives an event, with an invalid date. *)
Example invalid_day_event :
  map (fun e => (Model.id e, Model.start e))
      (result (getEventsFromFile 0 todoPath [str "x @{2024-02-30}"] None))
  = [(str "Invalid date000", Moment.InvalidDate)].
Proof. vm_compute. reflexivity. Qed.

(** When an earlier [test] has left the index of the shared pattern after
    the first annotation, that annotation is not found. *)
Example stale_lastIndex_skips_first_date :
  map date (extractDates 0 (str "a @{2024-03-01} b @{2024-03-05}"))
    = [str "2024-03-01"; str "2024-03-05"]
  /\ map date (extractDates 15 (str "a @{2024-03-01} b @{2024-03-05}"))
    = [str "2024-03-05"].
Proof. split; vm_compute; reflexivity. Qed.

(** The folder constraint of the filter. *)
Example folder_filter :
  @Filter.eventMatchesFilter plainEngine buyMilkEvent
     {| Filter.eventType := None; Filter.contentRegex := None;
        Filter.folderPaths := Some [str "notes/"] |} = true
  /\ @Filter.eventMatchesFilter plainEngine buyMilkEvent
       {| Filter.eventType := None; Filter.contentRegex := None;
          Filter.folderPaths := Some [str "home/"] |} = false.
Proof. split; vm_compute; reflexivity. Qed.

Lemma getEventsFromFile_event_shape_witness :
  Model.allDay buyMilkEvent = true
  /\ Model.eventType buyMilkEvent = str "default"
  /\ Model.path buyMilkEvent = Some todoPath
  /\ Model.blockLink buyMilkEvent = None
  /\ Model.start buyMilkEvent = Model.end_ buyMilkEvent
  /\ atDayGranularity (Model.start buyMilkEvent)
  /\ isTrimmed (Model.title buyMilkEvent) = true.
Proof.
  apply (getEventsFromFile_event_shape 0 todoPath buyMilkNoteBody None 0
           buyMilkEvent).
  vm_compute. reflexivity.
Defined.

Lemma getEventsFromFile_no_annotation_witness :
  result (getEventsFromFile 3 todoPath
            [str "- [ ] Task"; str "  more text"; str "Plain line"] None)
    = [].
Proof.
  apply (getEventsFromFile_no_annotation 3 todoPath
           [str "- [ ] Task"; str "  more text"; str "Plain line"] None).
  vm_compute. reflexivity.
Defined.

Lemma checklist_entry_body_run_witness :
  exists k,
    entryAt boundaryNote 0 (str "- [ ] Task")
      = {| header := trim (replace CHECKLIST_PREFIX [] (str "- [ ] Task"));
           body := join newline
                     (map trim (firstn k (skipn (0 + 1) boundaryNote))) |}
    /\ nextAt boundaryNote 0 (str "- [ ] Task") = 0 + 1 + k
    /\ forallb isBodyLine (firstn k (skipn (0 + 1) boundaryNote)) = true
    /\ match nth_error boundaryNote (0 + 1 + k) with
       | Some x => isBodyLine x = false
       | None => True
       end
    /\ In (0, entryAt boundaryNote 0 (str "- [ ] Task"))
          (lineGrouper boundaryNote).
Proof.
  apply (checklist_entry_body_run boundaryNote 0 (str "- [ ] Task"));
    vm_compute; reflexivity.
Defined.

Lemma lineGrouper_covers_every_line_witness :
  In (1, entryAt boundaryNote 1 (str "  due @{2024-04-10}"))
     (lineGrouper boundaryNote)
  \/ (isBodyLine (str "  due @{2024-04-10}") = true
      /\ exists i0 l0,
           i0 < 1 /\ 1 < nextAt boundaryNote i0 l0
           /\ nth_error boundaryNote i0 = Some l0
           /\ isChecklistLine l0 = true
           /\ In (i0, entryAt boundaryNote i0 l0) (lineGrouper boundaryNote)).
Proof.
  apply (lineGrouper_covers_every_line boundaryNote 1
           (str "  due @{2024-04-10}")).
  reflexivity.
Defined.

Lemma format_parseYMD_roundtrip_witness :
  exists y m d,
    Moment.validDay y m d = true
    /\ Moment.pad 4 y ++ Moment.pad 2 m ++ Moment.pad 2 d
       = withoutDashes (str "2024-02-29")
    /\ Moment.parseYMD (str "2024-02-29")
       = Moment.Valid (Moment.localMidnight y m d)
    /\ (forall h mi,
          Moment.localMidnight y m d = Moment.Fields y m d h mi ->
          Moment.formatYYYYMMDDHHmm (Moment.parseYMD (str "2024-02-29"))
          = withoutDashes (str "2024-02-29")
              ++ Moment.pad 2 h ++ Moment.pad 2 mi)
    /\ (Moment.localMidnight y m d = Moment.Fields y m d 0 0 ->
        Moment.formatYYYYMMDDHHmm (Moment.parseYMD (str "2024-02-29"))
        = withoutDashes (str "2024-02-29") ++ str "0000").
Proof.
  apply (format_parseYMD_roundtrip (str "2024-02-29")).
  - vm_compute. reflexivity.
  - vm_compute. reflexivity.
Defined.

Lemma convertToEvent_id_of_date_witness :
  exists d0 rest,
    extractDates 0 (body twoDatesEntry) = d0 :: rest
    /\ Model.id callEvent
       = Moment.formatYYYYMMDDHHmm (Moment.parseYMD (date d0))
           ++ str "00" ++ ofNat 7
    /\ (momentIsValid (moment d0) = false ->
        Model.id callEvent = str "Invalid date" ++ str "00" ++ ofNat 7)
    /\ (momentIsValid (moment d0) = true ->
        exists y m d,
          Moment.validDay y m d = true
          /\ Moment.pad 4 y ++ Moment.pad 2 m ++ Moment.pad 2 d
             = withoutDashes (date d0)
          /\ moment d0 = Moment.Valid (Moment.localMidnight y m d)
          /\ (forall h mi,
                Moment.localMidnight y m d = Moment.Fields y m d h mi ->
                Model.id callEvent
                = withoutDashes (date d0)
                    ++ Moment.pad 2 h ++ Moment.pad 2 mi
                    ++ str "00" ++ ofNat 7)
          /\ (Moment.localMidnight y m d = Moment.Fields y m d 0 0 ->
              Model.id callEvent
              = withoutDashes (date d0) ++ str "0000"
                  ++ str "00" ++ ofNat 7)).
Proof.
  apply (convertToEvent_id_of_date 0 twoDatesEntry 7 todoPath callEvent).
  vm_compute. reflexivity.
Defined.

Lemma extractDates_sound_witness :
  exists pre sp post,
    str "call @{2024-03-01} now"
      = pre ++ sp ++ str "@{" ++ str "2024-03-01" ++ str "}" ++ post
    /\ (sp = [] \/ exists c, sp = [c] /\ isSpace c = true)
    /\ isDateText (str "2024-03-01") = true
    /\ Some (str " @{2024-03-01}")
       = Some (sp ++ str "@{" ++ str "2024-03-01" ++ str "}")
    /\ Moment.Valid (Moment.Fields 2024 3 1 0 0)
       = Moment.parseYMD (str "2024-03-01").
Proof.
  apply (extractDates_sound 0 (str "call @{2024-03-01} now") 0
           {| date := str "2024-03-01";
              moment := Moment.Valid (Moment.Fields 2024 3 1 0 0);
              type := TypeDate;
              rawMatch := Some (str " @{2024-03-01}") |}).
  vm_compute. reflexivity.
Defined.

Lemma extractDates_finds_first_annotation_witness :
  exists sp,
    (sp = [] \/ exists c, sp = [c] /\ isSpace c = true)
    /\ extractDates 0 (str "call" ++ str "@{" ++ str "2024-03-01" ++ str "}"
                         ++ str " or @{2024-03-05}")
       = {| date := str "2024-03-01";
            moment := Moment.parseYMD (str "2024-03-01");
            type := TypeDate;
            rawMatch := Some (sp ++ str "@{" ++ str "2024-03-01" ++ str "}") |}
           :: extractDates 0 (str " or @{2024-03-05}").
Proof.
  apply (extractDates_finds_first_annotation
           (str "call") (str "2024-03-01") (str " or @{2024-03-05}"));
    vm_compute; reflexivity.
Defined.

Lemma getEventsFromFile_finds_annotation_witness :
  exists event,
    In event (result (getEventsFromFile 0 todoPath buyMilkNoteBody None))
    /\ Model.start event = Moment.toDate (Moment.parseYMD (str "2024-03-01"))
    /\ Model.end_ event = Moment.toDate (Moment.parseYMD (str "2024-03-01"))
    /\ Model.id event
       = Moment.formatYYYYMMDDHHmm (Moment.parseYMD (str "2024-03-01"))
           ++ str "00" ++ ofNat 2
    /\ Model.title event
       = content (parseLine 0 (entryAt buyMilkNoteBody 2 (str "- [ ] Buy milk"))).
Proof.
  apply (getEventsFromFile_finds_annotation todoPath buyMilkNoteBody None
           2 (str "- [ ] Buy milk") [] (str "2024-03-01") []);
    vm_compute; reflexivity.
Defined.

Lemma eventMatchesFilter_blank_query_witness :
  @Filter.eventMatchesFilter plainEngine buyMilkEvent
     {| Filter.eventType := Some [];
        Filter.contentRegex := Some [];
        Filter.folderPaths := Some [] |} = true.
Proof.
  apply (eventMatchesFilter_blank_query plainEngine buyMilkEvent).
  reflexivity.
Defined.

Lemma eventMatchesFilter_folder_prefix_witness :
  @Filter.eventMatchesFilter plainEngine buyMilkEvent
    {| Filter.eventType := None; Filter.contentRegex := None;
       Filter.folderPaths := Some [str "home/"; str "notes/"] |} = true
  <-> exists folder rest,
        In folder [str "home/"; str "notes/"]
        /\ todoPath = folder ++ rest.
Proof.
  apply (eventMatchesFilter_folder_prefix plainEngine buyMilkEvent
           [str "home/"; str "notes/"] todoPath); reflexivity.
Defined.

Lemma eventMatchesFilter_other_type_rejects_extracted_witness :
  @Filter.eventMatchesFilter plainEngine buyMilkEvent
    {| Filter.eventType := Some (str "TASK-TODO");
       Filter.contentRegex := None;
       Filter.folderPaths := None |} = false.
Proof.
  apply (eventMatchesFilter_other_type_rejects_extracted plainEngine
           0 todoPath buyMilkNoteBody None 0 buyMilkEvent
           {| Filter.eventType := Some (str "TASK-TODO");
              Filter.contentRegex := None;
              Filter.folderPaths := None |} (str "TASK-TODO"));
    vm_compute; reflexivity.
Defined.

Lemma getMarkBasedOnEvent_ignores_suffix_witness :
  getMarkBasedOnEvent (str "TASK-" ++ str "IN" ++ str "-" ++ str "PROGRESS")
    = getMarkBasedOnEvent (str "TASK-" ++ str "IN").
Proof.
  apply (getMarkBasedOnEvent_ignores_suffix (str "IN") (str "PROGRESS")).
  reflexivity.
Defined.

Lemma getMarkBasedOnEvent_single_character_witness :
  length (str "/") = 1.
Proof.
  apply (getMarkBasedOnEvent_single_character (str "TASK-IN_PROGRESS")
           (str "/")).
  vm_compute. reflexivity.
Defined.

Lemma lineContainsTime_false_resets_witness :
  snd (lineContainsTime
         {| atTIME_STANDARD := 3; atTIME_WITH_TAG := 1; atDUE_DATE := 4;
            at_DUE_DATE := 1; atEND_TIME := 5 |}
         (str "plain text"))
    = freshCursors.
Proof.
  apply (lineContainsTime_false_resets
           {| atTIME_STANDARD := 3; atTIME_WITH_TAG := 1; atDUE_DATE := 4;
              at_DUE_DATE := 1; atEND_TIME := 5 |}
           (str "plain text")).
  vm_compute. reflexivity.
Defined.

Lemma lineContainsTime_task_line_witness :
  fst (lineContainsTime
         {| atTIME_STANDARD := 3; atTIME_WITH_TAG := 1; atDUE_DATE := 4;
            at_DUE_DATE := 1; atEND_TIME := 5 |}
         (str "1. [x] done")) = true.
Proof.
  apply (lineContainsTime_task_line
           {| atTIME_STANDARD := 3; atTIME_WITH_TAG := 1; atDUE_DATE := 4;
              at_DUE_DATE := 1; atEND_TIME := 5 |}
           (str "1. [x] done")).
  vm_compute. reflexivity.
Defined.

Lemma lineContainsTime_then_extractDates_witness :
  let line := str "pay " ++ str "@{" ++ str "2024-03-01" ++ str "}"
                ++ str " or @{2024-03-05}" in
  let cursors' := snd (lineContainsTime freshCursors line) in
  fst (lineContainsTime freshCursors line) = true
  /\ extractDates (atDUE_DATE cursors') line
     = extractDates 0 (str " or @{2024-03-05}")
  /\ length (extractDates 0 line)
     = S (length (extractDates (atDUE_DATE cursors') line)).
Proof.
  apply (lineContainsTime_then_extractDates freshCursors
           (str "pay ") (str "2024-03-01") (str " or @{2024-03-05}"));
    vm_compute; reflexivity.
Defined.

Lemma getEvents_ids_collide_witness :
  ~ NoDup (map Model.id
               (getEvents 0
                  [ {| notePath := str "a.md"; noteLines := buyMilkNoteBody |};
                    {| notePath := str "b.md"; noteLines := buyMilkNoteBody |} ])).
Proof.
  apply (getEvents_ids_collide 0 (str "a.md") (str "b.md") buyMilkNoteBody).
  vm_compute. reflexivity.
Defined.

Lemma lineContainsParseBelowToken_is_includes_witness :
  @lineContainsParseBelowToken literalEngine
     (str "## Tasks (today)") (str "(today)")
    = includes (str "## Tasks (today)") (str "(today)")
  /\ exists pattern,
       @compile literalEngine (escapeToken (str "(today)")) = Some pattern.
Proof.
  apply (lineContainsParseBelowToken_is_includes literalEngine
           literalEngine_readsLiterals).
Defined.

Lemma parseLine_content_without_annotation_witness :
  let line := str "Buy milk " ++ str "@{" ++ str "2024-03-01" ++ str "}"
                ++ str " today" in
  content (parseLine 0 {| header := []; body := line |})
    = trim (withoutTrailingSpace (str "Buy milk ") ++ str " today")
  /\ map date (dates (parseLine 0 {| header := []; body := line |}))
     = [str "2024-03-01"].
Proof.
  apply (parseLine_content_without_annotation
           (str "Buy milk ") (str "2024-03-01") (str " today"));
    vm_compute; reflexivity.
Defined.

Lemma parseLine_content_is_header_witness :
  content (parseLine 0 {| header := str "Task"; body := str "@{2024-04-10}" |})
    = trim (str "Task").
Proof.
  apply (parseLine_content_is_header 0 (str "Task") (str "@{2024-04-10}"));
    reflexivity.
Defined.
